(** * KAnim exporter (blender25_x3d/export_kanim.py)

    A shallow embedding of the [ExportKAnim] operator: the frame loop of
    [execute], the per-frame work of [output_frame], and the Python
    primitives they rely on ([os.path], ["%04d"], ["%f"], int/float
    division).

    - Strings are [String.string]; [os.path] is [posixpath].
    - Frame numbers are [Z].  A Python [float] is a binary64 value of the
      Standard Library's [SpecFloat]; [int / float] converts the integer
      (raising [OverflowError] when it is too large) and divides with
      rounding to nearest even; ["%f"] rounds the exact binary value to
      six decimals, half to even.
    - Effects are a chronological trace of events (file opened, text
      written, scene cursor moved, host exporter called, file closed)
      threaded through a small state-and-exception monad whose state
      survives a raised exception.  The file system and the host are a
      parameter, a [host]: for each call the operator makes ([open],
      [write], [frame_set], the X3D exporter, [close]) it tells whether
      the call raises, from the whole history.
    - The [while] loop takes fuel; [execute] gives it
      [frame_end - frame_start], which is enough whenever the skip count is
      not negative ([execute_has_fuel]), and with a negative skip count the
      loop of the source does not end either ([stride_frames_diverges]).

    - [invoke] is a function of the operator and of the path of the blend
      file; its one call to the window manager is returned beside the
      updated operator.

    Definitions come first, then the facts: the sampler, file names, runs
    of the operator, binary64 rounding, the time attribute, concrete runs,
    and then further facts on the sampled frames, on the shape of every
    run, on paths and on [invoke]. *)

From Stdlib Require Import ZArith List String Ascii Bool Lia Arith.
From Stdlib Require Import Sorted.
From Stdlib Require Import DecimalString DecimalZ DecimalPos DecimalN DecimalFacts.
From Stdlib Require Import SpecFloat.
Import ListNotations.

Local Open Scope string_scope.
Local Open Scope Z_scope.

(* ===================================================================== *)
(** ** Python string primitives *)
(* ===================================================================== *)

Module PyStr.

(** [s.rfind(c)]: index of the last occurrence of [c], or -1. *)
Fixpoint rfind (c : ascii) (s : string) : Z :=
  match s with
  | EmptyString => -1
  | String a rest =>
      let r := rfind c rest in
      if 0 <=? r then r + 1
      else if Ascii.eqb a c then 0 else -1
  end.

(** [s[:i]] for [0 <= i]. *)
Definition take (i : Z) (s : string) : string :=
  substring 0 (Z.to_nat i) s.

(** [s[i:]] for [0 <= i]. *)
Definition drop (i : Z) (s : string) : string :=
  substring (Z.to_nat i) (String.length s - Z.to_nat i) s.

(** [s.rstrip(c)]. *)
Fixpoint rstrip (c : ascii) (s : string) : string :=
  match s with
  | EmptyString => EmptyString
  | String a rest =>
      match rstrip c rest with
      | EmptyString => if Ascii.eqb a c then EmptyString else String a EmptyString
      | r => String a r
      end
  end.

(** [s == c * len(s)]. *)
Fixpoint all_char (c : ascii) (s : string) : bool :=
  match s with
  | EmptyString => true
  | String a rest => Ascii.eqb a c && all_char c rest
  end.

(** [s.startswith(c)] and [s.endswith(c)] for a one-character [c]. *)
Definition startswith (c : ascii) (s : string) : bool :=
  match s with
  | String a _ => Ascii.eqb a c
  | EmptyString => false
  end.

Fixpoint endswith (c : ascii) (s : string) : bool :=
  match s with
  | EmptyString => false
  | String a EmptyString => Ascii.eqb a c
  | String _ rest => endswith c rest
  end.

(** [s[i:i+1] != c]. *)
Definition char_at_differs (s : string) (i : Z) (c : ascii) : bool :=
  match String.get (Z.to_nat i) s with
  | Some a => negb (Ascii.eqb a c)
  | None => true
  end.

End PyStr.

(* ===================================================================== *)
(** ** [os.path] (posixpath) *)
(* ===================================================================== *)

Module OsPath.

Definition sep : ascii := "/"%char.
Definition extsep : ascii := "."%char.

(** [posixpath.split]:
<<
    i = p.rfind(sep) + 1
    head, tail = p[:i], p[i:]
    if head and head != sep*len(head):
        head = head.rstrip(sep)
    return head, tail
>> *)
Definition split (p : string) : string * string :=
  let i := PyStr.rfind sep p + 1 in
  let head := PyStr.take i p in
  let tail := PyStr.drop i p in
  let head :=
    if negb (String.eqb head EmptyString) && negb (PyStr.all_char sep head)
    then PyStr.rstrip sep head else head in
  (head, tail).

(** The scan of [genericpath._splitext] over the leading dots:
<<
    while filenameIndex < dotIndex:
        if p[filenameIndex:filenameIndex+1] != extsep:
            return p[:dotIndex], p[dotIndex:]
        filenameIndex += 1
>>
    [n] is the number of iterations left, [dotIndex - filenameIndex]. *)
Fixpoint splitext_scan (p : string) (filenameIndex : Z) (n : nat) : bool :=
  match n with
  | O => false
  | S n' =>
      if PyStr.char_at_differs p filenameIndex extsep then true
      else splitext_scan p (filenameIndex + 1) n'
  end.

(** [posixpath.splitext] (no [altsep] on POSIX). *)
Definition splitext (p : string) : string * string :=
  let sepIndex := PyStr.rfind sep p in
  let dotIndex := PyStr.rfind extsep p in
  if (sepIndex <? dotIndex)
     && splitext_scan p (sepIndex + 1) (Z.to_nat (dotIndex - (sepIndex + 1)))
  then (PyStr.take dotIndex p, PyStr.drop dotIndex p)
  else (p, EmptyString).

(** [posixpath.join(a, b)]. *)
Definition join (a b : string) : string :=
  if PyStr.startswith sep b then b
  else if String.eqb a EmptyString || PyStr.endswith sep a then a ++ b
  else a ++ String sep b.

End OsPath.

(* ===================================================================== *)
(** ** Integer formatting: ["%04d" % n] *)
(* ===================================================================== *)

Module PyFmt.

(** Left-pad a digit sequence with zeros up to [width] digits; longer
    sequences are left as they are (the conversion never truncates). *)
Definition zero_pad (width : nat) (d : Decimal.uint) : Decimal.uint :=
  Nat.iter (width - Decimal.nb_digits d) Decimal.D0 d.

(** ["%0<width>d" % n]: the sign counts in the width. *)
Definition fmt_0d (width : nat) (n : Z) : string :=
  match Z.to_int n with
  | Decimal.Pos d => NilEmpty.string_of_uint (zero_pad width d)
  | Decimal.Neg d => String "-" (NilEmpty.string_of_uint (zero_pad (width - 1) d))
  end.

Definition fmt_04d : Z -> string := fmt_0d 4.

(** ["%d" % n] for [0 <= n]. *)
Definition fmt_d (n : Z) : string := fmt_0d 0 n.

(** Reading a decimal rendering back: [int(s)], on optional sign and
    digits. *)
Definition parse_int (s : string) : option Z :=
  option_map Z.of_int (NilEmpty.int_of_string s).

End PyFmt.

(* ===================================================================== *)
(** ** Python floats: binary64, [int / float] and ["%f" % x] *)
(* ===================================================================== *)

Module PyFloat.

Definition prec : Z := 53.
Definition emax : Z := 1024.

(** A Python [float] is an IEEE 754 binary64 value. *)
Definition float : Type := spec_float.

(** The literal [25.0], that is 25 * 2^48 * 2^-48. *)
Definition float_25 : float := S754_finite false 7036874417766400 (-48).

(** Conversion of a Python [int] operand to [float]: correctly rounded
    (to nearest, ties to even); [None] stands for the [OverflowError]
    raised when the integer is too large for a binary64. *)
Definition of_int (n : Z) : option float :=
  match binary_normalize prec emax n 0 false with
  | S754_infinity _ => None
  | x => Some x
  end.

(** [n / y] for an [int] [n] and a [float] [y]: the integer is converted
    first, then the two floats are divided.  The only divisor in the
    program is the non-zero literal [25.0], so [ZeroDivisionError] is not
    modelled. *)
Definition int_truediv (n : Z) (y : float) : option float :=
  match of_int n with
  | Some x => Some (SFdiv prec emax x y)
  | None => None
  end.

(** [num / den] rounded to the nearest integer, ties to even
    ([0 <= num], [0 < den]). *)
Definition round_half_even (num den : Z) : Z :=
  let q := num / den in
  let r := num mod den in
  match 2 * r ?= den with
  | Lt => q
  | Gt => q + 1
  | Eq => if Z.even q then q else q + 1
  end.

(** The magnitude [m * 2^e], in millionths, correctly rounded. *)
Definition millionths (m : positive) (e : Z) : Z :=
  if 0 <=? e then Z.pos m * 2 ^ e * 1000000
  else round_half_even (Z.pos m * 1000000) (2 ^ (- e)).

Definition sign_str (s : bool) : string := if s then "-" else EmptyString.

(** The fixed-point rendering of a count of millionths: integer part,
    a point, and the fraction on six digits. *)
Definition fixed6 (r : Z) : string :=
  PyFmt.fmt_d (r / 1000000) ++ "." ++ PyFmt.fmt_0d 6 (r mod 1000000).

(** [all(len("%06d" % (40000 * r)) == 6 for r in range(k))]. *)
Definition all_six_digits (k : nat) : bool :=
  forallb (fun r => Nat.eqb (String.length (PyFmt.fmt_0d 6 (40000 * Z.of_nat r))) 6)
          (seq 0 k).

(** ["%f" % x]: precision 6, the exact binary value correctly rounded. *)
Definition fmt_f (x : float) : string :=
  match x with
  | S754_zero s => sign_str s ++ fixed6 0
  | S754_infinity s => sign_str s ++ "inf"
  | S754_nan => "nan"
  | S754_finite s m e => sign_str s ++ fixed6 (millionths m e)
  end.

End PyFloat.

(* ===================================================================== *)
(** ** Effects: events, outcomes and the monad *)
(* ===================================================================== *)

(** The keyword arguments of [bpy.ops.export_scene.x3d]. *)
Record x3d_args : Type := mk_x3d_args {
  x3d_filepath : string;
  check_existing : bool;
  use_selection : bool;
  use_apply_modifiers : bool;
  use_triangulate : bool;
  use_normals : bool;
  use_compress : bool;
  use_hierarchy : bool;
  name_decorations : bool;
  use_h3d : bool;
  axis_forward : string;
  axis_up : string;
  path_mode : string
}.

(** What the operator does to the outside world, in the order it does it.
    A call of [open], [write], [close] or [frame_set] is recorded when it
    returns: a call that raises leaves no event.  A call of the X3D
    exporter is recorded when it is made, whether it returns or raises. *)
Inductive event : Type :=
| EvOpen (path : string)          (* open(path, 'w') returned a handle *)
| EvWrite (text : string)         (* kanim_file.write(text) returned *)
| EvClose                         (* kanim_file.close() returned *)
| EvFrameSet (frame : Z)          (* context.scene.frame_set(frame) returned *)
| EvExportX3d (args : x3d_args).  (* bpy.ops.export_scene.x3d(...) was called *)

Definition trace : Type := list event.

(** Exceptions, tagged by the place that raises them; [exc] is the type of
    the exception values of the host and of the file system. *)
Inductive raised (exc : Type) : Type :=
| OverflowError                   (* int too large to convert to float *)
| OpenError (e : exc)             (* raised by open() *)
| ExportError (e : exc)           (* raised by bpy.ops.export_scene.x3d *)
| WriteError (e : exc)            (* raised by kanim_file.write() *)
| FrameSetError (e : exc)         (* raised by context.scene.frame_set() *)
| CloseError (e : exc).           (* raised by kanim_file.close() *)
Arguments OverflowError {exc}.
Arguments OpenError {exc} e.
Arguments ExportError {exc} e.
Arguments WriteError {exc} e.
Arguments FrameSetError {exc} e.
Arguments CloseError {exc} e.

Inductive outcome (exc A : Type) : Type :=
| Done (a : A)
| Raised (e : raised exc)
| OutOfFuel.
Arguments Done {exc A} a.
Arguments Raised {exc A} e.
Arguments OutOfFuel {exc A}.

(** A computation maps the trace so far to an outcome and the extended
    trace; the trace is kept when an exception is raised. *)
Definition M (exc A : Type) : Type := trace -> outcome exc A * trace.

Definition ret {exc A} (a : A) : M exc A := fun tr => (Done a, tr).

Definition bind {exc A B} (c : M exc A) (k : A -> M exc B) : M exc B :=
  fun tr =>
    match c tr with
    | (Done a, tr') => k a tr'
    | (Raised e, tr') => (Raised e, tr')
    | (OutOfFuel, tr') => (OutOfFuel, tr')
    end.

Definition raise {exc A} (e : raised exc) : M exc A := fun tr => (Raised e, tr).

Definition out_of_fuel {exc A} : M exc A := fun tr => (OutOfFuel, tr).

Definition emit {exc} (ev : event) : M exc unit := fun tr => (Done tt, (tr ++ [ev])%list).

Declare Scope kanim_scope.
Delimit Scope kanim_scope with kanim.
Notation "x <- c ;; k" := (bind c (fun x => k))
  (at level 61, c at next level, right associativity) : kanim_scope.
Notation "c ;; k" := (bind c (fun _ => k))
  (at level 61, right associativity) : kanim_scope.
Local Open Scope kanim_scope.

(** Observations on a trace. *)
Fixpoint file_text (tr : trace) : string :=
  match tr with
  | [] => EmptyString
  | EvWrite s :: rest => (s ++ file_text rest)%string
  | _ :: rest => file_text rest
  end.

Definition is_close (ev : event) : bool :=
  match ev with EvClose => true | _ => false end.

Definition is_open (ev : event) : bool :=
  match ev with EvOpen _ => true | _ => false end.

Definition file_closed (tr : trace) : bool := existsb is_close tr.

Definition file_opened (tr : trace) : bool := existsb is_open tr.

Fixpoint frames_set (tr : trace) : list Z :=
  match tr with
  | [] => []
  | EvFrameSet f :: rest => f :: frames_set rest
  | _ :: rest => frames_set rest
  end.

Fixpoint exported_paths (tr : trace) : list string :=
  match tr with
  | [] => []
  | EvExportX3d a :: rest => x3d_filepath a :: exported_paths rest
  | _ :: rest => exported_paths rest
  end.

(* ===================================================================== *)
(** ** The operator *)
(* ===================================================================== *)

(** [self]: the operator's properties. *)
Record operator : Type := mk_operator {
  filepath : string;
  frame_skip : Z
}.

(** [context.scene]: the frame range of the animation. *)
Record scene : Type := mk_scene {
  frame_start : Z;
  frame_end : Z
}.

Inductive status : Type := FINISHED.

Definition dquote : string := String "034"%char EmptyString.
Definition nl : string := String "010"%char EmptyString.

Definition xml_prolog : string :=
  "<?xml version=" ++ dquote ++ "1.0" ++ dquote ++ "?>" ++ nl.
Definition animation_open : string := "<animation>" ++ nl.
Definition animation_close : string := "</animation>" ++ nl.

(** ['  <frame file_name="%s" time="%f" />\n' % (name, time)] with the
    time already formatted. *)
Definition frame_line (name time : string) : string :=
  "  <frame file_name=" ++ dquote ++ name ++ dquote
    ++ " time=" ++ dquote ++ time ++ dquote ++ " />" ++ nl.

(** Lines 80-82: the name of the X3D file of a frame. *)
Definition frame_basename (self : operator) (frame : Z) : string :=
  let '(output_dir, output_basename) := OsPath.split (filepath self) in
  fst (OsPath.splitext output_basename) ++ PyFmt.fmt_04d frame ++ ".x3d".

(** Lines 90-94: the arguments of the call to the host's X3D exporter. *)
Definition frame_x3d_args (self : operator) (frame : Z) : x3d_args :=
  let '(output_dir, _) := OsPath.split (filepath self) in
  {| x3d_filepath := OsPath.join output_dir (frame_basename self frame);
     check_existing := false; use_selection := false;
     use_apply_modifiers := true; use_triangulate := false;
     use_normals := false; use_compress := false;
     use_hierarchy := true; name_decorations := true; use_h3d := false;
     axis_forward := "Z"; axis_up := "Y"; path_mode := "AUTO" |}.

(** The [time] attribute of a frame: ["%f" % ((frame-frame_start) / 25.0)],
    or [None] when the division raises [OverflowError]. *)
Definition frame_time (frame frame_start : Z) : option string :=
  match PyFloat.int_truediv (frame - frame_start) PyFloat.float_25 with
  | Some t => Some (PyFloat.fmt_f t)
  | None => None
  end.

(** The host and the file system are black boxes.  Each call the
    operator makes to them may raise, and whether it does may depend on
    all that happened before: [open_raises path] tells whether
    [open(path, 'w')] raises; [write_raises tr text], [frame_set_raises tr
    frame], [x3d_raises tr args] and [close_raises tr] tell whether
    [kanim_file.write(text)], [context.scene.frame_set(frame)], the X3D
    exporter called with [args] and [kanim_file.close()] raise when they
    are called after the history [tr]. *)
Record host (exc : Type) : Type := mk_host {
  open_raises : string -> option exc;
  write_raises : trace -> string -> option exc;
  frame_set_raises : trace -> Z -> option exc;
  x3d_raises : trace -> x3d_args -> option exc;
  close_raises : trace -> option exc
}.
Arguments mk_host {exc} _ _ _ _ _.
Arguments open_raises {exc} h path : rename.
Arguments write_raises {exc} h tr text : rename.
Arguments frame_set_raises {exc} h tr frame : rename.
Arguments x3d_raises {exc} h tr args : rename.
Arguments close_raises {exc} h tr : rename.

Section Operator.

Variable exc : Type.
Variable h : host exc.

(** [open(path, 'w')]. *)
Definition py_open (path : string) : M exc unit :=
  match open_raises h path with
  | Some e => raise (OpenError e)
  | None => emit (EvOpen path)
  end.

(** [kanim_file.write(text)]: it raises (the text cannot be encoded, the
    device fails) and nothing is recorded, or it returns. *)
Definition file_write (text : string) : M exc unit :=
  fun tr =>
    match write_raises h tr text with
    | Some e => (Raised (WriteError e), tr)
    | None => (Done tt, (tr ++ [EvWrite text])%list)
    end.

(** [kanim_file.close()]: it raises (the flush of what was written
    fails) and no close is recorded, or it returns. *)
Definition file_close : M exc unit :=
  fun tr =>
    match close_raises h tr with
    | Some e => (Raised (CloseError e), tr)
    | None => (Done tt, (tr ++ [EvClose])%list)
    end.

(** [context.scene.frame_set(frame)]: a call to the host, which raises
    or returns. *)
Definition scene_frame_set (frame : Z) : M exc unit :=
  fun tr =>
    match frame_set_raises h tr frame with
    | Some e => (Raised (FrameSetError e), tr)
    | None => (Done tt, (tr ++ [EvFrameSet frame])%list)
    end.

(** [bpy.ops.export_scene.x3d(...)]: the call is recorded, and it raises
    or returns. *)
Definition export_scene_x3d (args : x3d_args) : M exc unit :=
  fun tr =>
    match x3d_raises h tr args with
    | Some e => (Raised (ExportError e), (tr ++ [EvExportX3d args])%list)
    | None => (Done tt, (tr ++ [EvExportX3d args])%list)
    end.

(** [ExportKAnim.output_frame] (lines 67-94). *)
Definition output_frame (self : operator) (frame frame_start : Z) : M exc unit :=
  match frame_time frame frame_start with
  | None => raise OverflowError
  | Some time =>
      file_write (frame_line (frame_basename self frame) time) ;;
      scene_frame_set frame ;;
      export_scene_x3d (frame_x3d_args self frame)
  end.

(** The [while] loop of [execute] (lines 102-104), entered with the
    current value of [frame]; [fuel] bounds the number of iterations. *)
Fixpoint frame_loop (fuel : nat) (self : operator) (sc : scene) (frame : Z)
  : M exc unit :=
  if frame <? frame_end sc then
    match fuel with
    | O => out_of_fuel
    | S fuel' =>
        output_frame self frame (frame_start sc) ;;
        frame_loop fuel' self sc (frame + (1 + frame_skip self))
    end
  else ret tt.

(** [ExportKAnim.execute] (lines 96-112) run with a given loop bound. *)
Definition execute_fuel (fuel : nat) (self : operator) (sc : scene) : M exc status :=
  py_open (filepath self) ;;
  file_write xml_prolog ;;
  file_write animation_open ;;
  frame_loop fuel self sc (frame_start sc) ;;
  output_frame self (frame_end sc) (frame_start sc) ;;
  file_write animation_close ;;
  file_close ;;
  ret FINISHED.

(** With [frame_skip >= 0] (the property's declared minimum) the loop
    runs at most [frame_end - frame_start] times. *)
Definition loop_bound (sc : scene) : nat :=
  Z.to_nat (frame_end sc - frame_start sc).

Definition execute (self : operator) (sc : scene) : M exc status :=
  execute_fuel (loop_bound sc) self sc.

(** [output_frame] on each frame of a list, in order: what the loop and
    the final call of [execute] amount to once the frames are known. *)
Fixpoint output_frames (self : operator) (frame_start : Z) (frames : list Z)
  : M exc unit :=
  match frames with
  | [] => ret tt
  | frame :: rest =>
      output_frame self frame frame_start ;;
      output_frames self frame_start rest
  end.

(** Whether the call recorded as [ev] raises when made after [tr]. *)
Definition call_raises (tr : trace) (ev : event) : option exc :=
  match ev with
  | EvOpen path => open_raises h path
  | EvWrite text => write_raises h tr text
  | EvClose => close_raises h tr
  | EvFrameSet frame => frame_set_raises h tr frame
  | EvExportX3d args => x3d_raises h tr args
  end.

(** Every call of [evs], made in order after the history [tr0], returns. *)
Fixpoint calls_return (tr0 : trace) (evs : list event) : bool :=
  match evs with
  | [] => true
  | ev :: rest =>
      match call_raises tr0 ev with
      | None => calls_return (tr0 ++ [ev])%list rest
      | Some _ => false
      end
  end.

(** The index file, once opened, takes every write and closes; the
    cursor moves to every frame; the exporter exports every frame. *)
Definition file_works : Prop :=
  (forall tr text, write_raises h tr text = None) /\
  (forall tr, close_raises h tr = None).

Definition cursor_works : Prop :=
  forall tr frame, frame_set_raises h tr frame = None.

Definition exporter_works : Prop :=
  forall tr args, x3d_raises h tr args = None.

End Operator.

Arguments py_open {exc} h path _.
Arguments file_write {exc} h text _.
Arguments file_close {exc} h _.
Arguments scene_frame_set {exc} h frame _.
Arguments export_scene_x3d {exc} h args _.
Arguments output_frame {exc} h self frame frame_start _.
Arguments output_frames {exc} h self frame_start frames _.
Arguments frame_loop {exc} h fuel self sc frame _.
Arguments execute_fuel {exc} h fuel self sc _.
Arguments execute {exc} h self sc _.
Arguments call_raises {exc} h tr ev.
Arguments calls_return {exc} h tr0 evs.
Arguments file_works {exc} h.
Arguments cursor_works {exc} h.
Arguments exporter_works {exc} h.

(** The frames the loop of [execute] passes to [output_frame], in order:
    the control skeleton of lines 101-107 without the effects.  [None]
    when the bound is reached. *)
Fixpoint stride_frames (fuel : nat) (frame end_ skip : Z) : option (list Z) :=
  if frame <? end_ then
    match fuel with
    | O => None
    | S fuel' =>
        match stride_frames fuel' (frame + (1 + skip)) end_ skip with
        | Some l => Some (frame :: l)
        | None => None
        end
    end
  else Some [].

Definition sampled_frames_fuel (fuel : nat) (start end_ skip : Z) : option (list Z) :=
  match stride_frames fuel start end_ skip with
  | Some l => Some (l ++ [end_])%list
  | None => None
  end.

Definition sampled_frames (start end_ skip : Z) : option (list Z) :=
  sampled_frames_fuel (Z.to_nat (end_ - start)) start end_ skip.


(* ===================================================================== *)
(** ** The sampler as the spec words it *)
(* ===================================================================== *)

(** The stride of the contract: [start], [start + (skip+1)], ... up to the
    last value that does not exceed [end_]. *)
Definition spec_stride (start end_ skip : Z) : list Z :=
  map (fun i => start + Z.of_nat i * (skip + 1))
      (seq 0 (S (Z.to_nat ((end_ - start) / (skip + 1))))).

(** ... followed by [end_] unless the stride landed on it. *)
Definition spec_sampler (start end_ skip : Z) : list Z :=
  let l := spec_stride start end_ skip in
  if last l start =? end_ then l else (l ++ [end_])%list.

(** Number of iterations of the loop of [execute] entered at [frame], for
    a stride [skip + 1 > 0]. *)
Definition iterations (end_ skip frame : Z) : nat :=
  Z.to_nat ((end_ - frame + skip) / (skip + 1)).

(** The events of one complete [output_frame]: the index line, the cursor
    move, the exporter call.  [frame_pre_events] are those that precede the
    exporter call. *)
Definition frame_pre_events (self : operator) (start frame : Z) : trace :=
  match frame_time frame start with
  | Some time =>
      [EvWrite (frame_line (frame_basename self frame) time); EvFrameSet frame]
  | None => []
  end.

Definition frame_events (self : operator) (start frame : Z) : trace :=
  match frame_time frame start with
  | Some time =>
      [EvWrite (frame_line (frame_basename self frame) time); EvFrameSet frame;
       EvExportX3d (frame_x3d_args self frame)]
  | None => []
  end.

(** The events of an [output_frame] that stopped at the cursor move. *)
Definition frame_write_events (self : operator) (start frame : Z) : trace :=
  match frame_time frame start with
  | Some time => [EvWrite (frame_line (frame_basename self frame) time)]
  | None => []
  end.

(** The index line of a frame (empty when its time cannot be computed). *)
Definition index_line (self : operator) (start frame : Z) : string :=
  match frame_time frame start with
  | Some time => frame_line (frame_basename self frame) time
  | None => EmptyString
  end.

Definition prologue_events (self : operator) : trace :=
  [EvOpen (filepath self); EvWrite xml_prolog; EvWrite animation_open].

Definition epilogue_events : trace := [EvWrite animation_close; EvClose].

(** The trace of a run that exported every frame of [frames]. *)
Definition complete_trace (self : operator) (start : Z) (frames : list Z) : trace :=
  (prologue_events self ++ flat_map (frame_events self start) frames
     ++ epilogue_events)%list.

(** The trace of a run that stopped in the exporter call of [frame], after
    the frames [before]. *)
Definition aborted_trace (self : operator) (start : Z) (before : list Z) (frame : Z)
  : trace :=
  (prologue_events self ++ flat_map (frame_events self start) before
     ++ frame_events self start frame)%list.

(** The history the exporter sees when it is called for [frame]. *)
Definition history_at_export (self : operator) (start : Z) (before : list Z) (frame : Z)
  : trace :=
  (prologue_events self ++ flat_map (frame_events self start) before
     ++ frame_pre_events self start frame)%list.

Fixpoint concat_lines (lines : list string) : string :=
  match lines with
  | [] => EmptyString
  | l :: rest => l ++ concat_lines rest
  end.

(** A trace and an outcome that agree with the host: every recorded call
    returned, but for an exporter call that raised; that call is then the
    last event, and its exception the outcome. *)
Definition agrees_with_host {exc A : Type} (h : host exc) (out : outcome exc A)
    (tr : trace) : Prop :=
  match out with
  | Raised (ExportError e) =>
      exists tr0 args,
        tr = (tr0 ++ [EvExportX3d args])%list /\
        calls_return h [] tr0 = true /\
        x3d_raises h tr0 args = Some e
  | _ => calls_return h [] tr = true
  end.

(** Sample hosts for the concrete runs: exception values are strings. *)
Definition open_ok (path : string) : option string := None.

Definition x3d_ok (tr : trace) (args : x3d_args) : option string := None.

(** An exporter that fails with [RuntimeError] once the cursor is on [frame]. *)
Definition x3d_fails_on (frame : Z) (tr : trace) (args : x3d_args) : option string :=
  if last (frames_set tr) (frame - 1) =? frame then Some "RuntimeError" else None.

(** A host on which nothing raises, one whose exporter fails on [frame],
    one whose index file is on a full device (the writes are buffered and
    return, the flush of [close] raises), and one whose index file takes
    seven-bit text only. *)
Definition working_host : host string :=
  {| open_raises := open_ok;
     write_raises := fun _ _ => None;
     frame_set_raises := fun _ _ => None;
     x3d_raises := x3d_ok;
     close_raises := fun _ => None |}.

Definition failing_host (frame : Z) : host string :=
  {| open_raises := open_ok;
     write_raises := fun _ _ => None;
     frame_set_raises := fun _ _ => None;
     x3d_raises := x3d_fails_on frame;
     close_raises := fun _ => None |}.

Definition full_device_host : host string :=
  {| open_raises := open_ok;
     write_raises := fun _ _ => None;
     frame_set_raises := fun _ _ => None;
     x3d_raises := x3d_ok;
     close_raises := fun _ => Some "OSError" |}.

Fixpoint is_ascii (s : string) : bool :=
  match s with
  | EmptyString => true
  | String c rest => (nat_of_ascii c <? 128)%nat && is_ascii rest
  end.

Definition strict_encoding_host : host string :=
  {| open_raises := open_ok;
     write_raises :=
       fun _ text => if is_ascii text then None else Some "UnicodeEncodeError";
     frame_set_raises := fun _ _ => None;
     x3d_raises := x3d_ok;
     close_raises := fun _ => None |}.

Definition walk : operator := {| filepath := "/tmp/walk.kanim"; frame_skip := 4 |}.

(** Concrete runs of [walk]: frames 0 to 12 with a working exporter, the
    same with an exporter failing on frame 5, a reversed range, and
    (below) frames 0 to 12 on a full device. *)
Definition scene_0_12 : scene := {| frame_start := 0; frame_end := 12 |}.

Definition scene_5_3 : scene := {| frame_start := 5; frame_end := 3 |}.

Definition good_run : outcome string status * trace :=
  execute working_host walk scene_0_12 [].

Definition failing_run : outcome string status * trace :=
  execute (failing_host 5) walk scene_0_12 [].

Definition reversed_run : outcome string status * trace :=
  execute working_host walk scene_5_3 [].

Definition full_device_run : outcome string status * trace :=
  execute full_device_host walk scene_0_12 [].

(** An index file whose name has a byte above 127, and its run on the
    host that takes seven-bit text only. *)
Definition walk_latin1 : operator :=
  {| filepath := "/tmp/w" ++ String "228"%char "lk.kanim"; frame_skip := 4 |}.

Definition strict_encoding_run : outcome string status * trace :=
  execute strict_encoding_host walk_latin1 scene_0_12 [].

(** Events that are neither the opening nor the closing of the index
    file, and events that are an exporter call. *)
Definition is_body_event (ev : event) : bool :=
  negb (is_open ev) && negb (is_close ev).

Definition is_export (ev : event) : bool :=
  match ev with EvExportX3d _ => true | _ => false end.

(** The shape of the trace of a run in which [open] returned: the open,
    what was written of the two heading lines, the events of whole
    frames, and a tail without exporter call.  When the run finished the
    heading lines are both there, the tail is the epilogue and the last
    frame is [frame_end], above all the others. *)
Definition run_shape {exc : Type} (self : operator) (sc : scene)
    (out : outcome exc status) (tr : trace) : Prop :=
  exists hd fs tl,
    tr = (EvOpen (filepath self)
            :: hd ++ flat_map (frame_events self (frame_start sc)) fs ++ tl)%list /\
    Forall (fun f => frame_time f (frame_start sc) <> None) fs /\
    forallb is_body_event hd = true /\
    existsb is_export hd = false /\
    existsb is_export tl = false /\
    match out with
    | Done _ =>
        hd = [EvWrite xml_prolog; EvWrite animation_open] /\
        tl = epilogue_events /\
        exists before,
          fs = (before ++ [frame_end sc])%list /\
          Forall (fun f => f < frame_end sc) before
    | _ => forallb is_body_event tl = true
    end.

(** [c in s]. *)
Fixpoint has_char (c : ascii) (s : string) : bool :=
  match s with
  | EmptyString => false
  | String a rest => Ascii.eqb a c || has_char c rest
  end.

(** The result of [invoke]. *)
Inductive invoke_status : Type := RUNNING_MODAL.

(** What [invoke] asks of the window manager. *)
Inductive ui_event : Type :=
| EvFileselectAdd (self : operator).  (* context.window_manager.fileselect_add(self) *)

(** [ExportKAnim.invoke] (lines 114-127): [blend_filepath] is
    [context.blend_data.filepath]; the result is the operator with its
    [filepath] set, the calls made to the window manager, and the status. *)
Definition invoke (self : operator) (blend_filepath : string)
  : operator * list ui_event * invoke_status :=
  let self :=
    if String.eqb (filepath self) EmptyString then
      let blend_filepath :=
        if String.eqb blend_filepath EmptyString then "untitled"
        else fst (OsPath.splitext blend_filepath) in
      {| filepath := blend_filepath ++ ".kanim"; frame_skip := frame_skip self |}
    else self in
  (self, [EvFileselectAdd self], RUNNING_MODAL).

(** The shapes a directory part can have: empty, all slashes, or ending
    in something else than a slash. *)
Definition head_shape (h : string) : Prop :=
  h = EmptyString \/
  (PyStr.all_char OsPath.sep h = true /\ h <> EmptyString) \/
  (PyStr.all_char OsPath.sep h = false /\ PyStr.endswith OsPath.sep h = false).
(* ===================================================================== *)
(** ** Facts about the frame loop *)
(* ===================================================================== *)

Section StrideFacts.

Variables (end_ skip : Z).
Hypothesis skip_nonneg : 0 <= skip.

Lemma iterations_done frame : end_ <= frame -> iterations end_ skip frame = 0%nat.
Proof.
  intros H. unfold iterations.
  assert (D : (end_ - frame + skip) / (skip + 1) < 1)
    by (apply Z.div_lt_upper_bound; lia).
  lia.
Qed.

Lemma iterations_step frame :
  frame < end_ -> iterations end_ skip frame = S (iterations end_ skip (frame + (1 + skip))).
Proof.
  intros H. unfold iterations.
  replace (end_ - frame + skip) with (end_ - (frame + (1 + skip)) + skip + 1 * (skip + 1)) by lia.
  rewrite Z.div_add by lia.
  assert (0 <= (end_ - (frame + (1 + skip)) + skip) / (skip + 1))
    by (apply Z.div_pos; lia).
  lia.
Qed.

Lemma iterations_le frame : (iterations end_ skip frame <= Z.to_nat (end_ - frame))%nat.
Proof.
  unfold iterations.
  destruct (Z_lt_le_dec frame end_) as [H|H].
  - apply Z2Nat.inj_le.
    + apply Z.div_pos; lia.
    + lia.
    + apply Z.lt_succ_r. apply Z.div_lt_upper_bound; nia.
  - fold (iterations end_ skip frame). rewrite iterations_done; lia.
Qed.

(** With enough fuel the loop visits [frame], [frame + step], ... *)
Lemma stride_frames_closed fuel : forall frame,
  (iterations end_ skip frame <= fuel)%nat ->
  stride_frames fuel frame end_ skip =
    Some (map (fun i => frame + Z.of_nat i * (skip + 1))
              (seq 0 (iterations end_ skip frame))).
Proof.
  induction fuel as [|fuel IH]; intros frame Hf.
  - cbn [stride_frames]. destruct (frame <? end_) eqn:E.
    + apply Z.ltb_lt in E. rewrite iterations_step in Hf by assumption. lia.
    + apply Z.ltb_ge in E. now rewrite iterations_done.
  - cbn [stride_frames]. destruct (frame <? end_) eqn:E.
    + apply Z.ltb_lt in E.
      rewrite iterations_step in * by assumption.
      rewrite IH by lia.
      cbn [seq map]. f_equal. f_equal; [lia|].
      rewrite <- seq_shift, map_map.
      apply map_ext. intros i. lia.
    + apply Z.ltb_ge in E. now rewrite iterations_done.
Qed.

Lemma stride_frames_bounds fuel : forall frame l,
  stride_frames fuel frame end_ skip = Some l ->
  Forall (fun x => frame <= x < end_) l /\ StronglySorted Z.lt l.
Proof.
  induction fuel as [|fuel IH]; intros frame l; cbn [stride_frames].
  - destruct (frame <? end_); [discriminate|].
    intros [= <-]. split; constructor.
  - destruct (frame <? end_) eqn:E.
    + destruct (stride_frames fuel (frame + (1 + skip)) end_ skip) as [l'|] eqn:S';
        [|discriminate].
      intros [= <-]. apply Z.ltb_lt in E.
      destruct (IH _ _ S') as [B Srt]. split.
      * constructor; [lia|].
        eapply Forall_impl; [|exact B]. cbv beta. intros; lia.
      * constructor; [exact Srt|].
        eapply Forall_impl; [|exact B]. cbv beta. intros; lia.
    + intros [= <-]. split; constructor.
Qed.

End StrideFacts.

(** More fuel never changes a result. *)
Lemma stride_frames_more_fuel fuel : forall frame end_ skip l k,
  stride_frames fuel frame end_ skip = Some l ->
  stride_frames (fuel + k) frame end_ skip = Some l.
Proof.
  induction fuel as [|fuel IH]; intros frame end_ skip l k; cbn [stride_frames Nat.add].
  - destruct (frame <? end_) eqn:E; [discriminate|].
    intros [= <-]. destruct k; cbn [stride_frames Nat.add]; now rewrite E.
  - destruct (frame <? end_) eqn:E; [|trivial].
    destruct (stride_frames fuel (frame + (1 + skip)) end_ skip) as [l'|] eqn:S';
      [|discriminate].
    intros [= <-]. now rewrite (IH _ _ _ _ k S').
Qed.

(** With a negative stride the loop never leaves [frame < end_]: no amount
    of fuel is enough. *)
Lemma stride_frames_diverges fuel : forall frame end_ skip,
  skip < 0 -> frame < end_ -> stride_frames fuel frame end_ skip = None.
Proof.
  induction fuel as [|fuel IH]; intros frame end_ skip Hs Hf; cbn [stride_frames].
  - apply Z.ltb_lt in Hf. now rewrite Hf.
  - rewrite (proj2 (Z.ltb_lt _ _) Hf). rewrite IH; [reflexivity|lia|lia].
Qed.

Lemma sampled_frames_closed start end_ skip :
  0 <= skip ->
  sampled_frames start end_ skip =
    Some (map (fun i => start + Z.of_nat i * (skip + 1))
              (seq 0 (iterations end_ skip start)) ++ [end_])%list.
Proof.
  intros Hs. unfold sampled_frames, sampled_frames_fuel.
  rewrite stride_frames_closed; [reflexivity|assumption|].
  apply iterations_le; assumption.
Qed.

Lemma nth_map_seq {A : Type} (g : nat -> A) (n j : nat) (d : A) :
  (j < n)%nat -> nth j (map g (seq 0 n)) d = g j.
Proof.
  intros H.
  rewrite (nth_indep _ d (g 0%nat)) by (rewrite length_map, length_seq; exact H).
  rewrite map_nth, seq_nth by exact H. reflexivity.
Qed.

Lemma StronglySorted_snoc (l : list Z) (x : Z) :
  StronglySorted Z.lt l -> Forall (fun y => y < x) l ->
  StronglySorted Z.lt (l ++ [x]).
Proof.
  induction 1 as [|a l Hl IH Ha]; intros Hx; simpl.
  - constructor; constructor.
  - inversion Hx; subst. constructor.
    + apply IH; assumption.
    + apply Forall_app. split; [assumption|]. constructor; [assumption|constructor].
Qed.

Lemma StronglySorted_lt_NoDup (l : list Z) : StronglySorted Z.lt l -> NoDup l.
Proof.
  induction 1 as [|a l Hl IH Ha]; constructor; [|assumption].
  intros Hin. rewrite Forall_forall in Ha. specialize (Ha _ Hin). lia.
Qed.

Lemma sampled_frames_sorted start end_ skip l :
  0 <= skip ->
  sampled_frames start end_ skip = Some l -> StronglySorted Z.lt l.
Proof.
  intros Hs. unfold sampled_frames, sampled_frames_fuel.
  destruct (stride_frames _ start end_ skip) as [l'|] eqn:E; [|discriminate].
  intros [= <-].
  destruct (stride_frames_bounds _ _ Hs _ _ _ E) as [B S'].
  apply StronglySorted_snoc; [assumption|].
  eapply Forall_impl; [|exact B]. cbv beta. intros; lia.
Qed.

(** The quotient that counts the stride of the contract against the
    iteration count of the loop. *)
Lemma iterations_quotient start end_ skip :
  start <= end_ -> 0 <= skip ->
  let q := (end_ - start) / (skip + 1) in
  let r := (end_ - start) mod (skip + 1) in
  0 <= q /\
  (r = 0 -> iterations end_ skip start = Z.to_nat q) /\
  (r <> 0 -> iterations end_ skip start = S (Z.to_nat q)).
Proof.
  intros Hse Hs q r.
  assert (Hq : 0 <= q) by (apply Z.div_pos; lia).
  assert (Hr : 0 <= r < skip + 1) by (apply Z.mod_pos_bound; lia).
  assert (Hd : end_ - start = (skip + 1) * q + r) by (apply Z.div_mod; lia).
  split; [assumption|]. unfold iterations. split; intros H.
  - replace (end_ - start + skip) with (skip + q * (skip + 1)) by lia.
    rewrite Z.div_add by lia. rewrite Z.div_small by lia. reflexivity.
  - replace (end_ - start + skip) with ((r - 1) + (q + 1) * (skip + 1)) by lia.
    rewrite Z.div_add by lia. rewrite Z.div_small by lia.
    rewrite <- Z2Nat.inj_succ by lia. f_equal.
Qed.

Lemma spec_stride_last start end_ skip :
  start <= end_ -> 0 <= skip ->
  last (spec_stride start end_ skip) start =
    start + (end_ - start) / (skip + 1) * (skip + 1).
Proof.
  intros Hse Hs. unfold spec_stride.
  rewrite seq_S, map_app. cbn [map]. rewrite last_last. cbn [Nat.add].
  rewrite Z2Nat.id; [reflexivity|]. apply Z.div_pos; lia.
Qed.

(** The loop of [execute] computes the sampler of the contract. *)
Lemma sampled_frames_refines start end_ skip :
  start <= end_ -> 0 <= skip ->
  sampled_frames start end_ skip = Some (spec_sampler start end_ skip).
Proof.
  intros Hse Hs. rewrite sampled_frames_closed by assumption.
  f_equal. unfold spec_sampler.
  rewrite spec_stride_last by assumption.
  destruct (iterations_quotient start end_ skip Hse Hs) as (Hq & H0 & H1).
  assert (Hd : end_ - start =
               (skip + 1) * ((end_ - start) / (skip + 1)) + (end_ - start) mod (skip + 1))
    by (apply Z.div_mod; lia).
  destruct (Z.eqb_spec (start + (end_ - start) / (skip + 1) * (skip + 1)) end_) as [E|E].
  - rewrite H0 by lia. unfold spec_stride.
    rewrite seq_S, map_app. cbn [map Nat.add].
    rewrite Z2Nat.id by assumption. now rewrite E.
  - rewrite H1 by lia. reflexivity.
Qed.

Lemma spec_stride_le_end start end_ skip :
  start <= end_ -> 0 <= skip ->
  Forall (fun x => start <= x <= end_) (spec_stride start end_ skip).
Proof.
  intros Hse Hs. unfold spec_stride. apply Forall_forall. intros x Hx.
  apply in_map_iff in Hx. destruct Hx as (i & <- & Hi).
  apply in_seq in Hi.
  assert (Hq : 0 <= (end_ - start) / (skip + 1)) by (apply Z.div_pos; lia).
  assert (Hm : (skip + 1) * ((end_ - start) / (skip + 1)) <= end_ - start)
    by (apply Z.mul_div_le; lia).
  assert (Hi' : Z.of_nat i <= (end_ - start) / (skip + 1)) by lia.
  nia.
Qed.

Lemma spec_stride_next_exceeds start end_ skip :
  start <= end_ -> 0 <= skip ->
  end_ < start + Z.of_nat (List.length (spec_stride start end_ skip)) * (skip + 1).
Proof.
  intros Hse Hs. unfold spec_stride. rewrite length_map, length_seq.
  assert (Hq : 0 <= (end_ - start) / (skip + 1)) by (apply Z.div_pos; lia).
  rewrite Nat2Z.inj_succ, Z2Nat.id by assumption.
  assert (Hr : 0 <= (end_ - start) mod (skip + 1) < skip + 1)
    by (apply Z.mod_pos_bound; lia).
  assert (Hd : end_ - start =
               (skip + 1) * ((end_ - start) / (skip + 1)) + (end_ - start) mod (skip + 1))
    by (apply Z.div_mod; lia).
  nia.
Qed.

(** C1. The frame sampler meets its contract: for [start <= end] (and a
    skip count that is not negative) the loop of [execute] yields the list
    of the contract -- the stride [start], [start + (skip+1)], ... of all
    values not exceeding [end], then [end] unless the stride landed on it.
    That list begins at [start], is strictly increasing, has no duplicate
    and ends with [end]; the stride stays within [end] and its next value
    would exceed [end]. *)
Theorem sampler_contract (start end_ skip : Z) :
  start <= end_ -> 0 <= skip ->
  let l := spec_sampler start end_ skip in
  sampled_frames start end_ skip = Some l /\
  hd_error l = Some start /\
  StronglySorted Z.lt l /\
  NoDup l /\
  last l start = end_ /\
  Forall (fun x => start <= x <= end_) (spec_stride start end_ skip) /\
  (forall i, (S i < List.length (spec_stride start end_ skip))%nat ->
     nth (S i) l 0 = nth i l 0 + (skip + 1)) /\
  end_ < start + Z.of_nat (List.length (spec_stride start end_ skip)) * (skip + 1).
Proof.
  intros Hse Hs l.
  pose proof (sampled_frames_refines start end_ skip Hse Hs) as R.
  fold l in R.
  assert (Srt : StronglySorted Z.lt l) by (eapply sampled_frames_sorted; [exact Hs|exact R]).
  split; [exact R|].
  split.
  { unfold l, spec_sampler, spec_stride. rewrite <- cons_seq. cbn [map].
    destruct (_ =? _); cbn [hd_error app]; f_equal; lia. }
  split; [exact Srt|].
  split; [apply StronglySorted_lt_NoDup; exact Srt|].
  split.
  { unfold l, spec_sampler.
    destruct (Z.eqb_spec (last (spec_stride start end_ skip) start) end_) as [E|E].
    - exact E.
    - apply last_last. }
  split; [apply spec_stride_le_end; assumption|].
  split; [|apply spec_stride_next_exceeds; assumption].
  intros i Hi.
  assert (N : forall j, (j < List.length (spec_stride start end_ skip))%nat ->
              nth j l 0 = start + Z.of_nat j * (skip + 1)).
  { intros j Hj. unfold l, spec_sampler.
    assert (nth j (spec_stride start end_ skip) 0 = start + Z.of_nat j * (skip + 1)).
    { unfold spec_stride in *. rewrite length_map, length_seq in Hj.
      now rewrite nth_map_seq by exact Hj. }
    destruct (_ =? _); [assumption|].
    rewrite app_nth1 by exact Hj. assumption. }
  rewrite (N (S i)) by exact Hi. rewrite (N i) by lia. lia.
Qed.

(** C5. The three sampler test vectors of the spec. *)
Theorem sampler_test_vectors :
  sampled_frames 0 10 4 = Some [0; 5; 10] /\
  sampled_frames 0 12 4 = Some [0; 5; 10; 12] /\
  sampled_frames 5 5 0 = Some [5].
Proof.
  split; [|split]; vm_compute; reflexivity.
Qed.

Lemma sampler_reversed_range_frames (start end_ skip : Z) :
  end_ < start -> sampled_frames start end_ skip = Some [end_].
Proof.
  intros H. unfold sampled_frames, sampled_frames_fuel.
  replace (Z.to_nat (end_ - start)) with 0%nat by lia.
  cbn [stride_frames].
  destruct (Z.ltb_spec start end_); [lia|reflexivity].
Qed.

(** C6 (as the code has it). When [end < start] the loop body never runs:
    the sampled sequence is the single frame [end], whatever the skip. *)
Theorem sampler_reversed_range (start end_ skip : Z) :
  end_ < start -> sampled_frames start end_ skip = Some [end_].
Proof.
  intros H. unfold sampled_frames, sampled_frames_fuel.
  assert (F : Z.to_nat (end_ - start) = 0%nat) by lia.
  rewrite F. cbn [stride_frames].
  destruct (Z.ltb_spec start end_) as [L|L]; [lia|reflexivity].
Qed.

(** C6, refuted as stated: for start=5, end=3 the sequence is [3], not
    the decreasing pair [5; 3]. *)
Lemma sampler_reversed_range_not_pair :
  sampled_frames 5 3 4 = Some [3] /\ sampled_frames 5 3 4 <> Some [5; 3].
Proof.
  split; [vm_compute; reflexivity|vm_compute; discriminate].
Qed.

(* ===================================================================== *)
(** ** Facts about file names *)
(* ===================================================================== *)

Lemma string_app_inv_head (a x y : string) :
  (a ++ x)%string = (a ++ y)%string -> x = y.
Proof.
  induction a as [|c a IH]; cbn [append]; intros H; [exact H|].
  injection H as H. exact (IH H).
Qed.

Lemma string_length_app (x y : string) :
  String.length (x ++ y) = (String.length x + String.length y)%nat.
Proof. induction x as [|c x IH]; cbn; [reflexivity|now rewrite IH]. Qed.

Lemma string_app_inv_tail (x : string) : forall y c : string,
  (x ++ c)%string = (y ++ c)%string -> x = y.
Proof.
  induction x as [|a x IH]; intros [|b y] c H; cbn [append] in H.
  - reflexivity.
  - apply (f_equal String.length) in H. cbn [String.length] in H.
    rewrite string_length_app in H. lia.
  - apply (f_equal String.length) in H. cbn [String.length] in H.
    rewrite string_length_app in H. lia.
  - injection H as -> H. f_equal. exact (IH _ _ H).
Qed.

Module PyFmtFacts.

Import PyFmt.

Lemma of_uint_zero_pad (width : nat) (d : Decimal.uint) :
  Z.of_uint (zero_pad width d) = Z.of_uint d.
Proof.
  unfold zero_pad. induction (width - Decimal.nb_digits d)%nat as [|k IH].
  - reflexivity.
  - cbn [Nat.iter]. rewrite <- IH. reflexivity.
Qed.

(** A rendering reads back as the number rendered: padding adds zeros in
    front and nothing is ever cut. *)
Lemma parse_fmt_0d (width : nat) (n : Z) : parse_int (fmt_0d width n) = Some n.
Proof.
  unfold parse_int, fmt_0d.
  pose proof (DecimalZ.of_to n) as E.
  destruct (Z.to_int n) as [d|d].
  - change (NilEmpty.string_of_uint (zero_pad width d))
      with (NilEmpty.string_of_int (Decimal.Pos (zero_pad width d))).
    rewrite NilEmpty.isi. cbn [option_map Z.of_int].
    rewrite of_uint_zero_pad. cbn [Z.of_int] in E. now rewrite E.
  - change (String "-" (NilEmpty.string_of_uint (zero_pad (width - 1) d)))
      with (NilEmpty.string_of_int (Decimal.Neg (zero_pad (width - 1) d))).
    rewrite NilEmpty.isi. cbn [option_map Z.of_int].
    rewrite of_uint_zero_pad. cbn [Z.of_int] in E. now rewrite E.
Qed.

Lemma fmt_0d_inj (width : nat) (n m : Z) : fmt_0d width n = fmt_0d width m -> n = m.
Proof.
  intros H. apply (f_equal parse_int) in H.
  rewrite !parse_fmt_0d in H. now injection H.
Qed.

Lemma string_of_uint_length (d : Decimal.uint) :
  String.length (NilEmpty.string_of_uint d) = Decimal.nb_digits d.
Proof. induction d; cbn; congruence. Qed.

Lemma zero_pad_digits (width : nat) (d : Decimal.uint) :
  Decimal.nb_digits (zero_pad width d) = Nat.max width (Decimal.nb_digits d).
Proof. unfold zero_pad. rewrite DecimalFacts.nb_digits_iter_D0. lia. Qed.

(** Reading a digit sequence after an accumulator shifts the accumulator
    by one decimal place per digit. *)
Lemma of_uint_acc_lower (d : Decimal.uint) : forall acc : positive,
  Z.pos acc * 10 ^ Z.of_nat (Decimal.nb_digits d) <= Z.pos (Pos.of_uint_acc d acc).
Proof.
  induction d as [|d IH|d IH|d IH|d IH|d IH|d IH|d IH|d IH|d IH|d IH];
    intros acc; cbn [Pos.of_uint_acc Decimal.nb_digits];
    [cbn; lia| | | | | | | | | |];
    rewrite Nat2Z.inj_succ, Z.pow_succ_r by lia;
    (eapply Z.le_trans; [|apply IH]);
    (assert (0 < 10 ^ Z.of_nat (Decimal.nb_digits d))
       by (apply Z.pow_pos_nonneg; lia));
    nia.
Qed.

(** A numeral of [k] significant digits is at least 10^(k-1). *)
Lemma of_uint_lower (d : Decimal.uint) :
  Decimal.nzhead d <> Decimal.Nil ->
  10 ^ (Z.of_nat (Decimal.nb_digits (Decimal.nzhead d)) - 1) <= Z.of_N (Pos.of_uint d).
Proof.
  induction d as [|d IH|d IH|d IH|d IH|d IH|d IH|d IH|d IH|d IH|d IH];
    intros H; cbn [Decimal.nzhead Pos.of_uint Decimal.nb_digits] in *;
    [congruence|exact (IH H)| | | | | | | | |];
    rewrite Nat2Z.inj_succ;
    replace (Z.succ (Z.of_nat (Decimal.nb_digits d)) - 1)
      with (Z.of_nat (Decimal.nb_digits d)) by lia;
    cbn [Z.of_N];
    (eapply Z.le_trans; [|apply of_uint_acc_lower]);
    (assert (0 < 10 ^ Z.of_nat (Decimal.nb_digits d))
       by (apply Z.pow_pos_nonneg; lia));
    lia.
Qed.

Lemma to_uint_lower (p : positive) :
  10 ^ (Z.of_nat (Decimal.nb_digits (Pos.to_uint p)) - 1) <= Z.pos p.
Proof.
  pose proof (DecimalPos.Unsigned.to_of (Pos.to_uint p)) as U.
  rewrite DecimalPos.Unsigned.of_to in U. cbn [N.to_uint] in U.
  assert (N : Decimal.nzhead (Pos.to_uint p) = Pos.to_uint p).
  { unfold Decimal.unorm in U.
    destruct (Decimal.nzhead (Pos.to_uint p)) eqn:E; try (symmetry; exact U).
    exfalso. exact (DecimalPos.Unsigned.to_uint_nonzero p U). }
  pose proof (of_uint_lower (Pos.to_uint p)) as L.
  rewrite N, DecimalPos.Unsigned.of_to in L. cbn [Z.of_N] in L.
  apply L. apply DecimalPos.Unsigned.to_uint_nonnil.
Qed.

Lemma fmt_04d_length (n : Z) :
  0 <= n <= 9999 -> String.length (fmt_04d n) = 4%nat.
Proof.
  intros H. unfold fmt_04d, fmt_0d.
  destruct n as [|p|p]; [reflexivity| |lia].
  cbn [Z.to_int]. rewrite string_of_uint_length, zero_pad_digits.
  pose proof (to_uint_lower p) as L.
  destruct (le_gt_dec (Decimal.nb_digits (Pos.to_uint p)) 4) as [G|G]; [lia|].
  exfalso.
  assert (10 ^ 4 <= 10 ^ (Z.of_nat (Decimal.nb_digits (Pos.to_uint p)) - 1))
    by (apply Z.pow_le_mono_r; lia).
  lia.
Qed.

End PyFmtFacts.

(** C3 (as the code has it). The file name of a frame is the base name of
    the export path without its extension, then the frame number, then
    [".x3d"].  The frame number is rendered by ["%04d"]: on exactly four
    digits for frames 0 to 9999, and for every frame as a numeral that
    reads back as that frame (nothing is cut off).  So distinct frames
    always get distinct file names, also from 10000 on. *)
Theorem frame_basename_injective (self : operator) :
  (forall f,
     frame_basename self f =
       (fst (OsPath.splitext (snd (OsPath.split (filepath self))))
          ++ PyFmt.fmt_04d f ++ ".x3d")%string) /\
  (forall f, 0 <= f <= 9999 -> String.length (PyFmt.fmt_04d f) = 4%nat) /\
  (forall f, PyFmt.parse_int (PyFmt.fmt_04d f) = Some f) /\
  (forall f1 f2, frame_basename self f1 = frame_basename self f2 -> f1 = f2).
Proof.
  assert (N : forall f,
     frame_basename self f =
       (fst (OsPath.splitext (snd (OsPath.split (filepath self))))
          ++ PyFmt.fmt_04d f ++ ".x3d")%string).
  { intros f. unfold frame_basename.
    destruct (OsPath.split (filepath self)) as [dir base]. reflexivity. }
  split; [exact N|].
  split; [exact PyFmtFacts.fmt_04d_length|].
  split; [exact (PyFmtFacts.parse_fmt_0d 4)|].
  intros f1 f2 H. rewrite !N in H.
  apply string_app_inv_head, string_app_inv_tail in H.
  exact (PyFmtFacts.fmt_0d_inj 4 _ _ H).
Qed.

(** C3, refuted as stated: no two distinct frames from 10000 on share a
    file name. *)
Lemma frame_basename_no_collision :
  ~ (exists self f1 f2,
       10000 <= f1 /\ 10000 <= f2 /\ f1 <> f2 /\
       frame_basename self f1 = frame_basename self f2).
Proof.
  intros (self & f1 & f2 & _ & _ & D & E).
  apply D.
  assert (N : forall f,
     frame_basename self f =
       (fst (OsPath.splitext (snd (OsPath.split (filepath self))))
          ++ PyFmt.fmt_04d f ++ ".x3d")%string).
  { intros f. unfold frame_basename.
    destruct (OsPath.split (filepath self)) as [dir base]. reflexivity. }
  rewrite !N in E.
  apply string_app_inv_head, string_app_inv_tail in E.
  exact (PyFmtFacts.fmt_0d_inj 4 _ _ E).
Qed.

(* ===================================================================== *)
(** ** Facts about runs of the operator *)
(* ===================================================================== *)

Local Open Scope list_scope.

Lemma string_app_assoc (a b c : string) : ((a ++ b) ++ c = a ++ (b ++ c))%string.
Proof. induction a as [|x a IH]; simpl; [reflexivity|now rewrite IH]. Qed.

Lemma file_text_app (t1 t2 : trace) :
  file_text (t1 ++ t2) = (file_text t1 ++ file_text t2)%string.
Proof.
  induction t1 as [|ev t1 IH]; simpl; [reflexivity|].
  destruct ev; simpl; rewrite IH; try reflexivity.
  now rewrite string_app_assoc.
Qed.

Lemma string_app_nil_r (a : string) : (a ++ EmptyString)%string = a.
Proof. induction a as [|x a IH]; simpl; [reflexivity|now rewrite IH]. Qed.

Lemma file_text_frame_events self start frame :
  file_text (frame_events self start frame) = index_line self start frame.
Proof.
  unfold frame_events, index_line.
  destruct (frame_time frame start); cbn [file_text]; [apply string_app_nil_r|reflexivity].
Qed.

Lemma file_text_frames self start frames :
  file_text (flat_map (frame_events self start) frames) =
    concat_lines (map (index_line self start) frames).
Proof.
  induction frames as [|f frames IH]; simpl; [reflexivity|].
  now rewrite file_text_app, file_text_frame_events, IH.
Qed.

Lemma file_closed_app (t1 t2 : trace) :
  file_closed (t1 ++ t2) = file_closed t1 || file_closed t2.
Proof. unfold file_closed. apply existsb_app. Qed.

Lemma file_closed_frame_events self start frame :
  file_closed (frame_events self start frame) = false.
Proof. unfold frame_events. destruct (frame_time frame start); reflexivity. Qed.

Lemma file_closed_frames self start frames :
  file_closed (flat_map (frame_events self start) frames) = false.
Proof.
  induction frames as [|f frames IH]; simpl; [reflexivity|].
  now rewrite file_closed_app, file_closed_frame_events, IH.
Qed.

Lemma frames_set_app (t1 t2 : trace) :
  frames_set (t1 ++ t2) = frames_set t1 ++ frames_set t2.
Proof.
  induction t1 as [|ev t1 IH]; simpl; [reflexivity|].
  destruct ev; simpl; now rewrite IH.
Qed.

Lemma exported_paths_app (t1 t2 : trace) :
  exported_paths (t1 ++ t2) = exported_paths t1 ++ exported_paths t2.
Proof.
  induction t1 as [|ev t1 IH]; simpl; [reflexivity|].
  destruct ev; simpl; now rewrite IH.
Qed.

Lemma frames_set_frames self start frames :
  Forall (fun f => frame_time f start <> None) frames ->
  frames_set (flat_map (frame_events self start) frames) = frames.
Proof.
  induction 1 as [|f frames Hf _ IH]; [reflexivity|].
  cbn [flat_map]. rewrite frames_set_app, IH. unfold frame_events.
  destruct (frame_time f start); [reflexivity|congruence].
Qed.

Lemma exported_paths_frames self start frames :
  Forall (fun f => frame_time f start <> None) frames ->
  exported_paths (flat_map (frame_events self start) frames) =
    map (fun f => x3d_filepath (frame_x3d_args self f)) frames.
Proof.
  induction 1 as [|f frames Hf _ IH]; [reflexivity|].
  cbn [flat_map map]. rewrite exported_paths_app, IH. unfold frame_events.
  destruct (frame_time f start); [reflexivity|congruence].
Qed.

Lemma flat_map_snoc {A B : Type} (f : A -> list B) (l : list A) (x : A) :
  flat_map f (l ++ [x]) = flat_map f l ++ f x.
Proof. rewrite flat_map_app. cbn [flat_map]. now rewrite List.app_nil_r. Qed.

Lemma file_closed_frame_write_events self start frame :
  file_closed (frame_write_events self start frame) = false.
Proof. unfold frame_write_events. destruct (frame_time frame start); reflexivity. Qed.

Lemma frame_pre_events_write self start frame :
  frame_pre_events self start frame =
    frame_write_events self start frame
      ++ match frame_time frame start with Some _ => [EvFrameSet frame] | None => [] end.
Proof.
  unfold frame_pre_events, frame_write_events.
  destruct (frame_time frame start); reflexivity.
Qed.

Lemma frame_events_pre self start frame :
  frame_time frame start <> None ->
  frame_events self start frame =
    frame_pre_events self start frame ++ [EvExportX3d (frame_x3d_args self frame)].
Proof.
  unfold frame_events, frame_pre_events.
  destruct (frame_time frame start); [reflexivity|congruence].
Qed.

Section RunFacts.

Variable exc : Type.
Variable h : host exc.

(** One call of [output_frame], spelled out. *)
Lemma output_frame_run self frame start tr :
  output_frame h self frame start tr =
    match frame_time frame start with
    | None => (Raised OverflowError, tr)
    | Some _ =>
        match write_raises h tr (index_line self start frame) with
        | Some e => (Raised (WriteError e), tr)
        | None =>
            match frame_set_raises h (tr ++ frame_write_events self start frame)
                                   frame with
            | Some e =>
                (Raised (FrameSetError e), tr ++ frame_write_events self start frame)
            | None =>
                match x3d_raises h (tr ++ frame_pre_events self start frame)
                                 (frame_x3d_args self frame) with
                | Some e => (Raised (ExportError e), tr ++ frame_events self start frame)
                | None => (Done tt, tr ++ frame_events self start frame)
                end
            end
        end
    end.
Proof.
  unfold output_frame, frame_pre_events, frame_events, frame_write_events, index_line.
  destruct (frame_time frame start) as [t|]; [|reflexivity].
  unfold bind, file_write, scene_frame_set, export_scene_x3d.
  destruct (write_raises h tr _); [reflexivity|].
  destruct (frame_set_raises h _ frame); [reflexivity|].
  rewrite <- !List.app_assoc. cbn [app].
  destruct (x3d_raises h _ _); reflexivity.
Qed.

Lemma output_frames_app self start l1 l2 tr :
  output_frames h self start (l1 ++ l2) tr =
    match output_frames h self start l1 tr with
    | (Done _, tr') => output_frames h self start l2 tr'
    | (Raised e, tr') => (Raised e, tr')
    | (OutOfFuel, tr') => (OutOfFuel, tr')
    end.
Proof.
  revert tr. induction l1 as [|f l1 IH]; intros tr.
  - reflexivity.
  - cbn [app output_frames]. unfold bind.
    destruct (output_frame h self f start tr) as [[[]|e|] tr1];
      [apply IH|reflexivity|reflexivity].
Qed.

(** The loop is [output_frame] on the frames of its control skeleton. *)
Lemma frame_loop_frames fuel : forall self sc frame l,
  stride_frames fuel frame (frame_end sc) (frame_skip self) = Some l ->
  forall tr,
    frame_loop h fuel self sc frame tr =
    output_frames h self (frame_start sc) l tr.
Proof.
  induction fuel as [|fuel IH]; intros self sc frame l;
    cbn [stride_frames frame_loop].
  - destruct (frame <? frame_end sc); [discriminate|].
    intros [= <-] tr. reflexivity.
  - destruct (frame <? frame_end sc).
    + destruct (stride_frames fuel _ _ _) as [l'|] eqn:E; [|discriminate].
      intros [= <-] tr. cbn [output_frames]. unfold bind.
      destruct (output_frame h self frame (frame_start sc) tr)
        as [[[]|e|] tr1]; [|reflexivity|reflexivity].
      apply IH. exact E.
    + intros [= <-] tr. reflexivity.
Qed.

(** A loop that completes had fuel enough. *)
Lemma frame_loop_done fuel : forall self sc frame tr tr',
  frame_loop h fuel self sc frame tr = (Done tt, tr') ->
  exists l, stride_frames fuel frame (frame_end sc) (frame_skip self) = Some l.
Proof.
  induction fuel as [|fuel IH]; intros self sc frame tr tr';
    cbn [stride_frames frame_loop].
  - destruct (frame <? frame_end sc); [discriminate|]. intros _. now exists [].
  - destruct (frame <? frame_end sc); [|intros _; now exists []].
    unfold bind.
    destruct (output_frame h self frame (frame_start sc) tr)
      as [[[]|e|] tr1]; [|discriminate|discriminate].
    intros H. destruct (IH _ _ _ _ _ H) as [l' ->]. now eexists.
Qed.

(** Every way a sequence of [output_frame] calls can end: it is done, or
    it stopped in one frame, at the division, the write, the cursor move
    or the exporter call. *)
Lemma output_frames_inv self start frames : forall tr0 out tr,
  output_frames h self start frames tr0 = (out, tr) ->
  match out with
  | Done _ =>
      tr = tr0 ++ flat_map (frame_events self start) frames /\
      Forall (fun f => frame_time f start <> None) frames
  | Raised r =>
      exists before frame after,
        frames = before ++ frame :: after /\
        Forall (fun f => frame_time f start <> None) before /\
        match r with
        | OverflowError =>
            frame_time frame start = None /\
            tr = tr0 ++ flat_map (frame_events self start) before
        | WriteError e =>
            frame_time frame start <> None /\
            tr = tr0 ++ flat_map (frame_events self start) before /\
            write_raises h tr (index_line self start frame) = Some e
        | FrameSetError e =>
            frame_time frame start <> None /\
            tr = tr0 ++ flat_map (frame_events self start) before
                     ++ frame_write_events self start frame /\
            frame_set_raises h tr frame = Some e
        | ExportError e =>
            frame_time frame start <> None /\
            tr = tr0 ++ flat_map (frame_events self start) before
                     ++ frame_events self start frame /\
            x3d_raises h (tr0 ++ flat_map (frame_events self start) before
                              ++ frame_pre_events self start frame)
                       (frame_x3d_args self frame) = Some e
        | OpenError _ => False
        | CloseError _ => False
        end
  | OutOfFuel => False
  end.
Proof.
  induction frames as [|f frames IH]; intros tr0 out tr; cbn [output_frames].
  - intros [= <- <-]. split; [now rewrite List.app_nil_r|constructor].
  - unfold bind. rewrite output_frame_run.
    destruct (frame_time f start) as [t|] eqn:T.
    2:{ intros [= <- <-]. exists [], f, frames. cbn [app flat_map].
        repeat split; [constructor|assumption|now rewrite List.app_nil_r]. }
    assert (Tf : frame_time f start <> None) by congruence.
    destruct (write_raises h tr0 _) as [e|] eqn:W.
    { intros [= <- <-]. exists [], f, frames. cbn [app flat_map].
      rewrite List.app_nil_r. repeat split; [constructor|exact Tf|exact W]. }
    destruct (frame_set_raises h _ f) as [e|] eqn:C.
    { intros [= <- <-]. exists [], f, frames. cbn [app flat_map].
      repeat split; [constructor|exact Tf|exact C]. }
    destruct (x3d_raises h _ _) as [e|] eqn:X.
    { intros [= <- <-]. exists [], f, frames. cbn [app flat_map].
      repeat split; [constructor|exact Tf|exact X]. }
    intros H. apply IH in H.
    destruct out as [[]|r|]; [| |contradiction].
    + destruct H as [-> F]. split.
      * cbn [flat_map]. now rewrite List.app_assoc.
      * constructor; assumption.
    + destruct H as (b & g & a & -> & F & H).
      exists (f :: b), g, a. cbn [app flat_map].
      split; [reflexivity|]. split; [constructor; assumption|].
      rewrite <- !List.app_assoc in H.
      destruct r as [|e|e|e|e|e]; rewrite <- ?List.app_assoc; exact H.
Qed.

(** [execute] once the loop's frames are known. *)
Lemma execute_frames self sc l :
  stride_frames (loop_bound sc) (frame_start sc) (frame_end sc) (frame_skip self)
    = Some l ->
  execute h self sc [] =
    (py_open h (filepath self) ;;
     file_write h xml_prolog ;;
     file_write h animation_open ;;
     output_frames h self (frame_start sc) (l ++ [frame_end sc]) ;;
     file_write h animation_close ;;
     file_close h ;;
     ret FINISHED) [].
Proof.
  intros S'. unfold execute, execute_fuel. unfold bind.
  destruct (py_open h (filepath self) []) as [[[]|e|] t1]; [|reflexivity|reflexivity].
  destruct (file_write h xml_prolog t1) as [[[]|e|] t2]; [|reflexivity|reflexivity].
  destruct (file_write h animation_open t2) as [[[]|e|] t3];
    [|reflexivity|reflexivity].
  rewrite (frame_loop_frames _ _ _ _ _ S'), output_frames_app.
  destruct (output_frames h self (frame_start sc) l t3) as [[[]|e|] t4];
    [|reflexivity|reflexivity].
  cbn [output_frames]. unfold bind, ret.
  destruct (output_frame h self (frame_end sc) (frame_start sc) t4)
    as [[[]|e|] t5]; reflexivity.
Qed.

(** Every way a run of [execute] can end, once the sampled frames are
    known.  The trace of a run that stopped in a write, a cursor move or
    the close ends right before the call that raised. *)
Lemma execute_inv self sc frames out tr :
  sampled_frames (frame_start sc) (frame_end sc) (frame_skip self) = Some frames ->
  execute h self sc [] = (out, tr) ->
  match out with
  | Done _ =>
      open_raises h (filepath self) = None /\
      tr = complete_trace self (frame_start sc) frames /\
      Forall (fun f => frame_time f (frame_start sc) <> None) frames
  | Raised (OpenError e) =>
      open_raises h (filepath self) = Some e /\ tr = []
  | Raised (ExportError e) =>
      open_raises h (filepath self) = None /\
      exists before frame after,
        frames = before ++ frame :: after /\
        Forall (fun f => frame_time f (frame_start sc) <> None) (before ++ [frame]) /\
        tr = aborted_trace self (frame_start sc) before frame /\
        x3d_raises h (history_at_export self (frame_start sc) before frame)
                   (frame_x3d_args self frame) = Some e
  | Raised OverflowError =>
      open_raises h (filepath self) = None /\
      exists before frame after,
        frames = before ++ frame :: after /\
        Forall (fun f => frame_time f (frame_start sc) <> None) before /\
        frame_time frame (frame_start sc) = None /\
        tr = prologue_events self ++ flat_map (frame_events self (frame_start sc)) before
  | Raised (WriteError e) =>
      open_raises h (filepath self) = None /\
      exists text, write_raises h tr text = Some e
  | Raised (FrameSetError e) =>
      open_raises h (filepath self) = None /\
      exists before frame after,
        frames = before ++ frame :: after /\
        Forall (fun f => frame_time f (frame_start sc) <> None) (before ++ [frame]) /\
        tr = prologue_events self ++ flat_map (frame_events self (frame_start sc)) before
               ++ frame_write_events self (frame_start sc) frame /\
        frame_set_raises h tr frame = Some e
  | Raised (CloseError e) =>
      open_raises h (filepath self) = None /\
      Forall (fun f => frame_time f (frame_start sc) <> None) frames /\
      tr = prologue_events self ++ flat_map (frame_events self (frame_start sc)) frames
             ++ [EvWrite animation_close] /\
      close_raises h tr = Some e
  | OutOfFuel => False
  end.
Proof.
  unfold sampled_frames, sampled_frames_fuel. fold (loop_bound sc).
  destruct (stride_frames _ _ _ _) as [l|] eqn:E; [|discriminate].
  intros [= <-]. rewrite (execute_frames _ _ _ E).
  unfold bind at 1. unfold py_open.
  destruct (open_raises h (filepath self)) as [e|].
  { intros [= <- <-]. now split. }
  unfold emit. cbn [app].
  unfold bind at 1. unfold file_write at 1.
  destruct (write_raises h _ xml_prolog) as [e|] eqn:W1.
  { intros [= <- <-]. split; [reflexivity|]. now exists xml_prolog. }
  cbn [app]. unfold bind at 1. unfold file_write at 1.
  destruct (write_raises h _ animation_open) as [e|] eqn:W2.
  { intros [= <- <-]. split; [reflexivity|]. now exists animation_open. }
  cbn [app]. fold (prologue_events self). unfold bind at 1.
  destruct (output_frames _ _ _ _ _) as [o tr1] eqn:R.
  apply output_frames_inv in R.
  destruct o as [[]|r|]; [| |contradiction].
  - destruct R as [-> F]. unfold bind at 1. unfold file_write at 1.
    destruct (write_raises h _ animation_close) as [e|] eqn:W3.
    { intros [= <- <-]. split; [reflexivity|]. now exists animation_close. }
    unfold bind, file_close, ret.
    destruct (close_raises h _) as [e|] eqn:C.
    + intros [= <- <-]. split; [reflexivity|]. split; [exact F|].
      rewrite <- !List.app_assoc in C. split; [reflexivity|exact C].
    + intros [= <- <-]. split; [reflexivity|]. split; [|exact F].
      unfold complete_trace, epilogue_events.
      rewrite <- !List.app_assoc. reflexivity.
  - intros [= <- <-]. destruct R as (b & g & a & -> & F & R).
    destruct r as [|e|e|e|e|e]; try contradiction; (split; [reflexivity|]).
    + destruct R as [T ->]. exists b, g, a. repeat split; assumption.
    + destruct R as (T & -> & X). exists b, g, a.
      split; [reflexivity|]. split; [|split; [reflexivity|exact X]].
      apply Forall_app. split; [exact F|]. constructor; [exact T|constructor].
    + destruct R as (T & -> & W). now exists (index_line self (frame_start sc) g).
    + destruct R as (T & -> & C). exists b, g, a.
      split; [reflexivity|]. split; [|split; [reflexivity|exact C]].
      apply Forall_app. split; [exact F|]. constructor; [exact T|constructor].
Qed.

End RunFacts.

(* ===================================================================== *)
(** ** The index file: opened, written, closed *)
(* ===================================================================== *)

Lemma file_opened_app (t1 t2 : trace) :
  file_opened (t1 ++ t2) = file_opened t1 || file_opened t2.
Proof. unfold file_opened. apply existsb_app. Qed.

Lemma file_opened_frame_events self start frame :
  file_opened (frame_events self start frame) = false.
Proof. unfold frame_events. destruct (frame_time frame start); reflexivity. Qed.

Lemma animation_close_not_frame_line name time :
  frame_line name time <> animation_close.
Proof. unfold frame_line, animation_close. cbn. discriminate. Qed.

Lemma animation_close_not_in_frames self start frames :
  ~ In (EvWrite animation_close) (flat_map (frame_events self start) frames).
Proof.
  intros H. apply in_flat_map in H. destruct H as (f & _ & H).
  unfold frame_events in H. destruct (frame_time f start); [|exact H].
  destruct H as [H|[H|[H|[]]]]; discriminate.
Qed.

Lemma file_opened_frame_write_events self start frame :
  file_opened (frame_write_events self start frame) = false.
Proof. unfold frame_write_events. destruct (frame_time frame start); reflexivity. Qed.

Section FileFacts.

Variable exc : Type.
Variable h : host exc.

Lemma output_frame_keeps_file self frame start tr out tr' :
  output_frame h self frame start tr = (out, tr') ->
  file_closed tr' = file_closed tr /\ file_opened tr' = file_opened tr /\
  forall e, out <> Raised (OpenError e).
Proof.
  rewrite output_frame_run.
  assert (C : forall evs, file_closed evs = false ->
                          file_closed (tr ++ evs) = file_closed tr)
    by (intros evs Hc; rewrite file_closed_app, Hc; apply orb_false_r).
  assert (O : forall evs, file_opened evs = false ->
                          file_opened (tr ++ evs) = file_opened tr)
    by (intros evs Ho; rewrite file_opened_app, Ho; apply orb_false_r).
  destruct (frame_time frame start) eqn:T;
    [|intros [= <- <-]; repeat split; discriminate].
  destruct (write_raises h tr _);
    [intros [= <- <-]; repeat split; discriminate|].
  destruct (frame_set_raises h _ frame).
  { intros [= <- <-].
    split; [apply C, file_closed_frame_write_events|].
    split; [apply O, file_opened_frame_write_events|discriminate]. }
  destruct (x3d_raises h _ _); intros [= <- <-];
    (split; [apply C, file_closed_frame_events|];
     split; [apply O, file_opened_frame_events|discriminate]).
Qed.

Lemma frame_loop_keeps_file fuel : forall self sc frame tr out tr',
  frame_loop h fuel self sc frame tr = (out, tr') ->
  file_closed tr' = file_closed tr /\ file_opened tr' = file_opened tr /\
  forall e, out <> Raised (OpenError e).
Proof.
  induction fuel as [|fuel IH]; intros self sc frame tr out tr'; cbn [frame_loop].
  - destruct (frame <? frame_end sc); intros [= <- <-]; repeat split; discriminate.
  - destruct (frame <? frame_end sc);
      [|intros [= <- <-]; repeat split; discriminate].
    unfold bind.
    destruct (output_frame h self frame (frame_start sc) tr)
      as [o tr1] eqn:O.
    apply output_frame_keeps_file in O. destruct O as (C1 & O1 & N1).
    destruct o as [[]|e|].
    + intros H. apply IH in H. destruct H as (C2 & O2 & N2).
      repeat split; [congruence|congruence|exact N2].
    + intros [= <- <-]. repeat split; assumption.
    + intros [= <- <-]. repeat split; [assumption|assumption|discriminate].
Qed.

(** C7 (as the code has it). The index file is opened by a plain [open]
    and closed by an explicit [close] that only a completed run reaches:
    a successful export leaves the file opened and closed, with the close
    as its last event; a run that stops on an exception raised during the
    export loop (or on a loop that does not end) leaves the opened file
    unclosed, and so does one that stops in a write of the heading or
    closing lines, or in a [close] that raises and so does not complete;
    a failing [open] leaves nothing opened. *)
Theorem kanim_file_closed_only_on_success self sc out tr :
  execute h self sc [] = (out, tr) ->
  match out with
  | Done _ =>
      file_opened tr = true /\ file_closed tr = true /\ last tr EvClose = EvClose
  | Raised (OpenError _) => tr = []
  | Raised _ => file_opened tr = true /\ file_closed tr = false
  | OutOfFuel => file_opened tr = true /\ file_closed tr = false
  end.
Proof.
  unfold execute, execute_fuel, py_open. unfold bind at 1.
  destruct (open_raises h (filepath self)) as [e|]; [intros [= <- <-]; reflexivity|].
  unfold emit at 1. cbn [app].
  unfold bind at 1. unfold file_write at 1.
  destruct (write_raises h _ xml_prolog);
    [intros [= <- <-]; split; reflexivity|].
  cbn [app]. unfold bind at 1. unfold file_write at 1.
  destruct (write_raises h _ animation_open);
    [intros [= <- <-]; split; reflexivity|].
  cbn [app]. unfold bind at 1.
  destruct (frame_loop _ _ _ _ _ _) as [o tr1] eqn:L.
  apply frame_loop_keeps_file in L. cbn in L. destruct L as (C1 & O1 & N1).
  destruct o as [[]|e|].
  - unfold bind at 1.
    destruct (output_frame _ _ _ _ _) as [o tr2] eqn:F.
    apply output_frame_keeps_file in F. destruct F as (C2 & O2 & N2).
    destruct o as [[]|e|].
    + unfold bind at 1. unfold file_write at 1.
      destruct (write_raises h tr2 animation_close);
        [intros [= <- <-]; split; congruence|].
      unfold bind, file_close, ret.
      destruct (close_raises h _); intros [= <- <-].
      * rewrite file_opened_app, file_closed_app, O2, O1, C2, C1.
        split; reflexivity.
      * rewrite last_last, !file_opened_app, !file_closed_app.
        rewrite O2, O1. cbn. rewrite !orb_true_r. now repeat split.
    + intros [= <- <-].
      destruct e as [|e|e|e|e|e]; try (split; congruence). now destruct (N2 e).
    + intros [= <- <-]. split; congruence.
  - intros [= <- <-].
    destruct e as [|e|e|e|e|e]; try (split; congruence). now destruct (N1 e).
  - intros [= <- <-]. split; congruence.
Qed.

End FileFacts.

(* ===================================================================== *)
(** ** What a run writes and exports *)
(* ===================================================================== *)

Lemma file_text_prologue self :
  file_text (prologue_events self) = (xml_prolog ++ animation_open)%string.
Proof.
  unfold prologue_events. cbn [file_text]. now rewrite string_app_nil_r.
Qed.

Lemma file_text_epilogue : file_text epilogue_events = animation_close.
Proof. unfold epilogue_events. cbn [file_text]. apply string_app_nil_r. Qed.

Lemma file_text_complete self start frames :
  file_text (complete_trace self start frames) =
    (xml_prolog ++ animation_open
       ++ concat_lines (map (index_line self start) frames)
       ++ animation_close)%string.
Proof.
  unfold complete_trace.
  rewrite !file_text_app, file_text_prologue, file_text_frames, file_text_epilogue.
  now rewrite string_app_assoc.
Qed.

Lemma concat_lines_app (l1 l2 : list string) :
  concat_lines (l1 ++ l2) = (concat_lines l1 ++ concat_lines l2)%string.
Proof.
  induction l1 as [|x l1 IH]; cbn [app concat_lines]; [reflexivity|].
  now rewrite IH, string_app_assoc.
Qed.

Lemma file_text_aborted self start before frame :
  file_text (aborted_trace self start before frame) =
    (xml_prolog ++ animation_open
       ++ concat_lines (map (index_line self start) before)
       ++ index_line self start frame)%string.
Proof.
  unfold aborted_trace.
  rewrite !file_text_app, file_text_prologue, file_text_frames,
    file_text_frame_events.
  now rewrite string_app_assoc.
Qed.

Lemma aborted_trace_snoc self start before frame :
  aborted_trace self start before frame =
    prologue_events self ++ flat_map (frame_events self start) (before ++ [frame]).
Proof. unfold aborted_trace. now rewrite flat_map_snoc. Qed.

Lemma frame_time_some frame start :
  frame_time frame start <> None -> exists time, frame_time frame start = Some time.
Proof. destruct (frame_time frame start) as [t|]; [now exists t|congruence]. Qed.

Lemma aborted_trace_last self start before frame :
  frame_time frame start <> None ->
  last (aborted_trace self start before frame) EvClose =
    EvExportX3d (frame_x3d_args self frame).
Proof.
  intros T. unfold aborted_trace. rewrite frame_events_pre by exact T.
  rewrite !List.app_assoc. apply last_last.
Qed.

Lemma aborted_trace_unfinished self start before frame :
  ~ In (EvWrite animation_close) (aborted_trace self start before frame) /\
  file_closed (aborted_trace self start before frame) = false.
Proof.
  rewrite aborted_trace_snoc. split.
  - intros H. apply in_app_or in H. destruct H as [H|H].
    + destruct H as [H|[H|[H|[]]]]; discriminate.
    + exact (animation_close_not_in_frames _ _ _ H).
  - rewrite file_closed_app, file_closed_frames. reflexivity.
Qed.

Section CallFacts.

Variable exc : Type.
Variable h : host exc.

Lemma calls_return_app tr0 (a b : trace) :
  calls_return h tr0 (a ++ b) = calls_return h tr0 a && calls_return h (tr0 ++ a) b.
Proof.
  revert tr0. induction a as [|ev a IH]; intros tr0; cbn [app calls_return].
  - now rewrite List.app_nil_r.
  - destruct (call_raises h tr0 ev); [reflexivity|].
    rewrite IH. now rewrite <- List.app_assoc.
Qed.

Lemma calls_return_snoc tr ev :
  calls_return h [] tr = true -> call_raises h tr ev = None ->
  calls_return h [] (tr ++ [ev]) = true.
Proof.
  intros I C. rewrite calls_return_app, I. cbn [app calls_return]. now rewrite C.
Qed.

Lemma calls_return_split pre ev post :
  calls_return h [] (pre ++ ev :: post) = true -> call_raises h pre ev = None.
Proof.
  rewrite calls_return_app. intros H. apply andb_prop in H. destruct H as [_ H].
  cbn [app calls_return] in H.
  destruct (call_raises h pre ev); [discriminate|reflexivity].
Qed.

(** The calls of a whole frame, one by one. *)
Lemma frame_events_return self start frame tr0 :
  frame_time frame start <> None ->
  calls_return h tr0 (frame_pre_events self start frame) = true ->
  write_raises h tr0 (index_line self start frame) = None /\
  frame_set_raises h (tr0 ++ frame_write_events self start frame) frame = None.
Proof.
  unfold frame_pre_events, frame_write_events, index_line.
  destruct (frame_time frame start) as [t|]; [intros _|congruence].
  cbn [calls_return call_raises].
  destruct (write_raises h tr0 _); [discriminate|].
  destruct (frame_set_raises h _ frame); [discriminate|]. now split.
Qed.

(** A host on which every call of the events of [frames] returns lets
    [output_frame] go through them all. *)
Lemma output_frames_replay self start frames :
  Forall (fun f => frame_time f start <> None) frames ->
  forall tr0,
    calls_return h tr0 (flat_map (frame_events self start) frames) = true ->
    output_frames h self start frames tr0 =
      (Done tt, tr0 ++ flat_map (frame_events self start) frames).
Proof.
  induction 1 as [|f frames Hf F IH]; intros tr0; cbn [output_frames flat_map].
  - intros _. unfold ret. now rewrite List.app_nil_r.
  - rewrite calls_return_app. intros H. apply andb_prop in H. destruct H as [H1 H2].
    rewrite (frame_events_pre _ _ _ Hf), calls_return_app in H1.
    apply andb_prop in H1. destruct H1 as [P X].
    destruct (frame_events_return _ _ _ _ Hf P) as [W C].
    cbn [calls_return call_raises] in X.
    unfold bind. rewrite output_frame_run, W, C.
    destruct (frame_time f start); [|congruence].
    destruct (x3d_raises h _ _); [discriminate|].
    rewrite (IH _ H2). now rewrite List.app_assoc.
Qed.

Lemma prologue_return self :
  calls_return h [] (prologue_events self) = true ->
  open_raises h (filepath self) = None /\
  write_raises h [EvOpen (filepath self)] xml_prolog = None /\
  write_raises h [EvOpen (filepath self); EvWrite xml_prolog] animation_open = None.
Proof.
  unfold prologue_events. cbn [calls_return call_raises app].
  destruct (open_raises h _); [discriminate|].
  destruct (write_raises h _ xml_prolog); [discriminate|].
  destruct (write_raises h _ animation_open); [discriminate|]. now repeat split.
Qed.

(** The run up to the frames, on a host whose prologue calls return. *)
Lemma execute_prologue self sc l :
  stride_frames (loop_bound sc) (frame_start sc) (frame_end sc) (frame_skip self)
    = Some l ->
  calls_return h [] (prologue_events self) = true ->
  execute h self sc [] =
    (output_frames h self (frame_start sc) (l ++ [frame_end sc]) ;;
     file_write h animation_close ;;
     file_close h ;;
     ret FINISHED) (prologue_events self).
Proof.
  intros L P. destruct (prologue_return _ P) as (O & W1 & W2).
  rewrite (execute_frames _ _ _ _ _ L).
  unfold bind at 1. unfold py_open. rewrite O. unfold emit. cbn [app].
  unfold bind at 1. unfold file_write at 1. rewrite W1. cbn [app].
  unfold bind at 1. unfold file_write at 1. rewrite W2. reflexivity.
Qed.

(** The exporter raises on a frame the run reaches: the run stops there
    with that exception. *)
Lemma execute_stops_at_export self sc before frame after e :
  sampled_frames (frame_start sc) (frame_end sc) (frame_skip self)
    = Some (before ++ frame :: after) ->
  Forall (fun f => frame_time f (frame_start sc) <> None) (before ++ [frame]) ->
  calls_return h [] (history_at_export self (frame_start sc) before frame) = true ->
  x3d_raises h (history_at_export self (frame_start sc) before frame)
             (frame_x3d_args self frame) = Some e ->
  execute h self sc [] =
    (Raised (ExportError e), aborted_trace self (frame_start sc) before frame).
Proof.
  unfold sampled_frames, sampled_frames_fuel. fold (loop_bound sc).
  destruct (stride_frames _ _ _ _) as [l|] eqn:L; [|discriminate].
  intros [= E] F I X.
  apply Forall_app in F. destruct F as [Fb Ff].
  assert (Tf : frame_time frame (frame_start sc) <> None) by now inversion Ff.
  unfold history_at_export in I, X.
  rewrite calls_return_app in I. apply andb_prop in I. destruct I as [P I].
  cbn [app] in I.
  rewrite calls_return_app in I. apply andb_prop in I. destruct I as [B I].
  rewrite List.app_assoc in X.
  destruct (frame_events_return _ _ _ _ Tf I) as [W C].
  rewrite (execute_prologue _ _ _ L P), E.
  unfold bind at 1.
  change (before ++ frame :: after) with (before ++ [frame] ++ after).
  rewrite output_frames_app, (output_frames_replay _ _ _ Fb _ B).
  cbn [app output_frames]. unfold bind at 1.
  rewrite output_frame_run, W, C, X.
  destruct (frame_time frame (frame_start sc)); [|congruence].
  unfold aborted_trace. now rewrite List.app_assoc.
Qed.

(** A run on a host whose every expected call returns is complete. *)
Lemma execute_replay self sc frames :
  sampled_frames (frame_start sc) (frame_end sc) (frame_skip self) = Some frames ->
  Forall (fun f => frame_time f (frame_start sc) <> None) frames ->
  calls_return h [] (complete_trace self (frame_start sc) frames) = true ->
  execute h self sc [] = (Done FINISHED, complete_trace self (frame_start sc) frames).
Proof.
  unfold sampled_frames, sampled_frames_fuel. fold (loop_bound sc).
  destruct (stride_frames _ _ _ _) as [l|] eqn:L; [|discriminate].
  intros [= <-] F I. unfold complete_trace in I.
  rewrite calls_return_app in I. apply andb_prop in I. destruct I as [P I].
  cbn [app] in I.
  rewrite calls_return_app in I. apply andb_prop in I. destruct I as [B I].
  rewrite (execute_prologue _ _ _ L P).
  unfold bind at 1. rewrite (output_frames_replay _ _ _ F _ B).
  unfold epilogue_events in I. cbn [calls_return call_raises] in I.
  unfold bind, file_write, file_close, ret.
  destruct (write_raises h _ animation_close); [discriminate|].
  destruct (close_raises h _); [discriminate|].
  unfold complete_trace, epilogue_events. now rewrite <- !List.app_assoc.
Qed.

(** Each step of a run keeps the trace in agreement with the host. *)
Lemma output_frame_agrees self frame start tr out tr' :
  calls_return h [] tr = true ->
  output_frame h self frame start tr = (out, tr') ->
  agrees_with_host h out tr'.
Proof.
  intros I. unfold output_frame.
  destruct (frame_time frame start) as [t|]; [|intros [= <- <-]; exact I].
  unfold bind, file_write, scene_frame_set, export_scene_x3d.
  destruct (write_raises h tr _) as [e|] eqn:W; [intros [= <- <-]; exact I|].
  pose proof (calls_return_snoc tr (EvWrite _) I W) as I1.
  destruct (frame_set_raises h _ frame) as [e|] eqn:C; [intros [= <- <-]; exact I1|].
  pose proof (calls_return_snoc _ (EvFrameSet frame) I1 C) as I2.
  destruct (x3d_raises h _ _) as [e|] eqn:X; intros [= <- <-].
  - cbn [agrees_with_host]. eexists _, _. split; [reflexivity|]. now split.
  - exact (calls_return_snoc _ (EvExportX3d _) I2 X).
Qed.

Lemma frame_loop_agrees fuel : forall self sc frame tr out tr',
  calls_return h [] tr = true ->
  frame_loop h fuel self sc frame tr = (out, tr') ->
  agrees_with_host h out tr'.
Proof.
  induction fuel as [|fuel IH]; intros self sc frame tr out tr' I;
    cbn [frame_loop].
  - destruct (frame <? frame_end sc); intros [= <- <-]; exact I.
  - destruct (frame <? frame_end sc); [|intros [= <- <-]; exact I].
    unfold bind.
    destruct (output_frame h self frame (frame_start sc) tr) as [o tr1] eqn:O.
    apply (output_frame_agrees _ _ _ _ _ _ I) in O.
    destruct o as [[]|e|].
    + apply IH. exact O.
    + intros [= <- <-]. exact O.
    + intros [= <- <-]. exact O.
Qed.

Lemma execute_agrees self sc out tr :
  execute h self sc [] = (out, tr) -> agrees_with_host h out tr.
Proof.
  unfold execute, execute_fuel, py_open. unfold bind at 1.
  destruct (open_raises h (filepath self)) as [e|] eqn:O;
    [intros [= <- <-]; reflexivity|].
  unfold emit at 1. cbn [app].
  assert (I0 : calls_return h [] [EvOpen (filepath self)] = true)
    by (cbn [calls_return call_raises]; now rewrite O).
  unfold bind at 1. unfold file_write at 1.
  destruct (write_raises h _ xml_prolog) as [e|] eqn:W1;
    [intros [= <- <-]; exact I0|].
  pose proof (calls_return_snoc _ (EvWrite _) I0 W1) as I1.
  unfold bind at 1. unfold file_write at 1.
  destruct (write_raises h _ animation_open) as [e|] eqn:W2;
    [intros [= <- <-]; exact I1|].
  pose proof (calls_return_snoc _ (EvWrite _) I1 W2) as I2.
  unfold bind at 1.
  destruct (frame_loop _ _ _ _ _ _) as [o tr1] eqn:L.
  apply (frame_loop_agrees _ _ _ _ _ _ _ I2) in L.
  destruct o as [[]|e|]; [|intros [= <- <-]; exact L|intros [= <- <-]; exact L].
  unfold bind at 1.
  destruct (output_frame _ _ _ _ _) as [o tr2] eqn:F.
  apply (output_frame_agrees _ _ _ _ _ _ L) in F.
  destruct o as [[]|e|]; [|intros [= <- <-]; exact F|intros [= <- <-]; exact F].
  unfold bind at 1. unfold file_write at 1.
  destruct (write_raises h tr2 animation_close) as [e|] eqn:W3;
    [intros [= <- <-]; exact F|].
  pose proof (calls_return_snoc _ (EvWrite _) F W3) as I3.
  unfold bind, file_close, ret.
  destruct (close_raises h _) as [e|] eqn:C; intros [= <- <-]; [exact I3|].
  exact (calls_return_snoc _ EvClose I3 C).
Qed.

(** An exporter call that raised is the last event of its run, and its
    exception the outcome. *)
Lemma raising_export_is_last {A : Type} (out : outcome exc A) tr pre a post e :
  agrees_with_host h out tr ->
  tr = pre ++ EvExportX3d a :: post ->
  x3d_raises h pre a = Some e ->
  out = Raised (ExportError e) /\ post = [].
Proof.
  intros G E X.
  assert (N : forall t, calls_return h [] t = true ->
                        t <> pre ++ EvExportX3d a :: post).
  { intros t I ->. apply calls_return_split in I. cbn [call_raises] in I. congruence. }
  assert (K : forall t b, calls_return h [] t = true ->
                          t ++ [b] = pre ++ EvExportX3d a :: post ->
                          post = [] /\ t = pre /\ b = EvExportX3d a).
  { intros t b I Et.
    destruct (exists_last (l := EvExportX3d a :: post)) as (post' & x & Ep);
      [discriminate|].
    rewrite Ep, List.app_assoc in Et. apply app_inj_tail in Et.
    destruct Et as [-> <-].
    destruct post' as [|y post'].
    - cbn [app] in Ep. injection Ep as <- ->. rewrite List.app_nil_r. now repeat split.
    - exfalso. cbn [app] in Ep. injection Ep as <- Ep.
      apply calls_return_split in I. cbn [call_raises] in I. congruence. }
  destruct out as [r|[|e'|e'|e'|e'|e']|]; cbn [agrees_with_host] in G;
    try (exfalso; exact (N _ G E)).
  destruct G as (tr0 & a0 & -> & I & X0).
  destruct (K _ _ I E) as (-> & -> & [= ->]).
  split; [congruence|reflexivity].
Qed.

End CallFacts.

Section ExportFacts.

Variable exc : Type.
Variable h : host exc.

(** A run that finishes went through a loop that ended: its frames are
    those of the sampler. *)
Lemma execute_done_sampled self sc tr :
  execute h self sc [] = (Done FINISHED, tr) ->
  exists frames,
    sampled_frames (frame_start sc) (frame_end sc) (frame_skip self) = Some frames.
Proof.
  unfold execute, execute_fuel. unfold bind.
  destruct (py_open h (filepath self) []) as [[[]|e|] t1]; [|discriminate|discriminate].
  destruct (file_write h xml_prolog t1) as [[[]|e|] t2]; [|discriminate|discriminate].
  destruct (file_write h animation_open t2) as [[[]|e|] t3];
    [|discriminate|discriminate].
  destruct (frame_loop _ _ _ _ _ _) as [o tr1] eqn:L.
  destruct o as [[]|e|]; [|discriminate|discriminate].
  intros _. apply frame_loop_done in L. destruct L as [l L].
  unfold sampled_frames, sampled_frames_fuel. fold (loop_bound sc).
  rewrite L. now eexists.
Qed.

(** C4. On a successful export the text written to the index file is
    exactly: the XML prolog line, the root-opening line, one self-closing
    frame line per sampled frame, in order, and the root-closing line.
    Each frame line carries the double-quoted [file_name] attribute first
    and the double-quoted [time] attribute second. *)
Theorem index_document_structure self sc tr :
  execute h self sc [] = (Done FINISHED, tr) ->
  exists frames,
    sampled_frames (frame_start sc) (frame_end sc) (frame_skip self) = Some frames /\
    Forall (fun f =>
              exists time,
                frame_time f (frame_start sc) = Some time /\
                index_line self (frame_start sc) f =
                  ("  <frame file_name=" ++ dquote ++ frame_basename self f ++ dquote
                     ++ " time=" ++ dquote ++ time ++ dquote ++ " />" ++ nl)%string)
           frames /\
    file_text tr =
      (("<?xml version=" ++ dquote ++ "1.0" ++ dquote ++ "?>" ++ nl)
         ++ ("<animation>" ++ nl)
         ++ concat_lines (map (index_line self (frame_start sc)) frames)
         ++ ("</animation>" ++ nl))%string.
Proof.
  intros R. destruct (execute_done_sampled _ _ _ R) as [frames S'].
  exists frames. split; [exact S'|].
  pose proof (execute_inv _ _ _ _ _ _ _ S' R) as (_ & -> & F).
  split.
  - eapply Forall_impl; [|exact F]. cbv beta. intros f Hf.
    unfold index_line. destruct (frame_time f (frame_start sc)) as [t|];
      [|congruence].
    exists t. split; reflexivity.
  - apply file_text_complete.
Qed.

(** C8. When the host exporter raises on a sampled frame, the exception
    is the outcome of the run as the exporter raised it, the trace stops
    at that exporter call (no later sampled frame is written, visited or
    exported) and the root-closing tag is never written.  Three ways:
    from the host (the exporter raises on a frame the run reaches, every
    call before it having returned: the run is the aborted one), from the
    trace (an exporter call that raised, wherever it stands in the trace
    of a run, is its last event and its exception the outcome), and from
    the outcome (a run that ends on an exporter's exception is the aborted
    run of the frame it was raised on). *)
Theorem exporter_failure_aborts self sc frames :
  sampled_frames (frame_start sc) (frame_end sc) (frame_skip self) = Some frames ->
  (forall before frame after e,
     frames = before ++ frame :: after ->
     Forall (fun f => frame_time f (frame_start sc) <> None) (before ++ [frame]) ->
     calls_return h [] (history_at_export self (frame_start sc) before frame) = true ->
     x3d_raises h (history_at_export self (frame_start sc) before frame)
                (frame_x3d_args self frame) = Some e ->
     execute h self sc [] =
       (Raised (ExportError e), aborted_trace self (frame_start sc) before frame) /\
     exported_paths (aborted_trace self (frame_start sc) before frame) =
       map (fun f => x3d_filepath (frame_x3d_args self f)) (before ++ [frame]) /\
     ~ In (EvWrite animation_close) (aborted_trace self (frame_start sc) before frame) /\
     file_closed (aborted_trace self (frame_start sc) before frame) = false) /\
  (forall out tr,
     execute h self sc [] = (out, tr) ->
     (forall pre a post e,
        tr = pre ++ EvExportX3d a :: post ->
        x3d_raises h pre a = Some e ->
        out = Raised (ExportError e) /\ post = []) /\
     (forall e,
        out = Raised (ExportError e) ->
        exists before frame after,
          frames = before ++ frame :: after /\
          x3d_raises h (history_at_export self (frame_start sc) before frame)
                     (frame_x3d_args self frame) = Some e /\
          tr = aborted_trace self (frame_start sc) before frame /\
          last tr EvClose = EvExportX3d (frame_x3d_args self frame) /\
          frames_set tr = before ++ [frame] /\
          exported_paths tr =
            map (fun f => x3d_filepath (frame_x3d_args self f)) (before ++ [frame]) /\
          ~ In (EvWrite animation_close) tr /\
          file_closed tr = false)).
Proof.
  intros S'. split.
  - intros b f a e -> F I X.
    split; [exact (execute_stops_at_export _ _ _ _ _ _ _ _ S' F I X)|].
    split; [|apply aborted_trace_unfinished].
    rewrite aborted_trace_snoc, exported_paths_app.
    now rewrite exported_paths_frames.
  - intros out tr R. split.
    + intros pre a post e E X.
      exact (raising_export_is_last _ _ _ _ _ _ _ _ (execute_agrees _ _ _ _ _ _ R) E X).
    + intros e ->.
      pose proof (execute_inv _ _ _ _ _ _ _ S' R)
        as (_ & b & f & a & -> & F & -> & X).
      exists b, f, a. split; [reflexivity|]. split; [exact X|]. split; [reflexivity|].
      assert (Tf : frame_time f (frame_start sc) <> None).
      { apply Forall_app in F. destruct F as [_ F]. now inversion F. }
      split; [exact (aborted_trace_last _ _ _ _ Tf)|].
      split; [rewrite aborted_trace_snoc, frames_set_app;
              now rewrite frames_set_frames|].
      split; [rewrite aborted_trace_snoc, exported_paths_app;
              now rewrite exported_paths_frames|].
      apply aborted_trace_unfinished.
Qed.

(** C9. [output_frame] writes the frame's index line before it calls the
    host exporter: the exporter is consulted on a history that already
    ends with the line and the cursor move.  So when the exporter raises
    on a frame, the text of the index file ends with the entry that names
    that frame's file. *)
Theorem index_line_precedes_export self sc frames e tr :
  sampled_frames (frame_start sc) (frame_end sc) (frame_skip self) = Some frames ->
  execute h self sc [] = (Raised (ExportError e), tr) ->
  exists before frame after time,
    frames = before ++ frame :: after /\
    frame_time frame (frame_start sc) = Some time /\
    (exists tr0,
       history_at_export self (frame_start sc) before frame =
         tr0 ++ [EvWrite (frame_line (frame_basename self frame) time);
                 EvFrameSet frame] /\
       x3d_raises h (tr0 ++ [EvWrite (frame_line (frame_basename self frame) time);
                             EvFrameSet frame])
                  (frame_x3d_args self frame) = Some e /\
       tr = tr0 ++ [EvWrite (frame_line (frame_basename self frame) time);
                    EvFrameSet frame;
                    EvExportX3d (frame_x3d_args self frame)]) /\
    file_text tr =
      (xml_prolog ++ animation_open
         ++ concat_lines (map (index_line self (frame_start sc)) before)
         ++ frame_line (frame_basename self frame) time)%string.
Proof.
  intros S' R.
  pose proof (execute_inv _ _ _ _ _ _ _ S' R) as (_ & b & f & a & -> & F & -> & X).
  assert (Tf : frame_time f (frame_start sc) <> None).
  { apply Forall_app in F. destruct F as [_ F]. now inversion F. }
  destruct (frame_time_some _ _ Tf) as [t T].
  exists b, f, a, t. split; [reflexivity|]. split; [exact T|]. split.
  - exists (prologue_events self ++ flat_map (frame_events self (frame_start sc)) b).
    unfold history_at_export, aborted_trace, frame_pre_events, frame_events in *.
    rewrite T in *. rewrite <- !List.app_assoc. repeat split. exact X.
  - rewrite file_text_aborted. unfold index_line at 2. now rewrite T.
Qed.

(** The loop bound of [execute] is never the reason a run stops when the
    skip count is not negative (its declared minimum is 0). *)
Lemma execute_has_fuel self sc out tr :
  0 <= frame_skip self ->
  execute h self sc [] = (out, tr) -> out <> OutOfFuel.
Proof.
  intros Hs R.
  pose proof (sampled_frames_closed (frame_start sc) (frame_end sc) _ Hs) as S'.
  pose proof (execute_inv _ _ _ _ _ _ _ S' R) as I.
  intros ->. exact I.
Qed.

End ExportFacts.

(* ===================================================================== *)
(** ** Facts about binary64 rounding *)
(* ===================================================================== *)

Module FloatFacts.

Import PyFloat.

Lemma digits2_log2 (p : positive) : Z.pos (digits2_pos p) = Z.log2 (Z.pos p) + 1.
Proof.
  assert (S' : forall q, digits2_pos q = Pos.size q)
    by (induction q as [q IH|q IH|]; cbn; now rewrite ?IH).
  destruct p as [p|p|]; cbn [digits2_pos Z.log2]; rewrite ?S'; lia.
Qed.

Lemma digits2_bounds (p : positive) :
  2 ^ (Z.pos (digits2_pos p) - 1) <= Z.pos p < 2 ^ Z.pos (digits2_pos p).
Proof.
  rewrite digits2_log2.
  replace (Z.log2 (Z.pos p) + 1 - 1) with (Z.log2 (Z.pos p)) by lia.
  apply Z.log2_spec. lia.
Qed.

Lemma digits2_unique (p : positive) (k : Z) :
  2 ^ (k - 1) <= Z.pos p < 2 ^ k -> Z.pos (digits2_pos p) = k.
Proof.
  intros H. rewrite digits2_log2.
  assert (K : 0 < k).
  { destruct (Z_lt_le_dec 0 k) as [|L]; [assumption|].
    assert (2 ^ k <= 2 ^ 0) by (apply Z.pow_le_mono_r; lia). cbn in *. lia. }
  rewrite (Z.log2_unique (Z.pos p) (k - 1)); [lia|lia|].
  now replace (Z.succ (k - 1)) with k by lia.
Qed.

Lemma iter_xO_mul (p k : positive) :
  Z.pos (Pos.iter xO p k) = Z.pos p * 2 ^ Z.pos k.
Proof.
  induction k as [|k IH] using Pos.peano_ind.
  - cbn. lia.
  - rewrite Pos.iter_succ, Pos2Z.inj_succ, Z.pow_succ_r by lia.
    rewrite Pos2Z.inj_xO, IH. lia.
Qed.

Lemma shr_1_pos (m : positive) (r s : bool) :
  shr_1 (Build_shr_record (Z.pos m) r s) =
    Build_shr_record (Z.pos m / 2) (Z.odd (Z.pos m)) (r || s).
Proof.
  destruct m as [m|m|]; cbn [shr_1 Z.odd].
  - f_equal. rewrite Pos2Z.inj_xI.
    replace (2 * Z.pos m + 1) with (1 + Z.pos m * 2) by lia.
    rewrite Z.div_add by lia. reflexivity.
  - f_equal. rewrite Pos2Z.inj_xO.
    replace (2 * Z.pos m) with (0 + Z.pos m * 2) by lia.
    rewrite Z.div_add by lia. reflexivity.
  - reflexivity.
Qed.

Lemma loc_of_shr_record_of_loc (m : Z) (l : location) :
  loc_of_shr_record (shr_record_of_loc m l) = l.
Proof. destruct l as [|[]]; reflexivity. Qed.

Lemma shr_m_of_loc (m : Z) (l : location) : shr_m (shr_record_of_loc m l) = m.
Proof. destruct l as [|[]]; reflexivity. Qed.

(** A mantissa of 53 digits is left alone by the normalising shift. *)
Lemma shr_fexp_53 (m : positive) (e : Z) (l : location) :
  Z.pos (digits2_pos m) = 53 -> -1074 <= e ->
  shr_fexp prec emax (Z.pos m) e l = (shr_record_of_loc (Z.pos m) l, e).
Proof.
  intros D E. unfold shr_fexp, shr, fexp, emin, Zdigits2, prec, emax.
  rewrite D.
  replace (Z.max (53 + e - 53) (3 - 1024 - 53) - e) with 0 by lia.
  reflexivity.
Qed.

(** A mantissa of 54 digits is shifted right by one. *)
Lemma shr_fexp_54 (m : positive) (e : Z) (l : location) :
  Z.pos (digits2_pos m) = 54 -> -1075 <= e ->
  shr_fexp prec emax (Z.pos m) e l = (shr_1 (shr_record_of_loc (Z.pos m) l), e + 1).
Proof.
  intros D E. unfold shr_fexp, shr, fexp, emin, Zdigits2, prec, emax.
  rewrite D.
  replace (Z.max (54 + e - 53) (3 - 1024 - 53) - e) with 1 by lia.
  reflexivity.
Qed.

(** The last steps of [binary_round_aux] on a rounded mantissa [m] between
    2^52 and 2^53 (2^53 when the rounding carried). *)
Lemma round_finish (s : bool) (m : positive) (e : Z) :
  2 ^ 52 <= Z.pos m <= 2 ^ 53 -> -1074 <= e <= 970 ->
  (let '(mrs, e') := shr_fexp prec emax (Z.pos m) e loc_Exact in
   match shr_m mrs with
   | Z0 => S754_zero s
   | Z.pos m' => if e' <=? emax - prec then S754_finite s m' e' else S754_infinity s
   | Z.neg _ => S754_nan
   end) =
  if Z.pos m <? 2 ^ 53 then S754_finite s m e
  else S754_finite s (Z.to_pos (2 ^ 52)) (e + 1).
Proof.
  intros M E. destruct (Z.ltb_spec (Z.pos m) (2 ^ 53)) as [L|L].
  - rewrite shr_fexp_53; [|apply digits2_unique; lia|lia].
    cbn [shr_record_of_loc shr_m]. unfold emax, prec.
    destruct (Z.leb_spec e (1024 - 53)); [reflexivity|lia].
  - assert (Em : Z.pos m = 2 ^ 53) by lia.
    rewrite shr_fexp_54; [|apply digits2_unique; lia|lia].
    cbn [shr_record_of_loc]. rewrite shr_1_pos. cbn [shr_m].
    rewrite Em. change (2 ^ 53 / 2) with (Z.pos (Z.to_pos (2 ^ 52))).
    unfold emax, prec.
    destruct (Z.leb_spec (e + 1) (1024 - 53)); [reflexivity|lia].
Qed.

Lemma round_nearest_even_range (m : Z) (l : location) :
  m <= round_nearest_even m l <= m + 1.
Proof.
  destruct l as [|[]]; cbn [round_nearest_even]; try lia.
  destruct (Z.even m); lia.
Qed.

(** [binary_round_aux] on a quotient of 53 digits: no shift, one rounding. *)
Lemma binary_round_aux_53 (s : bool) (q m : positive) (e : Z) (l : location) :
  2 ^ 52 <= Z.pos q < 2 ^ 53 -> -1074 <= e <= 970 ->
  round_nearest_even (Z.pos q) l = Z.pos m ->
  binary_round_aux prec emax s (Z.pos q) e l =
    if Z.pos m <? 2 ^ 53 then S754_finite s m e
    else S754_finite s (Z.to_pos (2 ^ 52)) (e + 1).
Proof.
  intros Q E R. unfold binary_round_aux.
  rewrite shr_fexp_53; [|apply digits2_unique; lia|lia].
  rewrite shr_m_of_loc, loc_of_shr_record_of_loc, R.
  pose proof (round_nearest_even_range (Z.pos q) l) as G. rewrite R in G.
  apply round_finish; lia.
Qed.

(** [binary_round_aux] on a quotient of 54 digits: one shift, one rounding. *)
Lemma binary_round_aux_54 (s : bool) (q m : positive) (e : Z) (l : location) :
  2 ^ 53 <= Z.pos q < 2 ^ 54 -> -1075 <= e <= 969 ->
  (let mrs := shr_1 (shr_record_of_loc (Z.pos q) l) in
   round_nearest_even (shr_m mrs) (loc_of_shr_record mrs)) = Z.pos m ->
  Z.pos q / 2 <= Z.pos m <= Z.pos q / 2 + 1 ->
  binary_round_aux prec emax s (Z.pos q) e l =
    if Z.pos m <? 2 ^ 53 then S754_finite s m (e + 1)
    else S754_finite s (Z.to_pos (2 ^ 52)) (e + 1 + 1).
Proof.
  intros Q E R G. unfold binary_round_aux.
  rewrite shr_fexp_54; [|apply digits2_unique; lia|lia].
  cbv zeta in R. rewrite R.
  assert (2 ^ 52 <= Z.pos q / 2 < 2 ^ 53).
  { split.
    - apply Z.div_le_lower_bound; lia.
    - apply Z.div_lt_upper_bound; lia. }
  apply round_finish; lia.
Qed.

(** The core of the division of a normalised operand by [25.0]. *)
Lemma SFdiv_core_25 (m1 : positive) (e1 : Z) :
  Z.pos (digits2_pos m1) = 53 -> -52 <= e1 <= 0 ->
  SFdiv_core_binary prec emax (Z.pos m1) e1 (Z.pos 7036874417766400) (-48) =
    (Z.pos m1 * 2 ^ 53 / Z.pos 7036874417766400, e1 - 5,
     new_location (Z.pos 7036874417766400)
                  ((Z.pos m1 * 2 ^ 53) mod Z.pos 7036874417766400)).
Proof.
  intros D E. unfold SFdiv_core_binary, Zdigits2.
  rewrite D.
  change (Z.pos (digits2_pos 7036874417766400)) with 53.
  unfold fexp, emin, prec, emax.
  replace (Z.min (Z.max (53 + e1 - (53 + -48) - 53) (3 - 1024 - 53)) (e1 - -48))
    with (e1 - 5) by lia.
  replace (e1 - -48 - (e1 - 5)) with 53 by lia.
  rewrite Z.shiftl_mul_pow2 by lia.
  unfold Z.div, Z.modulo.
  destruct (Z.div_eucl _ _) as [q r]. reflexivity.
Qed.

Lemma new_location_25 (r : Z) :
  new_location (Z.pos 7036874417766400) r =
    if r =? 0 then loc_Exact
    else loc_Inexact (2 * r ?= Z.pos 7036874417766400).
Proof. reflexivity. Qed.

Lemma div_25_scaled (A : Z) :
  A * 2 ^ 48 / Z.pos 7036874417766400 = A / 25 /\
  (A * 2 ^ 48) mod Z.pos 7036874417766400 = (A mod 25) * 2 ^ 48.
Proof.
  change (Z.pos 7036874417766400) with (25 * 2 ^ 48). split.
  - apply Z.div_mul_cancel_r; lia.
  - apply Z.mul_mod_distr_r; lia.
Qed.

(** Rounding the quotient [A / 25] to nearest: the error is at most
    12/25 of a unit (25 is odd, so there is no tie). *)
Lemma round_div_53 (A : Z) :
  let q := A / 25 in
  let r := (A mod 25) * 2 ^ 48 in
  let m := round_nearest_even q (new_location (Z.pos 7036874417766400) r) in
  q <= m <= q + 1 /\ -12 <= 25 * m - A <= 12.
Proof.
  intros q r m.
  assert (HA : A = 25 * q + A mod 25) by (apply Z.div_mod; lia).
  assert (Hr : 0 <= A mod 25 < 25) by (apply Z.mod_pos_bound; lia).
  split; [apply round_nearest_even_range|].
  unfold m. rewrite new_location_25. unfold r.
  destruct (Z.eqb_spec (A mod 25 * 2 ^ 48) 0) as [Z0|NZ].
  - cbn [round_nearest_even]. lia.
  - destruct (Z.compare_spec (2 * (A mod 25 * 2 ^ 48)) (Z.pos 7036874417766400))
      as [C|C|C]; cbn [round_nearest_even].
    + exfalso. lia.
    + lia.
    + lia.
Qed.

(** The same one binary digit further right: the error is at most one
    half of a unit, reached only on a tie. *)
Lemma round_div_54 (A : Z) (q : positive) :
  A / 25 = Z.pos q ->
  let r := (A mod 25) * 2 ^ 48 in
  let mrs := shr_1 (shr_record_of_loc (Z.pos q)
                      (new_location (Z.pos 7036874417766400) r)) in
  let m := round_nearest_even (shr_m mrs) (loc_of_shr_record mrs) in
  Z.pos q / 2 <= m <= Z.pos q / 2 + 1 /\ -25 <= 50 * m - A <= 25.
Proof.
  intros Q r mrs m.
  assert (HA : A = 25 * (A / 25) + A mod 25) by (apply Z.div_mod; lia).
  assert (Hr : 0 <= A mod 25 < 25) by (apply Z.mod_pos_bound; lia).
  rewrite Q in HA.
  assert (Hq : Z.pos q = 2 * (Z.pos q / 2) + (if Z.odd (Z.pos q) then 1 else 0))
    by (rewrite <- Z.div2_div; apply Z.div2_odd).
  assert (Hm : m = round_nearest_even (Z.pos q / 2) (loc_of_shr_record mrs)).
  { unfold m, mrs.
    destruct (new_location _ r) as [|[]]; cbn [shr_record_of_loc];
      rewrite shr_1_pos; reflexivity. }
  split; [rewrite Hm; apply round_nearest_even_range|].
  rewrite Hm. unfold mrs. rewrite new_location_25. unfold r.
  destruct (Z.eqb_spec (A mod 25 * 2 ^ 48) 0) as [Z0|NZ].
  - cbn [shr_record_of_loc]. rewrite shr_1_pos. cbn [orb].
    destruct (Z.odd (Z.pos q)); cbn [loc_of_shr_record round_nearest_even].
    + destruct (Z.even (Z.pos q / 2)); lia.
    + lia.
  - destruct (Z.compare_spec (2 * (A mod 25 * 2 ^ 48)) (Z.pos 7036874417766400))
      as [C|C|C]; cbn [shr_record_of_loc]; rewrite shr_1_pos; cbn [orb];
      destruct (Z.odd (Z.pos q)); cbn [loc_of_shr_record round_nearest_even];
      try lia.
Qed.

Lemma round_half_even_near (num den K : Z) :
  0 < den -> 2 * Z.abs (num - K * den) < den -> round_half_even num den = K.
Proof.
  intros D H. unfold round_half_even.
  destruct (Z_le_gt_dec (K * den) num) as [L|L].
  - assert (Q : num / den = K).
    { symmetry. apply (Z.div_unique num den K (num - K * den)); lia. }
    assert (R : num mod den = num - K * den).
    { symmetry. apply (Z.mod_unique num den K (num - K * den)); lia. }
    rewrite Q, R.
    destruct (Z.compare_spec (2 * (num - K * den)) den); lia.
  - assert (Q : num / den = K - 1).
    { symmetry. apply (Z.div_unique num den (K - 1) (num - (K - 1) * den)); lia. }
    assert (R : num mod den = num - (K - 1) * den).
    { symmetry. apply (Z.mod_unique num den (K - 1) (num - (K - 1) * den)); lia. }
    rewrite Q, R.
    destruct (Z.compare_spec (2 * (num - (K - 1) * den)) den); lia.
Qed.

(** A float within half a millionth of [K] millionths renders as [K]. *)
Lemma millionths_near (m : positive) (e K X : Z) :
  e < 0 -> X = 2 ^ (- e) ->
  2 * Z.abs (Z.pos m * 1000000 - K * X) < X ->
  millionths m e = K.
Proof.
  intros E -> H. unfold millionths.
  destruct (Z.leb_spec 0 e); [lia|].
  apply round_half_even_near; [|exact H].
  apply Z.pow_pos_nonneg; lia.
Qed.

(** Conversion of a non-zero integer below 2^32 in magnitude: exact, with
    the mantissa shifted up to 53 digits. *)
Lemma binary_round_int (s : bool) (p : positive) :
  Z.pos p < 2 ^ 32 ->
  exists (m1 k : positive),
    binary_round prec emax s p 0 = S754_finite s m1 (Z.neg k) /\
    Z.pos m1 = Z.pos p * 2 ^ Z.pos k /\
    2 ^ 52 <= Z.pos m1 < 2 ^ 53 /\
    21 <= Z.pos k <= 52.
Proof.
  intros P.
  pose proof (digits2_bounds p) as B.
  set (D := Z.pos (digits2_pos p)) in *.
  assert (D1 : 1 <= D) by (unfold D; lia).
  assert (D32 : D <= 32).
  { destruct (Z_le_gt_dec D 32) as [|G]; [assumption|].
    assert (2 ^ 32 <= 2 ^ (D - 1)) by (apply Z.pow_le_mono_r; lia). lia. }
  set (k := Z.to_pos (53 - D)).
  assert (K : Z.pos k = 53 - D) by (unfold k; rewrite Z2Pos.id; lia).
  assert (M : Z.pos (Pos.iter xO p k) = Z.pos p * 2 ^ Z.pos k) by apply iter_xO_mul.
  assert (R : 2 ^ 52 <= Z.pos (Pos.iter xO p k) < 2 ^ 53).
  { rewrite M, K.
    assert (E1 : 2 ^ (D - 1) * 2 ^ (53 - D) = 2 ^ 52)
      by (rewrite <- Z.pow_add_r by lia; f_equal; lia).
    assert (E2 : 2 ^ D * 2 ^ (53 - D) = 2 ^ 53)
      by (rewrite <- Z.pow_add_r by lia; f_equal; lia).
    assert (0 < 2 ^ (53 - D)) by (apply Z.pow_pos_nonneg; lia).
    nia. }
  exists (Pos.iter xO p k), k.
  split; [|split; [exact M|split; [exact R|lia]]].
  unfold binary_round, shl_align.
  assert (F : fexp prec emax (Z.pos (digits2_pos p) + 0) = Z.neg k).
  { unfold fexp, emin, prec, emax. fold D.
    rewrite <- Pos2Z.opp_pos, K. lia. }
  rewrite F. cbn [Z.sub Z.opp Z.add].
  rewrite (binary_round_aux_53 s _ (Pos.iter xO p k) _ loc_Exact);
    [|exact R|lia|reflexivity].
  destruct (Z.ltb_spec (Z.pos (Pos.iter xO p k)) (2 ^ 53)); [reflexivity|lia].
Qed.

(** The quotient by [25.0] of a non-zero integer below 2^32 in magnitude
    is a finite float within half a millionth of the exact quotient. *)
Lemma truediv_25_nonzero (s : bool) (p : positive) :
  Z.pos p < 2 ^ 32 ->
  exists (m : positive) (e : Z),
    SFdiv prec emax (binary_round prec emax s p 0) float_25 = S754_finite s m e /\
    millionths m e = 40000 * Z.pos p.
Proof.
  intros P.
  destruct (binary_round_int s p P) as (m1 & k & -> & M1 & R1 & K).
  unfold SFdiv, float_25.
  rewrite SFdiv_core_25; [|apply digits2_unique; lia|lia].
  rewrite Bool.xorb_false_r.
  set (X := 2 ^ (Z.pos k + 3)).
  assert (X24 : 2 ^ 24 <= X) by (apply Z.pow_le_mono_r; lia).
  assert (X4 : 2 ^ (Z.pos k + 4) = 2 * X).
  { unfold X. replace (Z.pos k + 4) with (Z.succ (Z.pos k + 3)) by lia.
    apply Z.pow_succ_r. lia. }
  assert (X5 : 2 ^ (Z.pos k + 5) = 4 * X).
  { replace (Z.pos k + 5) with (Z.succ (Z.pos k + 4)) by lia.
    rewrite Z.pow_succ_r by lia. lia. }
  set (A := Z.pos p * (4 * X)).
  assert (EA : Z.pos m1 * 2 ^ 53 = A * 2 ^ 48).
  { unfold A. rewrite M1, <- X5, <- !Z.mul_assoc, <- !Z.pow_add_r by lia.
    do 2 f_equal. lia. }
  assert (RA : 2 ^ 57 <= A < 2 ^ 58).
  { assert (E : Z.pos m1 * 32 = A).
    { unfold A. rewrite M1, <- X5.
      replace (Z.pos k + 5) with (5 + Z.pos k) by lia.
      rewrite (Z.pow_add_r 2 5) by lia. lia. }
    lia. }
  rewrite EA.
  destruct (div_25_scaled A) as [-> ->].
  assert (HA : A = 25 * (A / 25) + A mod 25) by (apply Z.div_mod; lia).
  assert (Hr : 0 <= A mod 25 < 25) by (apply Z.mod_pos_bound; lia).
  assert (Q : 2 ^ 52 <= A / 25 < 2 ^ 54) by lia.
  destruct (A / 25) as [|q|q] eqn:EQ; [lia| |lia].
  destruct (Z_lt_le_dec (Z.pos q) (2 ^ 53)) as [L|L].
  - pose proof (round_div_53 A) as G. cbv zeta in G. rewrite EQ in G.
    destruct G as [G1 G2].
    destruct (round_nearest_even (Z.pos q) _) as [|m|m] eqn:EM; [lia| |lia].
    rewrite (binary_round_aux_53 s q m); [|lia|lia|exact EM].
    destruct (Z.ltb_spec (Z.pos m) (2 ^ 53)) as [C|C].
    + exists m, (Z.neg k - 5). split; [reflexivity|].
      apply (millionths_near _ _ _ (4 * X)); [lia| |].
      * rewrite <- X5. f_equal; lia.
      * unfold A in *. lia.
    + exists (Z.to_pos (2 ^ 52)), (Z.neg k - 5 + 1). split; [reflexivity|].
      apply (millionths_near _ _ _ (2 * X)); [lia| |].
      * rewrite <- X4. f_equal; lia.
      * change (Z.pos (Z.to_pos (2 ^ 52))) with (2 ^ 52).
        unfold A in *. lia.
  - pose proof (round_div_54 A q EQ) as G. cbv zeta in G.
    destruct G as [G1 G2].
    destruct (round_nearest_even _ _) as [|m|m] eqn:EM in G1, G2.
    + assert (2 ^ 52 <= Z.pos q / 2) by (apply Z.div_le_lower_bound; lia). lia.
    + rewrite (binary_round_aux_54 s q m); [|lia|lia|exact EM|exact G1].
      destruct (Z.ltb_spec (Z.pos m) (2 ^ 53)) as [C|C].
      * exists m, (Z.neg k - 5 + 1). split; [reflexivity|].
        apply (millionths_near _ _ _ (2 * X)); [lia| |].
        -- rewrite <- X4. f_equal; lia.
        -- unfold A in *. lia.
      * exists (Z.to_pos (2 ^ 52)), (Z.neg k - 5 + 1 + 1). split; [reflexivity|].
        apply (millionths_near _ _ _ X); [lia| |].
        -- unfold X. f_equal; lia.
        -- change (Z.pos (Z.to_pos (2 ^ 52))) with (2 ^ 52).
           assert (Z.pos q / 2 < 2 ^ 53) by (apply Z.div_lt_upper_bound; lia).
           unfold A in *. lia.
    + assert (2 ^ 52 <= Z.pos q / 2) by (apply Z.div_le_lower_bound; lia). lia.
Qed.

End FloatFacts.

(* ===================================================================== *)
(** ** The time attribute *)
(* ===================================================================== *)

Module TimeFacts.

Import PyFloat.

Lemma int_truediv_25 (n : Z) :
  n <> 0 -> Z.abs n < 2 ^ 32 ->
  exists (m : positive) (e : Z),
    int_truediv n float_25 = Some (S754_finite (n <? 0) m e) /\
    millionths m e = 40000 * Z.abs n.
Proof.
  intros N B. unfold int_truediv, of_int.
  destruct n as [|p|p]; [congruence| |]; cbn [binary_normalize Z.ltb Z.compare Z.abs].
  - destruct (FloatFacts.truediv_25_nonzero false p B) as (m & e & D & K).
    destruct (FloatFacts.binary_round_int false p B) as (m1 & k & R & _).
    rewrite R in *. exists m, e. cbv beta iota. rewrite D.
    split; [reflexivity|exact K].
  - destruct (FloatFacts.truediv_25_nonzero true p B) as (m & e & D & K).
    destruct (FloatFacts.binary_round_int true p B) as (m1 & k & R & _).
    rewrite R in *. exists m, e. cbv beta iota. rewrite D.
    split; [reflexivity|exact K].
Qed.

(** The time of a frame is the exact quotient by 25, in millionths. *)
Lemma frame_time_exact (frame start : Z) :
  Z.abs (frame - start) < 2 ^ 32 ->
  frame_time frame start =
    Some (sign_str (frame - start <? 0)%Z
            ++ fixed6 (40000 * Z.abs (frame - start))%Z)%string.
Proof.
  intros B. unfold frame_time.
  destruct (Z.eq_dec (frame - start) 0) as [E|E].
  - rewrite E. reflexivity.
  - destruct (int_truediv_25 _ E B) as (m & e & -> & K).
    cbn [fmt_f]. now rewrite K.
Qed.

Lemma fixed6_quotient (a : Z) :
  fixed6 (40000 * a) =
    (PyFmt.fmt_d (a / 25)%Z ++ "." ++ PyFmt.fmt_0d 6 (40000 * (a mod 25))%Z)%string.
Proof.
  unfold fixed6. change 1000000 with (40000 * 25).
  rewrite Z.div_mul_cancel_l, Z.mul_mod_distr_l by lia. reflexivity.
Qed.

Lemma all_six_digits_spec (k : nat) (r : Z) :
  all_six_digits k = true -> 0 <= r < Z.of_nat k ->
  String.length (PyFmt.fmt_0d 6 (40000 * r)) = 6%nat.
Proof.
  unfold all_six_digits. intros A H. rewrite forallb_forall in A.
  specialize (A (Z.to_nat r)). rewrite Z2Nat.id in A by lia.
  apply Nat.eqb_eq, A. apply in_seq. lia.
Qed.

Lemma all_six_digits_25 : all_six_digits 25 = true.
Proof. vm_compute. reflexivity. Qed.

Lemma fraction_length (a : Z) :
  String.length (PyFmt.fmt_0d 6 (40000 * (a mod 25))) = 6%nat.
Proof.
  apply (all_six_digits_spec 25 _ all_six_digits_25).
  pose proof (Z.mod_pos_bound a 25). lia.
Qed.

End TimeFacts.

(** C2. For a frame [F] exported with start frame [S] (frame numbers being
    host integers, their difference is below 2^32 in magnitude), the
    [time] attribute written by [output_frame] is the value of
    [(F - S) / 25.0] under ["%f"]: the sign, the integer part of
    |F - S| / 25, a point, and exactly six digits that read as the rest in
    millionths (40000 per frame).  For [F = S] it is "0.000000".  The
    line that carries it is the first thing [output_frame] does: when its
    write returns the line is in the index, followed, when the cursor
    move returns, by the move and the exporter call. *)
Theorem frame_time_attribute (self : operator) (F S : Z) :
  Z.abs (F - S) < 2 ^ 32 ->
  let a := Z.abs (F - S) in
  let whole := PyFmt.fmt_d (a / 25) in
  let frac := PyFmt.fmt_0d 6 (40000 * (a mod 25)) in
  let time := (PyFloat.sign_str (F - S <? 0)%Z ++ whole ++ "." ++ frac)%string in
  let line := ("  <frame file_name=" ++ dquote ++ frame_basename self F
                 ++ dquote ++ " time=" ++ dquote ++ time ++ dquote
                 ++ " />" ++ nl)%string in
  option_map PyFloat.fmt_f (PyFloat.int_truediv (F - S) PyFloat.float_25)
    = Some time /\
  (forall (exc : Type) (h : host exc) (tr : trace),
     snd (output_frame h self F S tr) =
       (tr ++ match write_raises h tr line with
              | Some _ => []
              | None =>
                  EvWrite line
                  :: match frame_set_raises h (tr ++ [EvWrite line]) F with
                     | Some _ => []
                     | None => [EvFrameSet F; EvExportX3d (frame_x3d_args self F)]
                     end
              end)%list) /\
  PyFmt.parse_int whole = Some (a / 25) /\
  PyFmt.parse_int frac = Some (40000 * (a mod 25)) /\
  String.length frac = 6%nat /\
  (F = S -> time = "0.000000"%string).
Proof.
  intros B a whole frac time line.
  pose proof (TimeFacts.frame_time_exact F S B) as T.
  fold a in T. rewrite TimeFacts.fixed6_quotient in T.
  fold whole frac time in T.
  split.
  { unfold frame_time in T.
    destruct (PyFloat.int_truediv (F - S) PyFloat.float_25); [exact T|discriminate]. }
  split.
  { intros exc h tr. rewrite output_frame_run.
    unfold frame_events, frame_write_events, index_line. rewrite T.
    fold (frame_line (frame_basename self F) time).
    change line with (frame_line (frame_basename self F) time).
    destruct (write_raises h tr _); [symmetry; apply List.app_nil_r|].
    destruct (frame_set_raises h _ F); [reflexivity|].
    destruct (x3d_raises h _ _); reflexivity. }
  split; [apply PyFmtFacts.parse_fmt_0d|].
  split; [apply PyFmtFacts.parse_fmt_0d|].
  split; [apply TimeFacts.fraction_length|].
  intros ->. unfold time, frac, whole, a.
  replace (S - S) with 0 by lia. reflexivity.
Qed.

Lemma frame_time_attribute_witness :
  Z.abs (12 - 0) < 2 ^ 32 /\
  option_map PyFloat.fmt_f (PyFloat.int_truediv (12 - 0) PyFloat.float_25)
    = Some "0.480000"%string.
Proof.
  assert (B : Z.abs (12 - 0) < 2 ^ 32) by (cbn; lia).
  split; [exact B|].
  exact (proj1 (frame_time_attribute walk 12 0 B)).
Defined.

(* ===================================================================== *)
(** ** A reversed frame range *)
(* ===================================================================== *)

Section ReversedRange.

Variable exc : Type.
Variable h : host exc.

(** C10. With [frame_end < frame_start] the loop runs zero times: the run
    is the prologue, one [output_frame] for [frame_end], and the epilogue.
    Whatever the outcome, the only frame visited is [frame_end]; a
    finished run wrote exactly one frame line and exported exactly one
    model file, for [frame_end]; and the run does finish when the index
    file and the cursor work and neither [open] nor the exporter call for
    [frame_end] raises. *)
Theorem reversed_range_exports_end_only self sc :
  frame_end sc < frame_start sc ->
  execute h self sc [] =
    (py_open h (filepath self) ;;
     file_write h xml_prolog ;;
     file_write h animation_open ;;
     output_frame h self (frame_end sc) (frame_start sc) ;;
     file_write h animation_close ;;
     file_close h ;;
     ret FINISHED) [] /\
  (forall out tr,
     execute h self sc [] = (out, tr) ->
     forall f, In f (frames_set tr) -> f = frame_end sc) /\
  (forall tr,
     execute h self sc [] = (Done FINISHED, tr) ->
     tr = complete_trace self (frame_start sc) [frame_end sc] /\
     frames_set tr = [frame_end sc] /\
     exported_paths tr = [x3d_filepath (frame_x3d_args self (frame_end sc))] /\
     file_text tr =
       (xml_prolog ++ animation_open
          ++ index_line self (frame_start sc) (frame_end sc)
          ++ animation_close)%string) /\
  (Z.abs (frame_end sc - frame_start sc) < 2 ^ 32 ->
   file_works h -> cursor_works h ->
   open_raises h (filepath self) = None ->
   x3d_raises h (history_at_export self (frame_start sc) [] (frame_end sc))
              (frame_x3d_args self (frame_end sc)) = None ->
   execute h self sc [] =
     (Done FINISHED, complete_trace self (frame_start sc) [frame_end sc])).
Proof.
  intros H.
  pose proof (sampler_reversed_range_frames _ _ (frame_skip self) H) as S'.
  assert (L : stride_frames (loop_bound sc) (frame_start sc) (frame_end sc)
                (frame_skip self) = Some []).
  { unfold loop_bound.
    replace (Z.to_nat (frame_end sc - frame_start sc)) with 0%nat by lia.
    cbn [stride_frames].
    destruct (Z.ltb_spec (frame_start sc) (frame_end sc)); [lia|reflexivity]. }
  assert (E : execute h self sc [] =
                (py_open h (filepath self) ;;
                 file_write h xml_prolog ;;
                 file_write h animation_open ;;
                 output_frame h self (frame_end sc) (frame_start sc) ;;
                 file_write h animation_close ;;
                 file_close h ;;
                 ret FINISHED) []).
  { rewrite (execute_frames _ _ _ _ _ L). cbn [app output_frames].
    unfold bind, ret.
    destruct (py_open h (filepath self) []) as [[[]|e|] t1];
      [|reflexivity|reflexivity].
    destruct (file_write h xml_prolog t1) as [[[]|e|] t2];
      [|reflexivity|reflexivity].
    destruct (file_write h animation_open t2) as [[[]|e|] t3];
      [|reflexivity|reflexivity].
    destruct (output_frame h self (frame_end sc) (frame_start sc) t3)
      as [[[]|e|] t4]; reflexivity. }
  split; [exact E|]. split; [|split].
  - intros out tr. rewrite E.
    unfold bind at 1. unfold py_open.
    destruct (open_raises h (filepath self)); [intros [= <- <-] f []|].
    unfold emit. cbn [app].
    unfold bind at 1. unfold file_write at 1.
    destruct (write_raises h _ xml_prolog); [intros [= <- <-] f []|].
    cbn [app]. unfold bind at 1. unfold file_write at 1.
    destruct (write_raises h _ animation_open); [intros [= <- <-] f []|].
    cbn [app]. fold (prologue_events self).
    unfold bind at 1. rewrite output_frame_run.
    assert (K : forall tail f,
              frames_set tail = [] ->
              In f (frames_set
                      (prologue_events self
                         ++ frame_events self (frame_start sc) (frame_end sc)
                         ++ tail)) ->
              f = frame_end sc).
    { intros tail f Ht. rewrite !frames_set_app, Ht. unfold frame_events.
      destruct (frame_time (frame_end sc) (frame_start sc)); cbn; intuition. }
    destruct (frame_time (frame_end sc) (frame_start sc)) eqn:T;
      [|intros [= <- <-] f []].
    destruct (write_raises h _ (index_line _ _ _)); [intros [= <- <-] f []|].
    destruct (frame_set_raises h _ _).
    { intros [= <- <-] f Hf. unfold frame_write_events in Hf. rewrite T in Hf.
      cbn [app frames_set In] in Hf. contradiction. }
    destruct (x3d_raises h _ _).
    { intros [= <- <-] f Hf. apply (K [] f eq_refl).
      rewrite List.app_nil_r. exact Hf. }
    unfold bind at 1. unfold file_write at 1.
    destruct (write_raises h _ animation_close).
    { intros [= <- <-] f Hf. apply (K [] f eq_refl).
      rewrite List.app_nil_r. exact Hf. }
    unfold bind, file_close, ret.
    destruct (close_raises h _); intros [= <- <-] f Hf.
    + apply (K [EvWrite animation_close] f eq_refl).
      rewrite <- ?List.app_assoc in Hf. exact Hf.
    + apply (K [EvWrite animation_close; EvClose] f eq_refl).
      rewrite <- ?List.app_assoc in Hf. exact Hf.
  - intros tr R.
    pose proof (execute_inv _ _ _ _ _ _ _ S' R) as (_ & -> & F).
    split; [reflexivity|].
    split.
    { unfold complete_trace.
      rewrite !frames_set_app, frames_set_frames by exact F. reflexivity. }
    split.
    { unfold complete_trace.
      rewrite !exported_paths_app, exported_paths_frames by exact F. reflexivity. }
    rewrite file_text_complete. cbn [map concat_lines].
    now rewrite string_app_nil_r.
  - intros B [W Cl] Cu O X.
    pose proof (TimeFacts.frame_time_exact (frame_end sc) (frame_start sc) B) as T.
    apply (execute_replay _ _ _ _ _ S').
    + constructor; [congruence|constructor].
    + unfold complete_trace, prologue_events, epilogue_events.
      unfold history_at_export, prologue_events, frame_pre_events in X.
      unfold frame_events. cbn [flat_map] in *. rewrite T in *.
      cbn [app calls_return call_raises] in *.
      rewrite O, !W, !Cu, X, Cl. reflexivity.
Qed.

End ReversedRange.

(* ===================================================================== *)
(** ** Concrete runs *)
(* ===================================================================== *)

(** The index file of [good_run], character for character. *)
Example good_run_index_text :
  fst good_run = Done FINISHED /\
  file_text (snd good_run) =
    ("<?xml version=" ++ dquote ++ "1.0" ++ dquote ++ "?>" ++ nl
     ++ "<animation>" ++ nl
     ++ "  <frame file_name=" ++ dquote ++ "walk0000.x3d" ++ dquote
     ++ " time=" ++ dquote ++ "0.000000" ++ dquote ++ " />" ++ nl
     ++ "  <frame file_name=" ++ dquote ++ "walk0005.x3d" ++ dquote
     ++ " time=" ++ dquote ++ "0.200000" ++ dquote ++ " />" ++ nl
     ++ "  <frame file_name=" ++ dquote ++ "walk0010.x3d" ++ dquote
     ++ " time=" ++ dquote ++ "0.400000" ++ dquote ++ " />" ++ nl
     ++ "  <frame file_name=" ++ dquote ++ "walk0012.x3d" ++ dquote
     ++ " time=" ++ dquote ++ "0.480000" ++ dquote ++ " />" ++ nl
     ++ "</animation>" ++ nl)%string /\
  exported_paths (snd good_run) =
    ["/tmp/walk0000.x3d"; "/tmp/walk0005.x3d"; "/tmp/walk0010.x3d";
     "/tmp/walk0012.x3d"]%string.
Proof. repeat split; vm_compute; reflexivity. Qed.

(** File names around the four-digit boundary: the width is a minimum. *)
Example frame_basename_examples :
  frame_basename walk 7 = "walk0007.x3d"%string /\
  frame_basename walk 9999 = "walk9999.x3d"%string /\
  frame_basename walk 10000 = "walk10000.x3d"%string /\
  frame_basename walk 123456 = "walk123456.x3d"%string /\
  frame_basename walk (-5) = "walk-005.x3d"%string.
Proof. repeat split; vm_compute; reflexivity. Qed.

(** Times of a few frames, and of a frame before the start. *)
Example frame_time_examples :
  frame_time 0 0 = Some "0.000000"%string /\
  frame_time 1 0 = Some "0.040000"%string /\
  frame_time 30 5 = Some "1.000000"%string /\
  frame_time 300000 0 = Some "12000.000000"%string /\
  frame_time 3 5 = Some "-0.080000"%string.
Proof. repeat split; vm_compute; reflexivity. Qed.

Lemma sampler_contract_witness :
  0 <= 12 /\ 0 <= 4 /\
  sampled_frames 0 12 4 = Some (spec_sampler 0 12 4) /\
  NoDup (spec_sampler 0 12 4).
Proof.
  assert (H1 : 0 <= 12) by lia. assert (H2 : 0 <= 4) by lia.
  split; [exact H1|]. split; [exact H2|].
  destruct (sampler_contract 0 12 4 H1 H2) as (S' & _ & _ & N & _).
  split; [exact S'|exact N].
Defined.

Lemma sampler_reversed_range_witness :
  3 < 5 /\ sampled_frames 5 3 4 = Some [3].
Proof.
  assert (H : 3 < 5) by lia.
  split; [exact H|exact (sampler_reversed_range 5 3 4 H)].
Defined.

Lemma index_document_structure_witness :
  execute working_host walk scene_0_12 [] = (Done FINISHED, snd good_run) /\
  exists frames,
    sampled_frames 0 12 4 = Some frames /\
    file_text (snd good_run) =
      (("<?xml version=" ++ dquote ++ "1.0" ++ dquote ++ "?>" ++ nl)
         ++ ("<animation>" ++ nl)
         ++ concat_lines (map (index_line walk 0) frames)
         ++ ("</animation>" ++ nl))%string.
Proof.
  assert (H : execute working_host walk scene_0_12 [] = (Done FINISHED, snd good_run))
    by (vm_compute; reflexivity).
  split; [exact H|].
  destruct (index_document_structure string working_host walk scene_0_12 _ H)
    as (frames & S' & _ & T).
  exists frames. split; [exact S'|exact T].
Defined.

(** C7, refuted as stated: the exporter raises on frame 5 and the index
    file, opened at the start of the run, is never closed. *)
Lemma kanim_file_left_open :
  fst failing_run = Raised (ExportError "RuntimeError"%string) /\
  file_opened (snd failing_run) = true /\
  file_closed (snd failing_run) = false.
Proof. repeat split; vm_compute; reflexivity. Qed.

Lemma kanim_file_closed_only_on_success_witness :
  execute (failing_host 5) walk scene_0_12 [] =
    (Raised (ExportError "RuntimeError"%string), snd failing_run) /\
  file_opened (snd failing_run) = true /\
  file_closed (snd failing_run) = false.
Proof.
  assert (H : execute (failing_host 5) walk scene_0_12 [] =
                (Raised (ExportError "RuntimeError"%string), snd failing_run))
    by (vm_compute; reflexivity).
  split; [exact H|].
  exact (kanim_file_closed_only_on_success string (failing_host 5)
           walk scene_0_12 _ _ H).
Defined.

Lemma exporter_failure_aborts_witness :
  sampled_frames 0 12 4 = Some [0; 5; 10; 12] /\
  calls_return (failing_host 5) [] (history_at_export walk 0 [0] 5) = true /\
  x3d_raises (failing_host 5) (history_at_export walk 0 [0] 5)
             (frame_x3d_args walk 5) = Some "RuntimeError"%string /\
  execute (failing_host 5) walk scene_0_12 [] =
    (Raised (ExportError "RuntimeError"%string), aborted_trace walk 0 [0] 5) /\
  exported_paths (aborted_trace walk 0 [0] 5) =
    map (fun f => x3d_filepath (frame_x3d_args walk f)) [0; 5] /\
  ~ In (EvWrite animation_close) (aborted_trace walk 0 [0] 5).
Proof.
  assert (S' : sampled_frames (frame_start scene_0_12) (frame_end scene_0_12)
                 (frame_skip walk) = Some [0; 5; 10; 12])
    by (vm_compute; reflexivity).
  assert (F : Forall (fun f => frame_time f (frame_start scene_0_12) <> None)
                     ([0] ++ [5]))
    by (repeat constructor; vm_compute; discriminate).
  assert (I : calls_return (failing_host 5) []
                (history_at_export walk (frame_start scene_0_12) [0] 5) = true)
    by (vm_compute; reflexivity).
  assert (X : x3d_raises (failing_host 5)
                (history_at_export walk (frame_start scene_0_12) [0] 5)
                (frame_x3d_args walk 5) = Some "RuntimeError"%string)
    by (vm_compute; reflexivity).
  split; [exact S'|]. split; [exact I|]. split; [exact X|].
  destruct (exporter_failure_aborts string (failing_host 5) walk scene_0_12 _ S')
    as [A _].
  destruct (A [0] 5 [10; 12] "RuntimeError"%string eq_refl F I X) as (R & P & N & _).
  split; [exact R|]. split; [exact P|exact N].
Defined.

Lemma index_line_precedes_export_witness :
  sampled_frames 0 12 4 = Some [0; 5; 10; 12] /\
  execute (failing_host 5) walk scene_0_12 [] =
    (Raised (ExportError "RuntimeError"%string), snd failing_run) /\
  exists before frame after time,
    [0; 5; 10; 12] = before ++ frame :: after /\
    frame_time frame 0 = Some time /\
    file_text (snd failing_run) =
      (xml_prolog ++ animation_open
         ++ concat_lines (map (index_line walk 0) before)
         ++ frame_line (frame_basename walk frame) time)%string.
Proof.
  assert (S' : sampled_frames (frame_start scene_0_12) (frame_end scene_0_12)
                 (frame_skip walk) = Some [0; 5; 10; 12])
    by (vm_compute; reflexivity).
  assert (H : execute (failing_host 5) walk scene_0_12 [] =
                (Raised (ExportError "RuntimeError"%string), snd failing_run))
    by (vm_compute; reflexivity).
  split; [exact S'|]. split; [exact H|].
  destruct (index_line_precedes_export string (failing_host 5)
              walk scene_0_12 _ _ _ S' H)
    as (b & f & a & t & E & T & _ & X).
  exists b, f, a, t. repeat split; assumption.
Defined.

Lemma reversed_range_exports_end_only_witness :
  frame_end scene_5_3 < frame_start scene_5_3 /\
  execute working_host walk scene_5_3 [] =
    (Done FINISHED, complete_trace walk 5 [3]) /\
  frames_set (complete_trace walk 5 [3]) = [3].
Proof.
  assert (H : frame_end scene_5_3 < frame_start scene_5_3) by (cbn; lia).
  split; [exact H|].
  destruct (reversed_range_exports_end_only string working_host walk scene_5_3 H)
    as (_ & _ & D & E).
  assert (R : execute working_host walk scene_5_3 [] =
                (Done FINISHED, complete_trace walk 5 [3])).
  { apply E; [cbn; lia|split; reflexivity|intros tr f; reflexivity
             |reflexivity|reflexivity]. }
  split; [exact R|].
  destruct (D _ R) as (_ & F & _). exact F.
Defined.

(** The reversed run does finish, with the single frame 3 at a negative
    time. *)
Example reversed_run_index_text :
  fst reversed_run = Done FINISHED /\
  frames_set (snd reversed_run) = [3] /\
  file_text (snd reversed_run) =
    (xml_prolog ++ animation_open
     ++ "  <frame file_name=" ++ dquote ++ "walk0003.x3d" ++ dquote
     ++ " time=" ++ dquote ++ "-0.080000" ++ dquote ++ " />" ++ nl
     ++ animation_close)%string.
Proof. repeat split; vm_compute; reflexivity. Qed.

(** On a full device the run stops in [close]: every line was handed to
    [write], the closing tag included, and the file is not closed. *)
Example full_device_run_stops_in_close :
  fst full_device_run = Raised (CloseError "OSError"%string) /\
  file_text (snd full_device_run) = file_text (snd good_run) /\
  exported_paths (snd full_device_run) = exported_paths (snd good_run) /\
  file_closed (snd full_device_run) = false.
Proof. repeat split; vm_compute; reflexivity. Qed.

(** A file name that cannot be encoded stops the run in the write of the
    first frame line: the index holds its two heading lines, and nothing
    was exported. *)
Example strict_encoding_run_stops_in_write :
  fst strict_encoding_run = Raised (WriteError "UnicodeEncodeError"%string) /\
  file_text (snd strict_encoding_run) = (xml_prolog ++ animation_open)%string /\
  frames_set (snd strict_encoding_run) = [] /\
  exported_paths (snd strict_encoding_run) = [].
Proof. repeat split; vm_compute; reflexivity. Qed.

(* ===================================================================== *)
(** ** More on the sampled frames *)
(* ===================================================================== *)

(** The loop count is the quotient rounded up. *)
Lemma iterations_ceiling (start end_ skip : Z) :
  0 <= skip -> start < end_ ->
  let k := Z.of_nat (iterations end_ skip start) in
  (k - 1) * (skip + 1) < end_ - start <= k * (skip + 1).
Proof.
  intros Hs Hl k. unfold k, iterations.
  assert (Hq : 0 <= (end_ - start + skip) / (skip + 1)) by (apply Z.div_pos; lia).
  rewrite Z2Nat.id by exact Hq.
  assert (Hd : end_ - start + skip =
               (skip + 1) * ((end_ - start + skip) / (skip + 1))
               + (end_ - start + skip) mod (skip + 1))
    by (apply Z.div_mod; lia).
  assert (Hr : 0 <= (end_ - start + skip) mod (skip + 1) < skip + 1)
    by (apply Z.mod_pos_bound; lia).
  nia.
Qed.

Lemma stride_member (start end_ skip f : Z) :
  0 <= skip ->
  In f (map (fun i => start + Z.of_nat i * (skip + 1))
            (seq 0 (iterations end_ skip start))) <->
  start <= f < end_ /\ (f - start) mod (skip + 1) = 0.
Proof.
  intros Hs. rewrite in_map_iff. split.
  - intros (i & <- & Hi). apply in_seq in Hi.
    destruct (Z_lt_le_dec start end_) as [L|L].
    + pose proof (iterations_ceiling start end_ skip Hs L) as C. cbv zeta in C.
      split; [nia|].
      replace (start + Z.of_nat i * (skip + 1) - start)
        with (Z.of_nat i * (skip + 1)) by lia.
      apply Z.mod_mul. lia.
    + rewrite iterations_done in Hi by lia. lia.
  - intros [[L U] M].
    assert (L' : start < end_) by lia.
    pose proof (iterations_ceiling start end_ skip Hs L') as C. cbv zeta in C.
    assert (Hd : f - start = (skip + 1) * ((f - start) / (skip + 1)) + (f - start) mod (skip + 1))
      by (apply Z.div_mod; lia).
    assert (Hq : 0 <= (f - start) / (skip + 1)) by (apply Z.div_pos; lia).
    exists (Z.to_nat ((f - start) / (skip + 1))). split.
    + rewrite Z2Nat.id by exact Hq. lia.
    + apply in_seq. split; [lia|]. cbn [Nat.add].
      apply Nat2Z.inj_lt. rewrite Z2Nat.id by exact Hq. nia.
Qed.

(** X1. Which frames are exported: [end], and the frames from [start] up to,
    not including, [end] that lie a whole number of strides after
    [start]. *)
Theorem sampled_frames_members (start end_ skip : Z) (l : list Z) (f : Z) :
  0 <= skip ->
  sampled_frames start end_ skip = Some l ->
  (In f l <-> f = end_ \/ (start <= f < end_ /\ (f - start) mod (skip + 1) = 0)).
Proof.
  intros Hs S'. rewrite sampled_frames_closed in S' by exact Hs.
  injection S' as <-. rewrite in_app_iff, stride_member by exact Hs.
  cbn [In]. intuition.
Qed.

Lemma sampled_frames_members_witness :
  0 <= 4 /\ sampled_frames 0 12 4 = Some [0; 5; 10; 12] /\
  (In 10 [0; 5; 10; 12] <-> 10 = 12 \/ (0 <= 10 < 12 /\ (10 - 0) mod (4 + 1) = 0)).
Proof.
  assert (Hs : 0 <= 4) by lia.
  assert (S' : sampled_frames 0 12 4 = Some [0; 5; 10; 12]) by (vm_compute; reflexivity).
  split; [exact Hs|]. split; [exact S'|].
  exact (sampled_frames_members 0 12 4 _ 10 Hs S').
Defined.

(** X2. How many frames are exported: the stride count, rounded up, plus the
    final frame. *)
Theorem sampled_frames_count (start end_ skip : Z) (l : list Z) :
  0 <= skip -> start <= end_ ->
  sampled_frames start end_ skip = Some l ->
  Z.of_nat (List.length l) = (end_ - start + skip) / (skip + 1) + 1.
Proof.
  intros Hs Hl S'. rewrite sampled_frames_closed in S' by exact Hs.
  injection S' as <-.
  rewrite length_app, length_map, length_seq. cbn [List.length].
  unfold iterations. rewrite Nat2Z.inj_add, Z2Nat.id; [reflexivity|].
  apply Z.div_pos; lia.
Qed.

Lemma sampled_frames_count_witness :
  0 <= 4 /\ 0 <= 12 /\ sampled_frames 0 12 4 = Some [0; 5; 10; 12] /\
  Z.of_nat (List.length [0; 5; 10; 12]) = (12 - 0 + 4) / (4 + 1) + 1.
Proof.
  assert (Hs : 0 <= 4) by lia. assert (Hl : 0 <= 12) by lia.
  assert (S' : sampled_frames 0 12 4 = Some [0; 5; 10; 12]) by (vm_compute; reflexivity).
  split; [exact Hs|]. split; [exact Hl|]. split; [exact S'|].
  exact (sampled_frames_count 0 12 4 _ Hs Hl S').
Defined.

(** X3. Two consecutive exported frames are never more than [skip + 1] apart
    (the bound of what the player has to interpolate), the forced last
    step included. *)
Theorem sampled_frames_gap (start end_ skip : Z) (l : list Z) (i : nat) :
  0 <= skip -> start <= end_ ->
  sampled_frames start end_ skip = Some l ->
  (S i < List.length l)%nat ->
  0 < nth (S i) l 0 - nth i l 0 <= skip + 1.
Proof.
  intros Hs Hl S' Hi. rewrite sampled_frames_closed in S' by exact Hs.
  injection S' as <-.
  rewrite length_app, length_map, length_seq in Hi. cbn [List.length] in Hi.
  set (k := iterations end_ skip start) in *.
  set (g := fun i : nat => start + Z.of_nat i * (skip + 1)).
  assert (Lg : List.length (map g (seq 0 k)) = k) by (rewrite length_map, length_seq; reflexivity).
  assert (Ni : nth i (map g (seq 0 k) ++ [end_]) 0 = g i).
  { rewrite app_nth1 by lia. apply nth_map_seq. lia. }
  rewrite Ni.
  destruct (Nat.eq_dec (S i) k) as [E|E].
  - rewrite app_nth2 by lia. rewrite Lg, E, Nat.sub_diag. cbn [nth].
    assert (L : start < end_).
    { destruct (Z_lt_le_dec start end_) as [|G]; [assumption|].
      unfold k in E. rewrite iterations_done in E by lia. discriminate. }
    pose proof (iterations_ceiling start end_ skip Hs L) as C. cbv zeta in C.
    fold k in C. unfold g. nia.
  - rewrite app_nth1 by lia. rewrite nth_map_seq by lia. unfold g. lia.
Qed.

Lemma sampled_frames_gap_witness :
  0 <= 4 /\ 0 <= 12 /\ sampled_frames 0 12 4 = Some [0; 5; 10; 12] /\
  (3 < List.length [0; 5; 10; 12])%nat /\
  0 < nth 3 [0; 5; 10; 12] 0 - nth 2 [0; 5; 10; 12] 0 <= 4 + 1.
Proof.
  assert (Hs : 0 <= 4) by lia. assert (Hl : 0 <= 12) by lia.
  assert (S' : sampled_frames 0 12 4 = Some [0; 5; 10; 12]) by (vm_compute; reflexivity).
  assert (Hi : (3 < List.length [0; 5; 10; 12])%nat) by (cbn; lia).
  split; [exact Hs|]. split; [exact Hl|]. split; [exact S'|]. split; [exact Hi|].
  exact (sampled_frames_gap 0 12 4 _ 2 Hs Hl S' Hi).
Defined.

(* ===================================================================== *)
(** ** The shape of every run *)
(* ===================================================================== *)

Lemma body_frame_events self start frame :
  forallb is_body_event (frame_events self start frame) = true.
Proof. unfold frame_events. destruct (frame_time frame start); reflexivity. Qed.

Lemma body_frames self start frames :
  forallb is_body_event (flat_map (frame_events self start) frames) = true.
Proof.
  induction frames as [|f frames IH]; cbn [flat_map]; [reflexivity|].
  now rewrite forallb_app, body_frame_events, IH.
Qed.

(** An exporter call among the events of whole frames comes right after
    the index line and the cursor move of its own frame. *)
Lemma export_in_frames self start fs (tail : trace) :
  Forall (fun f => frame_time f start <> None) fs ->
  existsb is_export tail = false ->
  forall pre a post,
    flat_map (frame_events self start) fs ++ tail = pre ++ EvExportX3d a :: post ->
    exists pre' f time,
      frame_time f start = Some time /\
      pre = pre' ++ [EvWrite (frame_line (frame_basename self f) time); EvFrameSet f] /\
      a = frame_x3d_args self f.
Proof.
  intros F NT. induction F as [|f fs Hf F IH]; intros pre a post E.
  - cbn [flat_map app] in E. exfalso.
    assert (I : In (EvExportX3d a) tail) by (rewrite E; apply in_elt).
    assert (X : existsb is_export tail = true)
      by (apply existsb_exists; exists (EvExportX3d a); now split).
    congruence.
  - cbn [flat_map] in E. rewrite <- List.app_assoc in E.
    unfold frame_events at 1 in E.
    destruct (frame_time f start) as [t|] eqn:T; [|congruence].
    cbn [app] in E.
    destruct pre as [|p0 [|p1 [|p2 pre]]]; cbn [app] in E.
    + discriminate.
    + discriminate.
    + injection E as E0 E1 E2 _. subst p0 p1 a.
      exists [], f, t. repeat split. exact T.
    + injection E as E0 E1 E2 E. subst p0 p1 p2.
      destruct (IH _ _ _ E) as (pre' & g & t' & T' & -> & ->).
      exists (EvWrite (frame_line (frame_basename self f) t) :: EvFrameSet f
                :: EvExportX3d (frame_x3d_args self f) :: pre'), g, t'.
      repeat split. exact T'.
Qed.

Lemma body_frame_write_events self start frame :
  forallb is_body_event (frame_write_events self start frame) = true /\
  existsb is_export (frame_write_events self start frame) = false.
Proof.
  unfold frame_write_events. destruct (frame_time frame start); split; reflexivity.
Qed.

(** An exporter call is not among events that are not exporter calls. *)
Lemma export_after_quiet (hd rest pre : trace) a (post : trace) :
  existsb is_export hd = false ->
  hd ++ rest = pre ++ EvExportX3d a :: post ->
  exists pre', pre = hd ++ pre' /\ rest = pre' ++ EvExportX3d a :: post.
Proof.
  revert pre. induction hd as [|x hd IH]; intros pre Q E.
  - now exists pre.
  - cbn [existsb] in Q. apply orb_false_elim in Q. destruct Q as [Qx Q].
    destruct pre as [|p pre]; cbn [app] in E; injection E as Ex E.
    + subst x. discriminate Qx.
    + subst p. destruct (IH _ Q E) as (pre' & -> & ->). now exists pre'.
Qed.

Section RunShape.

Variable exc : Type.
Variable h : host exc.

(** Whatever its outcome and its fuel, the loop adds the events of whole
    frames, each of them before [frame_end], and then, when it stopped in
    a cursor move, the index line of the frame it stopped in. *)
Lemma frame_loop_shape fuel : forall self sc frame tr out tr',
  frame_loop h fuel self sc frame tr = (out, tr') ->
  exists fs part,
    tr' = tr ++ flat_map (frame_events self (frame_start sc)) fs ++ part /\
    Forall (fun f => frame_time f (frame_start sc) <> None) fs /\
    Forall (fun f => f < frame_end sc) fs /\
    forallb is_body_event part = true /\
    existsb is_export part = false /\
    (out = Done tt -> part = []).
Proof.
  induction fuel as [|fuel IH]; intros self sc frame tr out tr'; cbn [frame_loop].
  - destruct (frame <? frame_end sc); intros [= <- <-]; exists [], [];
      (split; [now rewrite List.app_nil_r|repeat split; constructor]).
  - destruct (Z.ltb_spec frame (frame_end sc)) as [L|L];
      [|intros [= <- <-]; exists [], [];
        (split; [now rewrite List.app_nil_r|repeat split; constructor])].
    unfold bind. rewrite output_frame_run.
    destruct (frame_time frame (frame_start sc)) as [t|] eqn:T.
    2:{ intros [= <- <-]. exists [], [].
        split; [now rewrite List.app_nil_r|].
        repeat split; try constructor. }
    assert (Tf : frame_time frame (frame_start sc) <> None) by congruence.
    destruct (write_raises h tr _).
    { intros [= <- <-]. exists [], [].
      split; [now rewrite List.app_nil_r|].
      repeat split; try constructor. }
    destruct (frame_set_raises h _ frame).
    { intros [= <- <-]. exists [], (frame_write_events self (frame_start sc) frame).
      split; [reflexivity|].
      split; [constructor|]. split; [constructor|].
      split; [apply body_frame_write_events|].
      split; [apply body_frame_write_events|discriminate]. }
    destruct (x3d_raises h _ _) as [e|].
    + intros [= <- <-]. exists [frame], []. cbn [flat_map].
      rewrite !List.app_nil_r. split; [reflexivity|].
      split; [constructor; [exact Tf|constructor]|].
      split; [constructor; [exact L|constructor]|].
      repeat split.
    + intros H. apply IH in H. destruct H as (fs & part & -> & F1 & F2 & B & Q & D).
      exists (frame :: fs), part. cbn [flat_map]. rewrite <- !List.app_assoc.
      split; [reflexivity|].
      split; [constructor; assumption|].
      split; [constructor; assumption|]. now repeat split.
Qed.

(** A run that got past the heading lines has the shape of a run. *)
Lemma run_shape_intro (self : operator) (sc : scene) (out : outcome exc status)
    (tr : trace) fs tl :
  tr = prologue_events self ++ flat_map (frame_events self (frame_start sc)) fs ++ tl ->
  Forall (fun f => frame_time f (frame_start sc) <> None) fs ->
  existsb is_export tl = false ->
  match out with
  | Done _ =>
      tl = epilogue_events /\
      exists before,
        fs = before ++ [frame_end sc] /\ Forall (fun f => f < frame_end sc) before
  | _ => forallb is_body_event tl = true
  end ->
  run_shape self sc out tr.
Proof.
  intros -> F Q H.
  exists [EvWrite xml_prolog; EvWrite animation_open], fs, tl.
  split; [reflexivity|]. split; [exact F|].
  split; [reflexivity|]. split; [reflexivity|]. split; [exact Q|].
  destruct out as [s|r|]; [split; [reflexivity|exact H]|exact H|exact H].
Qed.

(** Every run of [execute]: nothing at all when [open] raises; otherwise
    the open, what was written of the two heading lines, the events of
    whole frames, and a tail without exporter call, which is the epilogue
    exactly when the run finished, the last frame being [frame_end]
    then. *)
Lemma execute_shape self sc out tr :
  execute h self sc [] = (out, tr) ->
  match open_raises h (filepath self) with
  | Some e => out = Raised (OpenError e) /\ tr = []
  | None => run_shape self sc out tr
  end.
Proof.
  unfold execute, execute_fuel, py_open. unfold bind at 1.
  destruct (open_raises h (filepath self)) as [e|]; [intros [= <- <-]; now split|].
  unfold emit at 1. cbn [app].
  unfold bind at 1. unfold file_write at 1.
  destruct (write_raises h _ xml_prolog).
  { intros [= <- <-]. exists [], [], []. now repeat split. }
  cbn [app]. unfold bind at 1. unfold file_write at 1.
  destruct (write_raises h _ animation_open).
  { intros [= <- <-]. exists [EvWrite xml_prolog], [], []. now repeat split. }
  cbn [app]. fold (prologue_events self). unfold bind at 1.
  destruct (frame_loop _ _ _ _ _ _) as [o tr1] eqn:L.
  apply frame_loop_shape in L. destruct L as (fs & part & -> & F1 & F2 & B & Q & D).
  destruct o as [[]|e|];
    [|intros [= <- <-]; now apply (run_shape_intro _ _ _ _ fs part)
     |intros [= <- <-]; now apply (run_shape_intro _ _ _ _ fs part)].
  rewrite (D eq_refl), List.app_nil_r in *. clear B Q D.
  unfold bind at 1. rewrite output_frame_run.
  destruct (frame_time (frame_end sc) (frame_start sc)) as [t|] eqn:T.
  2:{ intros [= <- <-]. apply (run_shape_intro _ _ _ _ fs []);
        [now rewrite List.app_nil_r|exact F1|reflexivity|reflexivity]. }
  assert (Tf : frame_time (frame_end sc) (frame_start sc) <> None) by congruence.
  assert (F3 : Forall (fun f => frame_time f (frame_start sc) <> None)
                      (fs ++ [frame_end sc]))
    by (apply Forall_app; split; [exact F1|constructor; [exact Tf|constructor]]).
  destruct (write_raises h _ (index_line _ _ _)).
  { intros [= <- <-]. apply (run_shape_intro _ _ _ _ fs []);
      [now rewrite List.app_nil_r|exact F1|reflexivity|reflexivity]. }
  destruct (frame_set_raises h _ _).
  { intros [= <- <-].
    apply (run_shape_intro _ _ _ _ fs
             (frame_write_events self (frame_start sc) (frame_end sc)));
      [now rewrite List.app_assoc|exact F1|apply body_frame_write_events
      |apply body_frame_write_events]. }
  assert (E3 : forall tl : trace,
            ((prologue_events self
                ++ flat_map (frame_events self (frame_start sc)) fs)
               ++ frame_events self (frame_start sc) (frame_end sc)) ++ tl =
            prologue_events self
              ++ flat_map (frame_events self (frame_start sc)) (fs ++ [frame_end sc])
              ++ tl).
  { intros tl. rewrite flat_map_snoc, <- !List.app_assoc. reflexivity. }
  destruct (x3d_raises h _ _).
  { intros [= <- <-]. apply (run_shape_intro _ _ _ _ (fs ++ [frame_end sc]) []);
      [now rewrite <- E3, List.app_nil_r|exact F3|reflexivity|reflexivity]. }
  unfold bind at 1. unfold file_write at 1.
  destruct (write_raises h _ animation_close).
  { intros [= <- <-]. apply (run_shape_intro _ _ _ _ (fs ++ [frame_end sc]) []);
      [now rewrite <- E3, List.app_nil_r|exact F3|reflexivity|reflexivity]. }
  unfold bind, file_close, ret.
  destruct (close_raises h _); intros [= <- <-].
  - apply (run_shape_intro _ _ _ _ (fs ++ [frame_end sc]) [EvWrite animation_close]);
      [now rewrite <- E3|exact F3|reflexivity|reflexivity].
  - apply (run_shape_intro _ _ _ _ (fs ++ [frame_end sc]) epilogue_events);
      [now rewrite <- E3, <- List.app_assoc|exact F3|reflexivity|].
    split; [reflexivity|]. now exists fs.
Qed.

(** X4. The index file is handled as a file should be: when [open] raises
    nothing at all happens and its exception is the outcome; otherwise
    the file is opened once, first, every write, cursor move and exporter
    call follows, and the file is closed once, last, exactly when the run
    finishes.  Nothing is ever written before the open or after the
    close. *)
Theorem kanim_file_protocol self sc out tr :
  execute h self sc [] = (out, tr) ->
  (exists e, open_raises h (filepath self) = Some e /\
             out = Raised (OpenError e) /\ tr = []) \/
  (open_raises h (filepath self) = None /\
   exists body,
     tr = EvOpen (filepath self) :: body
            ++ (match out with Done _ => [EvClose] | _ => [] end) /\
     forallb is_body_event body = true).
Proof.
  intros R. apply execute_shape in R.
  destruct (open_raises h (filepath self)) as [e|].
  - left. exists e. destruct R as [-> ->]. now repeat split.
  - right. split; [reflexivity|].
    destruct R as (hd & fs & tl & -> & F & Bh & _ & _ & D).
    destruct out as [[]|e|].
    + destruct D as (-> & -> & _).
      exists ([EvWrite xml_prolog; EvWrite animation_open]
                ++ flat_map (frame_events self (frame_start sc)) fs
                ++ [EvWrite animation_close]).
      split.
      * unfold epilogue_events. rewrite <- !List.app_assoc. reflexivity.
      * rewrite !forallb_app, body_frames. reflexivity.
    + exists (hd ++ flat_map (frame_events self (frame_start sc)) fs ++ tl).
      split; [now rewrite List.app_nil_r|].
      now rewrite !forallb_app, body_frames, Bh, D.
    + exists (hd ++ flat_map (frame_events self (frame_start sc)) fs ++ tl).
      split; [now rewrite List.app_nil_r|].
      now rewrite !forallb_app, body_frames, Bh, D.
Qed.

(** X5. In every run, whatever its outcome, each call of the host exporter
    comes right after the index line and the cursor move of one frame and
    is made for that frame: with the file name the line refers to, and
    with the fixed set of options. *)
Theorem exporter_calls_match_index self sc out tr pre a post :
  execute h self sc [] = (out, tr) ->
  tr = pre ++ EvExportX3d a :: post ->
  exists pre' f time,
    frame_time f (frame_start sc) = Some time /\
    pre = pre' ++ [EvWrite (frame_line (frame_basename self f) time); EvFrameSet f] /\
    x3d_filepath a =
      OsPath.join (fst (OsPath.split (filepath self))) (frame_basename self f) /\
    (check_existing a, use_selection a, use_apply_modifiers a, use_triangulate a,
     use_normals a, use_compress a, use_hierarchy a, name_decorations a, use_h3d a)
      = (false, false, true, false, false, false, true, true, false) /\
    (axis_forward a, axis_up a, path_mode a) = ("Z", "Y", "AUTO")%string.
Proof.
  intros R E. apply execute_shape in R.
  destruct (open_raises h (filepath self)) as [e|].
  { destruct R as [_ ->]. destruct pre; discriminate. }
  destruct R as (hd & fs & tl & -> & F & _ & Qh & Qt & _).
  assert (Q : existsb is_export (EvOpen (filepath self) :: hd) = false)
    by exact Qh.
  destruct (export_after_quiet (EvOpen (filepath self) :: hd) _ _ _ _ Q E)
    as (pre1 & -> & E1).
  destruct (export_in_frames self (frame_start sc) fs _ F Qt _ _ _ E1)
    as (pre' & f & t & T & -> & ->).
  exists ((EvOpen (filepath self) :: hd) ++ pre'), f, t.
  split; [exact T|]. split; [now rewrite <- List.app_assoc|].
  unfold frame_x3d_args. destruct (OsPath.split (filepath self)) as [dir base].
  repeat split.
Qed.

End RunShape.

Lemma frame_time_start (frame : Z) : frame_time frame frame = Some "0.000000"%string.
Proof. unfold frame_time. rewrite Z.sub_diag. reflexivity. Qed.

Lemma sampled_frames_head (start end_ skip : Z) (frames : list Z) :
  start <= end_ ->
  sampled_frames start end_ skip = Some frames ->
  exists rest, frames = start :: rest.
Proof.
  intros H. unfold sampled_frames, sampled_frames_fuel.
  destruct (Z.to_nat (end_ - start)) as [|fuel]; cbn [stride_frames];
    destruct (Z.ltb_spec start end_) as [L|L]; try discriminate.
  - intros [= <-]. exists []. cbn. f_equal. lia.
  - destruct (stride_frames fuel _ _ _) as [l|]; [|discriminate].
    intros [= <-]. now exists (l ++ [end_]).
  - intros [= <-]. exists []. cbn. f_equal. lia.
Qed.

Lemma frames_set_complete self start frames :
  Forall (fun f => frame_time f start <> None) frames ->
  frames_set (complete_trace self start frames) = frames.
Proof.
  intros F. unfold complete_trace.
  rewrite !frames_set_app, frames_set_frames by exact F.
  cbn. apply List.app_nil_r.
Qed.

Lemma exported_paths_complete self start frames :
  Forall (fun f => frame_time f start <> None) frames ->
  exported_paths (complete_trace self start frames) =
    map (fun f => x3d_filepath (frame_x3d_args self f)) frames.
Proof.
  intros F. unfold complete_trace.
  rewrite !exported_paths_app, exported_paths_frames by exact F.
  cbn. apply List.app_nil_r.
Qed.

Section FinishedRuns.

Variable exc : Type.
Variable h : host exc.

(** X6. "The last frame should be always output": in every finished run,
    whatever the frame range and the skip count, the last frame visited,
    written to the index and exported is [frame_end], and it is there
    once only: every frame before it is strictly below [frame_end]. *)
Theorem last_frame_exported_once self sc tr :
  execute h self sc [] = (Done FINISHED, tr) ->
  exists before text,
    frames_set tr = before ++ [frame_end sc] /\
    Forall (fun f => f < frame_end sc) before /\
    exported_paths tr =
      map (fun f => x3d_filepath (frame_x3d_args self f)) before
        ++ [x3d_filepath (frame_x3d_args self (frame_end sc))] /\
    file_text tr =
      (text ++ index_line self (frame_start sc) (frame_end sc)
         ++ animation_close)%string.
Proof.
  intros R. pose proof (execute_shape _ _ _ _ _ _ R) as S'.
  destruct (open_raises h (filepath self)) as [e|]; [destruct S'; discriminate|].
  destruct S' as (hd & fs & tl & -> & F & _ & _ & _ & -> & -> & before & -> & B).
  exists before,
    (xml_prolog ++ animation_open
       ++ concat_lines (map (index_line self (frame_start sc)) before))%string.
  change (EvOpen (filepath self)
            :: [EvWrite xml_prolog; EvWrite animation_open]
            ++ flat_map (frame_events self (frame_start sc)) (before ++ [frame_end sc])
            ++ epilogue_events)
    with (complete_trace self (frame_start sc) (before ++ [frame_end sc])).
  split; [|split; [exact B|split]].
  - apply frames_set_complete. exact F.
  - rewrite exported_paths_complete by exact F. now rewrite map_app.
  - rewrite file_text_complete, map_app, concat_lines_app. cbn [map concat_lines].
    rewrite string_app_nil_r, !string_app_assoc. reflexivity.
Qed.

(** X7. "KAnim animation starts from time = 0.0": in every finished run
    over a range with [frame_start <= frame_end], the first frame visited
    is [frame_start] and the first entry of the index is its file at time
    0.000000. *)
Theorem first_entry_at_time_zero self sc tr :
  frame_start sc <= frame_end sc ->
  execute h self sc [] = (Done FINISHED, tr) ->
  exists later rest,
    frames_set tr = frame_start sc :: later /\
    file_text tr =
      (xml_prolog ++ animation_open
         ++ frame_line (frame_basename self (frame_start sc)) "0.000000"
         ++ rest)%string.
Proof.
  intros H R. destruct (execute_done_sampled _ _ _ _ _ R) as [frames S'].
  pose proof (execute_inv _ _ _ _ _ _ _ S' R) as (_ & -> & F).
  destruct (sampled_frames_head _ _ _ _ H S') as [later ->].
  exists later,
    (concat_lines (map (index_line self (frame_start sc)) later)
       ++ animation_close)%string.
  split.
  - apply frames_set_complete. exact F.
  - rewrite file_text_complete. cbn [map concat_lines].
    unfold index_line at 1. rewrite frame_time_start.
    now rewrite !string_app_assoc.
Qed.

(** On a host that works, every call of a trace returns, but for the
    opening of other files than those it opens. *)
Lemma works_calls_return (evs : trace) :
  file_works h -> cursor_works h -> exporter_works h ->
  (forall path, In (EvOpen path) evs -> open_raises h path = None) ->
  forall tr0, calls_return h tr0 evs = true.
Proof.
  intros [W Cl] Cu X. induction evs as [|ev evs IH]; intros O tr0;
    cbn [calls_return]; [reflexivity|].
  assert (C : call_raises h tr0 ev = None).
  { destruct ev; cbn [call_raises]; auto. apply O. now left. }
  rewrite C. apply IH. intros path Hp. apply O. now right.
Qed.

Lemma complete_trace_opens self start frames path :
  In (EvOpen path) (complete_trace self start frames) -> path = filepath self.
Proof.
  unfold complete_trace. intros H.
  apply in_app_or in H. destruct H as [H|H].
  { destruct H as [H|[H|[H|[]]]]; [now injection H|discriminate|discriminate]. }
  apply in_app_or in H. destruct H as [H|H].
  - apply in_flat_map in H. destruct H as (f & _ & H).
    unfold frame_events in H. destruct (frame_time f start); [|destruct H].
    destruct H as [H|[H|[H|[]]]]; discriminate.
  - destruct H as [H|[H|[]]]; discriminate.
Qed.

(** Within a range narrower than 2^32 every sampled frame has a time. *)
Lemma sampled_times_defined (start end_ skip : Z) (frames : list Z) :
  0 <= skip -> Z.abs (end_ - start) < 2 ^ 32 ->
  sampled_frames start end_ skip = Some frames ->
  Forall (fun f => frame_time f start <> None) frames.
Proof.
  intros Hs B. unfold sampled_frames, sampled_frames_fuel.
  destruct (stride_frames _ _ _ _) as [l|] eqn:L; [|discriminate].
  intros [= <-].
  destruct (stride_frames_bounds _ _ Hs _ _ _ L) as [Bl _].
  apply Forall_app. split.
  - eapply Forall_impl; [|exact Bl]. cbv beta. intros f Hf.
    rewrite TimeFacts.frame_time_exact by lia. discriminate.
  - constructor; [|constructor].
    rewrite TimeFacts.frame_time_exact by exact B. discriminate.
Qed.

(** A run in which nothing raises. *)
Lemma execute_ok_run self sc frames :
  sampled_frames (frame_start sc) (frame_end sc) (frame_skip self) = Some frames ->
  Forall (fun f => frame_time f (frame_start sc) <> None) frames ->
  open_raises h (filepath self) = None ->
  file_works h -> cursor_works h -> exporter_works h ->
  execute h self sc [] =
    (Done FINISHED, complete_trace self (frame_start sc) frames).
Proof.
  intros S' F O W Cu X. apply (execute_replay _ _ _ _ _ S' F).
  apply works_calls_return; try assumption.
  intros path Hp. apply complete_trace_opens in Hp. now subst path.
Qed.

(** X8. With a host that works ([open] does not raise on the index file;
    its writes and its close, the cursor moves and the exporter never
    raise), a skip count that is not negative and a frame range narrower
    than 2^32, [execute] finishes: it returns FINISHED, having written the
    complete index and exported one file per sampled frame, in order. *)
Theorem execute_finishes self sc :
  0 <= frame_skip self ->
  Z.abs (frame_end sc - frame_start sc) < 2 ^ 32 ->
  open_raises h (filepath self) = None ->
  file_works h -> cursor_works h -> exporter_works h ->
  exists frames,
    sampled_frames (frame_start sc) (frame_end sc) (frame_skip self) = Some frames /\
    execute h self sc [] =
      (Done FINISHED, complete_trace self (frame_start sc) frames) /\
    frames_set (complete_trace self (frame_start sc) frames) = frames /\
    exported_paths (complete_trace self (frame_start sc) frames) =
      map (fun f => x3d_filepath (frame_x3d_args self f)) frames.
Proof.
  intros Hs B O W Cu X.
  pose proof (sampled_frames_closed (frame_start sc) (frame_end sc) _ Hs) as S'.
  pose proof (sampled_times_defined _ _ _ _ Hs B S') as F.
  eexists. split; [exact S'|].
  split; [exact (execute_ok_run _ _ _ S' F O W Cu X)|].
  split; [apply frames_set_complete|apply exported_paths_complete]; exact F.
Qed.

End FinishedRuns.

Section AbortedRuns.

Variable exc : Type.
Variable h : host exc.

(** X9. What an aborted run leaves in the index file is sound as far as
    it goes: when the exporter raises, the text written so far is a
    prefix of the text the same export writes on a host that works; what
    is missing are the later frame lines and the root-closing line. *)
Theorem aborted_index_is_prefix self sc e tr (h' : host exc) :
  0 <= frame_skip self ->
  Z.abs (frame_end sc - frame_start sc) < 2 ^ 32 ->
  execute h self sc [] = (Raised (ExportError e), tr) ->
  open_raises h' (filepath self) = None ->
  file_works h' -> cursor_works h' -> exporter_works h' ->
  exists tr' later,
    execute h' self sc [] = (Done FINISHED, tr') /\
    file_text tr' = (file_text tr ++ later ++ animation_close)%string.
Proof.
  intros Hs B R O W Cu X.
  pose proof (sampled_frames_closed (frame_start sc) (frame_end sc) _ Hs) as S'.
  pose proof (sampled_times_defined _ _ _ _ Hs B S') as F.
  pose proof (execute_inv _ _ _ _ _ _ _ S' R) as (_ & b & g & a & E & _ & -> & _).
  exists (complete_trace self (frame_start sc)
            (map (fun i => frame_start sc + Z.of_nat i * (frame_skip self + 1))
                 (seq 0 (iterations (frame_end sc) (frame_skip self) (frame_start sc)))
             ++ [frame_end sc])),
    (concat_lines (map (index_line self (frame_start sc)) a)).
  split; [exact (execute_ok_run _ _ _ _ _ S' F O W Cu X)|].
  rewrite file_text_complete, file_text_aborted, E.
  rewrite map_app, concat_lines_app. cbn [map concat_lines].
  now rewrite !string_app_assoc.
Qed.

End AbortedRuns.

(* ===================================================================== *)
(** ** Facts about paths *)
(* ===================================================================== *)

Module PathFacts.

Lemma has_char_app (c : ascii) (a b : string) :
  has_char c (a ++ b) = has_char c a || has_char c b.
Proof.
  induction a as [|x a IH]; cbn [append has_char]; [reflexivity|].
  now rewrite IH, orb_assoc.
Qed.

(** [rfind] finds the last occurrence: the string splits there into a
    prefix of that length and a rest without the character. *)
Lemma rfind_spec (c : ascii) (s : string) :
  (PyStr.rfind c s = -1 /\ has_char c s = false) \/
  (exists a b, s = (a ++ String c b)%string /\
               PyStr.rfind c s = Z.of_nat (String.length a) /\
               has_char c b = false).
Proof.
  induction s as [|x s IH]; cbn [PyStr.rfind has_char].
  - left. now split.
  - destruct IH as [[R H]|(a & b & -> & R & H)]; rewrite R.
    + destruct (Z.leb_spec 0 (-1)); [lia|].
      destruct (Ascii.eqb_spec x c) as [->|N].
      * right. exists EmptyString, s. now repeat split.
      * left. now split.
    + destruct (Z.leb_spec 0 (Z.of_nat (String.length a))); [|lia].
      right. exists (String x a), b. repeat split; [|exact H].
      cbn [String.length]. lia.
Qed.

Lemma substring_full (s : string) : substring 0 (String.length s) s = s.
Proof. induction s as [|x s IH]; cbn; [reflexivity|now rewrite IH]. Qed.

Lemma take_app (a b : string) :
  PyStr.take (Z.of_nat (String.length a)) (a ++ b) = a.
Proof.
  unfold PyStr.take. rewrite Nat2Z.id.
  induction a as [|x a IH]; cbn [String.length append substring].
  - destruct b; reflexivity.
  - now rewrite IH.
Qed.

Lemma drop_app (a b : string) :
  PyStr.drop (Z.of_nat (String.length a)) (a ++ b) = b.
Proof.
  unfold PyStr.drop. rewrite Nat2Z.id.
  induction a as [|x a IH]; cbn [String.length append].
  - rewrite Nat.sub_0_r. apply substring_full.
  - cbn [substring Nat.sub]. exact IH.
Qed.

Lemma take_0 (s : string) : PyStr.take 0 s = EmptyString.
Proof. unfold PyStr.take. destruct s; reflexivity. Qed.

Lemma drop_0 (s : string) : PyStr.drop 0 s = s.
Proof. exact (drop_app EmptyString s). Qed.

Lemma app_snoc (a : string) (c : ascii) (b : string) :
  (a ++ String c b = (a ++ String c EmptyString) ++ b)%string.
Proof. now rewrite string_app_assoc. Qed.

Lemma length_snoc (a : string) (c : ascii) :
  Z.of_nat (String.length (a ++ String c EmptyString)) =
    Z.of_nat (String.length a) + 1.
Proof. rewrite string_length_app. cbn [String.length]. lia. Qed.

Lemma rstrip_nil_iff (c : ascii) (s : string) :
  PyStr.rstrip c s = EmptyString <-> PyStr.all_char c s = true.
Proof.
  induction s as [|x s IH]; cbn [PyStr.rstrip PyStr.all_char]; [tauto|].
  destruct (PyStr.rstrip c s) as [|y r] eqn:R.
  - destruct (Ascii.eqb x c); cbn [andb].
    + split; [intros _; now apply IH|reflexivity].
    + split; discriminate.
  - split; [discriminate|].
    intros H. apply andb_prop in H. destruct H as [_ H].
    apply IH in H. discriminate.
Qed.

Lemma rstrip_not_endswith (c : ascii) (s : string) :
  PyStr.endswith c (PyStr.rstrip c s) = false.
Proof.
  induction s as [|x s IH]; cbn [PyStr.rstrip]; [reflexivity|].
  destruct (PyStr.rstrip c s) as [|y r] eqn:R.
  - destruct (Ascii.eqb x c) eqn:E; cbn [PyStr.endswith]; [reflexivity|exact E].
  - cbn [PyStr.endswith] in *. exact IH.
Qed.

Lemma rstrip_snoc (c : ascii) (d : string) :
  PyStr.endswith c d = false ->
  PyStr.rstrip c (d ++ String c EmptyString) = d.
Proof.
  induction d as [|x d IH]; intros H; cbn [append PyStr.rstrip].
  - now rewrite Ascii.eqb_refl.
  - destruct d as [|y d].
    + cbn [append PyStr.rstrip PyStr.endswith] in *.
      now rewrite Ascii.eqb_refl, H.
    + assert (H' : PyStr.endswith c (String y d) = false) by exact H.
      rewrite (IH H'). reflexivity.
Qed.

Lemma all_char_app (c : ascii) (a b : string) :
  PyStr.all_char c (a ++ b) = PyStr.all_char c a && PyStr.all_char c b.
Proof.
  induction a as [|x a IH]; cbn [append PyStr.all_char]; [reflexivity|].
  now rewrite IH, andb_assoc.
Qed.

Lemma endswith_snoc (c : ascii) (s : string) :
  PyStr.endswith c s = true -> exists d, s = (d ++ String c EmptyString)%string.
Proof.
  induction s as [|x s IH]; cbn [PyStr.endswith]; [discriminate|].
  destruct s as [|y s].
  - intros H. apply Ascii.eqb_eq in H. subst. now exists EmptyString.
  - intros H. destruct (IH H) as [d ->]. now exists (String x d).
Qed.

Lemma all_char_endswith (c : ascii) (s : string) :
  PyStr.all_char c s = true -> s <> EmptyString -> PyStr.endswith c s = true.
Proof.
  induction s as [|x s IH]; [congruence|].
  cbn [PyStr.all_char]. intros H _. apply andb_prop in H. destruct H as [H1 H2].
  destruct s as [|y s]; [exact H1|].
  cbn [PyStr.endswith]. apply IH; [exact H2|discriminate].
Qed.

Lemma rfind_last (c : ascii) (a b : string) :
  has_char c b = false ->
  PyStr.rfind c (a ++ String c b) = Z.of_nat (String.length a).
Proof.
  intros H. induction a as [|x a IH]; cbn [append PyStr.rfind String.length].
  - destruct (rfind_spec c b) as [[R _]|(a' & b' & -> & _ & _)].
    + rewrite R. destruct (Z.leb_spec 0 (-1)); [lia|].
      now rewrite Ascii.eqb_refl.
    + rewrite has_char_app in H. cbn [has_char] in H.
      rewrite Ascii.eqb_refl, orb_true_r in H. discriminate.
  - rewrite IH. destruct (Z.leb_spec 0 (Z.of_nat (String.length a))); lia.
Qed.

Lemma rfind_none (c : ascii) (s : string) :
  has_char c s = false -> PyStr.rfind c s = -1.
Proof.
  intros H. destruct (rfind_spec c s) as [[R _]|(a & b & -> & _ & _)]; [exact R|].
  rewrite has_char_app in H. cbn [has_char] in H.
  rewrite Ascii.eqb_refl, orb_true_r in H. discriminate.
Qed.

(** What [split] returns: a tail without slash and a head of one of the
    three shapes. *)
Lemma split_spec (p : string) :
  has_char OsPath.sep (snd (OsPath.split p)) = false /\
  head_shape (fst (OsPath.split p)).
Proof.
  unfold OsPath.split.
  destruct (rfind_spec OsPath.sep p) as [[R H]|(a & b & -> & R & H)]; rewrite R.
  - change (-1 + 1) with 0. rewrite take_0, drop_0. cbn [String.eqb negb andb fst snd].
    split; [exact H|]. left. reflexivity.
  - rewrite (app_snoc a OsPath.sep b), <- (length_snoc a OsPath.sep), take_app, drop_app.
    cbn [fst snd].
    split; [exact H|].
    assert (NE : String.eqb (a ++ String OsPath.sep EmptyString) EmptyString = false)
      by (destruct a; reflexivity).
    rewrite NE. cbn [negb andb].
    destruct (PyStr.all_char OsPath.sep (a ++ String OsPath.sep EmptyString)) eqn:A;
      cbn [negb].
    + right. left. split; [exact A|]. destruct a; discriminate.
    + right. right. split; [|apply rstrip_not_endswith].
      destruct (PyStr.all_char OsPath.sep (PyStr.rstrip OsPath.sep _)) eqn:A';
        [|reflexivity].
      exfalso.
      assert (E : PyStr.rstrip OsPath.sep (a ++ String OsPath.sep EmptyString)
                  = EmptyString).
      { destruct (PyStr.rstrip OsPath.sep (a ++ String OsPath.sep EmptyString))
          as [|y r] eqn:RS; [reflexivity|].
        pose proof (rstrip_not_endswith OsPath.sep (a ++ String OsPath.sep EmptyString)) as N.
        rewrite RS in N.
        rewrite (all_char_endswith _ _ A') in N; [discriminate|discriminate]. }
      apply rstrip_nil_iff in E. congruence.
Qed.

(** [join] undone by [split]: a name without slash put after a directory
    part comes back as it went in. *)
Lemma split_join (dir name : string) :
  head_shape dir -> has_char OsPath.sep name = false ->
  OsPath.split (OsPath.join dir name) = (dir, name).
Proof.
  intros S' H. unfold OsPath.join.
  assert (SW : PyStr.startswith OsPath.sep name = false).
  { destruct name as [|x name]; [reflexivity|].
    cbn [has_char PyStr.startswith] in *. apply orb_false_elim in H. tauto. }
  rewrite SW.
  destruct S' as [->|[[A N]|[A E]]].
  - cbn [String.eqb orb append]. unfold OsPath.split.
    rewrite (rfind_none _ _ H). change (-1 + 1) with 0.
    now rewrite take_0, drop_0.
  - rewrite (all_char_endswith _ _ A N), orb_true_r.
    destruct (endswith_snoc _ _ (all_char_endswith _ _ A N)) as [d ->].
    rewrite string_app_assoc. cbn [append].
    unfold OsPath.split. rewrite (rfind_last _ d _ H).
    rewrite (app_snoc d OsPath.sep name), <- (length_snoc d OsPath.sep), take_app, drop_app.
    rewrite A. cbn [negb andb]. now rewrite andb_false_r.
  - rewrite E, orb_false_r.
    assert (NE : String.eqb dir EmptyString = false)
      by (destruct dir; [discriminate|reflexivity]).
    rewrite NE.
    unfold OsPath.split. rewrite (rfind_last _ dir _ H).
    rewrite (app_snoc dir OsPath.sep name), <- (length_snoc dir OsPath.sep), take_app, drop_app.
    rewrite all_char_app, A. cbn [andb negb].
    assert (NE' : String.eqb (dir ++ String OsPath.sep EmptyString) EmptyString = false)
      by (destruct dir; reflexivity).
    rewrite NE'. cbn [negb]. now rewrite rstrip_snoc.
Qed.

(** [splitext]: root and extension put together give the path back, and
    the extension is empty or starts with a period. *)
Lemma splitext_spec (p : string) :
  (fst (OsPath.splitext p) ++ snd (OsPath.splitext p))%string = p /\
  (snd (OsPath.splitext p) = EmptyString \/
   exists e, snd (OsPath.splitext p) = String OsPath.extsep e).
Proof.
  unfold OsPath.splitext.
  destruct (_ && _) eqn:C; cbn [fst snd].
  - apply andb_prop in C. destruct C as [C _]. apply Z.ltb_lt in C.
    destruct (rfind_spec OsPath.extsep p) as [[R H]|(a & b & -> & R & H)].
    + exfalso. rewrite R in C.
      destruct (rfind_spec OsPath.sep p) as [[R' _]|(a' & b' & _ & R' & _)]; lia.
    + rewrite R, take_app, drop_app. split; [reflexivity|]. right. now exists b.
  - split; [apply string_app_nil_r|]. now left.
Qed.

End PathFacts.

(* ===================================================================== *)
(** ** Where the model files go *)
(* ===================================================================== *)

Lemma digits_no_char (c : ascii) (d : Decimal.uint) :
  has_char c "0123456789" = false ->
  has_char c (NilEmpty.string_of_uint d) = false.
Proof.
  intros H. cbn [has_char] in H.
  repeat (apply orb_false_elim in H; destruct H as [? H]).
  induction d; cbn [NilEmpty.string_of_uint has_char]; [reflexivity|..];
    rewrite IHd, orb_false_r; assumption.
Qed.

Lemma fmt_0d_no_char (c : ascii) (width : nat) (n : Z) :
  has_char c "-0123456789" = false ->
  has_char c (PyFmt.fmt_0d width n) = false.
Proof.
  intros H. cbn [has_char] in H. apply orb_false_elim in H. destruct H as [M H].
  unfold PyFmt.fmt_0d. destruct (Z.to_int n) as [d|d].
  - apply digits_no_char. exact H.
  - cbn [has_char]. rewrite M. apply digits_no_char. exact H.
Qed.

Lemma fmt_04d_nonempty (n : Z) :
  exists ch rest, PyFmt.fmt_04d n = String ch rest.
Proof.
  unfold PyFmt.fmt_04d, PyFmt.fmt_0d. destruct (Z.to_int n) as [d|d].
  - pose proof (PyFmtFacts.zero_pad_digits 4 d) as L.
    rewrite <- PyFmtFacts.string_of_uint_length in L.
    destruct (NilEmpty.string_of_uint (PyFmt.zero_pad 4 d)) as [|ch rest];
      [cbn [String.length] in L; lia|now exists ch, rest].
  - now eexists _, _.
Qed.

Lemma frame_basename_parts (self : operator) (f : Z) :
  frame_basename self f =
    (fst (OsPath.splitext (snd (OsPath.split (filepath self))))
       ++ PyFmt.fmt_04d f ++ ".x3d")%string.
Proof.
  unfold frame_basename.
  destruct (OsPath.split (filepath self)) as [dir base]. reflexivity.
Qed.

Lemma frame_basename_no_sep (self : operator) (f : Z) :
  has_char OsPath.sep (frame_basename self f) = false.
Proof.
  rewrite frame_basename_parts, !PathFacts.has_char_app.
  destruct (PathFacts.split_spec (filepath self)) as [T _].
  destruct (PathFacts.splitext_spec (snd (OsPath.split (filepath self)))) as [C _].
  rewrite <- C, PathFacts.has_char_app in T. apply orb_false_elim in T.
  destruct T as [T _]. rewrite T.
  unfold PyFmt.fmt_04d. rewrite fmt_0d_no_char by reflexivity. reflexivity.
Qed.

Lemma frame_basename_inj (self : operator) (f1 f2 : Z) :
  frame_basename self f1 = frame_basename self f2 -> f1 = f2.
Proof.
  rewrite !frame_basename_parts. intros H.
  apply string_app_inv_head, string_app_inv_tail in H.
  exact (PyFmtFacts.fmt_0d_inj 4 _ _ H).
Qed.

Lemma model_file_paths_split (self : operator) (f : Z) :
  OsPath.split (x3d_filepath (frame_x3d_args self f)) =
    (fst (OsPath.split (filepath self)), frame_basename self f).
Proof.
  pose proof (frame_basename_no_sep self f) as N.
  destruct (PathFacts.split_spec (filepath self)) as [_ S'].
  unfold frame_x3d_args.
  destruct (OsPath.split (filepath self)) as [dir base]. cbn [x3d_filepath fst] in *.
  apply PathFacts.split_join; assumption.
Qed.

(** X10. The model file of a frame is written beside the index file, under
    the very name the index entry gives: splitting the path handed to the
    exporter gives back the directory of the index file and the frame's
    file name. *)
Theorem model_file_beside_index (self : operator) (f : Z) :
  OsPath.split (x3d_filepath (frame_x3d_args self f)) =
    (fst (OsPath.split (filepath self)), frame_basename self f).
Proof.
  pose proof (frame_basename_no_sep self f) as N.
  destruct (PathFacts.split_spec (filepath self)) as [_ S'].
  unfold frame_x3d_args.
  destruct (OsPath.split (filepath self)) as [dir base]. cbn [x3d_filepath fst] in *.
  apply PathFacts.split_join; assumption.
Qed.

(** X11. No model file takes the name of the index file: the export cannot
    overwrite the index it is writing. *)
Theorem model_file_is_not_index (self : operator) (f : Z) :
  frame_basename self f <> snd (OsPath.split (filepath self)).
Proof.
  rewrite frame_basename_parts.
  destruct (PathFacts.splitext_spec (snd (OsPath.split (filepath self)))) as [C E].
  intros H. rewrite <- C in H at 2.
  apply string_app_inv_head in H.
  destruct (fmt_04d_nonempty f) as (ch & rest & D).
  assert (ND : has_char OsPath.extsep (PyFmt.fmt_04d f) = false)
    by (apply fmt_0d_no_char; reflexivity).
  rewrite D in H, ND. cbn [append has_char] in *.
  apply orb_false_elim in ND. destruct ND as [ND _].
  destruct E as [E|[e E]]; rewrite E in H; [discriminate|].
  injection H as -> _. now rewrite Ascii.eqb_refl in ND.
Qed.

Lemma x3d_filepath_inj (self : operator) (f1 f2 : Z) :
  x3d_filepath (frame_x3d_args self f1) = x3d_filepath (frame_x3d_args self f2) ->
  f1 = f2.
Proof.
  intros H. apply (f_equal OsPath.split) in H.
  rewrite !model_file_paths_split in H.
  injection H as H. exact (frame_basename_inj self _ _ H).
Qed.

Lemma NoDup_map_injective {A B : Type} (g : A -> B) (l : list A) :
  (forall x y, g x = g y -> x = y) -> NoDup l -> NoDup (map g l).
Proof.
  intros I. induction 1 as [|x l N _ IH]; cbn [map]; constructor; [|exact IH].
  intros H. apply in_map_iff in H. destruct H as (y & E & Hy).
  apply I in E. subst y. contradiction.
Qed.

Section DistinctFiles.

Variable exc : Type.
Variable h : host exc.

(** Whatever the outcome of a run, the files it handed to the exporter
    are those of the first sampled frames, in order. *)
Lemma execute_exports self sc frames out tr :
  sampled_frames (frame_start sc) (frame_end sc) (frame_skip self) = Some frames ->
  execute h self sc [] = (out, tr) ->
  exists done rest,
    frames = done ++ rest /\
    exported_paths tr = map (fun f => x3d_filepath (frame_x3d_args self f)) done.
Proof.
  unfold sampled_frames, sampled_frames_fuel. fold (loop_bound sc).
  destruct (stride_frames _ _ _ _) as [l|] eqn:E; [|discriminate].
  intros [= <-]. rewrite (execute_frames _ _ _ _ _ E).
  set (frames := l ++ [frame_end sc]).
  assert (N : forall t, exported_paths t = [] ->
                exists done rest,
                  frames = done ++ rest /\
                  exported_paths t =
                    map (fun f => x3d_filepath (frame_x3d_args self f)) done)
    by (intros t Ht; exists [], frames; now split).
  assert (P : forall done rest tl,
            frames = done ++ rest ->
            Forall (fun f => frame_time f (frame_start sc) <> None) done ->
            exported_paths tl = [] ->
            exists done' rest',
              frames = done' ++ rest' /\
              exported_paths
                (prologue_events self
                   ++ flat_map (frame_events self (frame_start sc)) done ++ tl) =
                map (fun f => x3d_filepath (frame_x3d_args self f)) done').
  { intros done rest tl Ef F Ht. exists done, rest. split; [exact Ef|].
    rewrite !exported_paths_app, exported_paths_frames, Ht by exact F.
    cbn [prologue_events exported_paths app]. apply List.app_nil_r. }
  unfold bind at 1. unfold py_open.
  destruct (open_raises h (filepath self)) as [e|];
    [intros [= <- <-]; now apply N|].
  unfold emit. cbn [app].
  unfold bind at 1. unfold file_write at 1.
  destruct (write_raises h _ xml_prolog); [intros [= <- <-]; now apply N|].
  cbn [app]. unfold bind at 1. unfold file_write at 1.
  destruct (write_raises h _ animation_open); [intros [= <- <-]; now apply N|].
  cbn [app]. fold (prologue_events self). unfold bind at 1.
  destruct (output_frames _ _ _ _ _) as [o tr1] eqn:R.
  apply output_frames_inv in R.
  destruct o as [[]|r|]; [| |contradiction].
  - destruct R as [-> F]. unfold bind at 1. unfold file_write at 1.
    destruct (write_raises h _ animation_close).
    { intros [= <- <-]. rewrite <- (List.app_nil_r (flat_map _ _)).
      apply (P frames []); [now rewrite List.app_nil_r|exact F|reflexivity]. }
    unfold bind, file_close, ret.
    destruct (close_raises h _); intros [= <- <-]; rewrite <- ?List.app_assoc;
      (apply (P frames []); [now rewrite List.app_nil_r|exact F|reflexivity]).
  - intros [= <- <-]. destruct R as (b & g & a & Ef & F & R).
    destruct r as [|e|e|e|e|e]; try contradiction.
    + destruct R as [T ->]. rewrite <- (List.app_nil_r (flat_map _ _)).
      apply (P b (g :: a)); [exact Ef|exact F|reflexivity].
    + destruct R as (T & -> & X). rewrite <- flat_map_snoc.
      rewrite <- (List.app_nil_r (flat_map _ _)).
      apply (P (b ++ [g]) a);
        [now rewrite <- List.app_assoc
        |apply Forall_app; split; [exact F|constructor; [exact T|constructor]]
        |reflexivity].
    + destruct R as (T & -> & W). rewrite <- (List.app_nil_r (flat_map _ _)).
      apply (P b (g :: a)); [exact Ef|exact F|reflexivity].
    + destruct R as (T & -> & C).
      apply (P b (g :: a)); [exact Ef|exact F|].
      unfold frame_write_events. now destruct (frame_time g (frame_start sc)).
Qed.

(** X12. No model file is exported twice in a run: whatever the outcome,
    the paths handed to the exporter are pairwise distinct, so no frame
    overwrites the file of another. *)
Theorem no_model_file_exported_twice self sc out tr :
  0 <= frame_skip self ->
  execute h self sc [] = (out, tr) ->
  NoDup (exported_paths tr).
Proof.
  intros Hs R.
  pose proof (sampled_frames_closed (frame_start sc) (frame_end sc) _ Hs) as S'.
  pose proof (sampled_frames_sorted _ _ _ _ Hs S') as Srt.
  apply StronglySorted_lt_NoDup in Srt.
  destruct (execute_exports _ _ _ _ _ S' R) as (done & rest & E & ->).
  apply NoDup_map_injective; [exact (x3d_filepath_inj self)|].
  rewrite E in Srt. eapply NoDup_app_remove_r. exact Srt.
Qed.

End DistinctFiles.

(* ===================================================================== *)
(** ** File names and the name of the index file *)
(* ===================================================================== *)

Lemma get_cons (x : ascii) (p : string) (i : Z) :
  0 <= i -> String.get (Z.to_nat (i + 1)) (String x p) = String.get (Z.to_nat i) p.
Proof.
  intros H. replace (Z.to_nat (i + 1)) with (S (Z.to_nat i)) by lia. reflexivity.
Qed.

Lemma splitext_scan_cons (x : ascii) (p : string) (n : nat) : forall i,
  0 <= i ->
  OsPath.splitext_scan (String x p) (i + 1) n = OsPath.splitext_scan p i n.
Proof.
  induction n as [|n IH]; intros i H; cbn [OsPath.splitext_scan]; [reflexivity|].
  unfold PyStr.char_at_differs. rewrite get_cons by exact H.
  rewrite IH by lia. reflexivity.
Qed.

(** The scan over the leading characters succeeds exactly when one of
    them is not a period. *)
Lemma splitext_scan_prefix (a rest : string) :
  OsPath.splitext_scan (a ++ rest) 0 (String.length a) =
    negb (PyStr.all_char OsPath.extsep a).
Proof.
  induction a as [|x a IH]; [reflexivity|].
  cbn [append String.length OsPath.splitext_scan PyStr.all_char].
  unfold PyStr.char_at_differs. cbn [Z.to_nat String.get].
  destruct (Ascii.eqb x OsPath.extsep); cbn [negb andb]; [|reflexivity].
  change (0 + 1) with (0 + 1). rewrite splitext_scan_cons by lia. exact IH.
Qed.

(** The base name of [root ++ ".kanim"] is the base name of [root] with
    the extension. *)
Lemma split_kanim (root : string) :
  snd (OsPath.split (root ++ ".kanim")) = (snd (OsPath.split root) ++ ".kanim")%string.
Proof.
  assert (K : has_char OsPath.sep ".kanim" = false) by reflexivity.
  unfold OsPath.split.
  destruct (PathFacts.rfind_spec OsPath.sep root) as [[R H]|(a & b & -> & R & H)].
  - rewrite R. rewrite PathFacts.rfind_none
      by (rewrite PathFacts.has_char_app, H, K; reflexivity).
    change (-1 + 1) with 0. now rewrite !PathFacts.drop_0.
  - rewrite R. rewrite string_app_assoc. cbn [append].
    rewrite PathFacts.rfind_last
      by (rewrite PathFacts.has_char_app, H, K; reflexivity).
    rewrite (PathFacts.app_snoc a OsPath.sep (b ++ ".kanim")),
      (PathFacts.app_snoc a OsPath.sep b),
      <- (PathFacts.length_snoc a OsPath.sep), !PathFacts.drop_app.
    reflexivity.
Qed.

(** [splitext] on a base name ending in ".kanim". *)
Lemma splitext_kanim (t : string) :
  has_char OsPath.sep t = false ->
  OsPath.splitext (t ++ ".kanim") =
    if PyStr.all_char OsPath.extsep t then ((t ++ ".kanim")%string, EmptyString)
    else (t, ".kanim"%string).
Proof.
  intros H. unfold OsPath.splitext.
  rewrite PathFacts.rfind_none by (rewrite PathFacts.has_char_app, H; reflexivity).
  change (t ++ ".kanim")%string with (t ++ String OsPath.extsep "kanim")%string.
  rewrite PathFacts.rfind_last by reflexivity.
  change (-1 + 1) with 0.
  replace (Z.of_nat (String.length t) - 0) with (Z.of_nat (String.length t)) by lia.
  rewrite Nat2Z.id, splitext_scan_prefix.
  destruct (PyStr.all_char OsPath.extsep t); cbn [negb].
  - now rewrite andb_false_r.
  - destruct (Z.ltb_spec (-1) (Z.of_nat (String.length t))); [|lia].
    cbn [andb]. now rewrite PathFacts.take_app, PathFacts.drop_app.
Qed.

(** X13. Frame files are named after the index file: for an index file
    [NAME.kanim] the file of a frame is [NAME] followed by the frame
    number and [".x3d"].  The one exception is a NAME made of periods
    only (or empty): then [".kanim"] is not taken for an extension and
    stays in the name. *)
Theorem frame_files_named_after_index (root : string) (skip f : Z) :
  let self := {| filepath := (root ++ ".kanim")%string; frame_skip := skip |} in
  let name := snd (OsPath.split root) in
  frame_basename self f =
    if PyStr.all_char OsPath.extsep name
    then (name ++ ".kanim" ++ PyFmt.fmt_04d f ++ ".x3d")%string
    else (name ++ PyFmt.fmt_04d f ++ ".x3d")%string.
Proof.
  intros self name. rewrite frame_basename_parts. unfold self. cbn [filepath].
  rewrite split_kanim. fold name.
  rewrite splitext_kanim by (apply PathFacts.split_spec).
  destruct (PyStr.all_char OsPath.extsep name); cbn [fst];
    [now rewrite string_app_assoc|reflexivity].
Qed.

(** X14. [invoke] only fills in a missing path: a [filepath] already set is
    kept; an empty one becomes the path of the blend file with ".kanim"
    in place of its extension, or "untitled.kanim" when the blend file
    was never saved.  Either way the operator leaves with a non-empty
    [filepath] and its skip count untouched, the file selector is asked
    for once with that operator, the status is RUNNING_MODAL, and a
    second [invoke] changes nothing. *)
Theorem invoke_sets_default_path (self : operator) (blend_filepath : string) :
  let self' := fst (fst (invoke self blend_filepath)) in
  invoke self blend_filepath = (self', [EvFileselectAdd self'], RUNNING_MODAL) /\
  filepath self' <> EmptyString /\
  frame_skip self' = frame_skip self /\
  (filepath self <> EmptyString -> self' = self) /\
  (filepath self = EmptyString ->
   filepath self' =
     ((if String.eqb blend_filepath EmptyString then "untitled"
       else fst (OsPath.splitext blend_filepath)) ++ ".kanim")%string) /\
  (forall other, invoke self' other = invoke self blend_filepath).
Proof.
  intros self'. unfold self', invoke.
  destruct (String.eqb_spec (filepath self) EmptyString) as [E|N]; cbn [fst filepath frame_skip].
  - assert (NE : forall r : string, (r ++ ".kanim")%string <> EmptyString)
      by (intros [|x r]; discriminate).
    repeat split.
    + apply NE.
    + congruence.
    + intros other.
      destruct (String.eqb_spec
                  ((if String.eqb blend_filepath EmptyString then "untitled"
                    else fst (OsPath.splitext blend_filepath)) ++ ".kanim")%string
                  EmptyString) as [E'|_]; [now apply NE in E'|reflexivity].
  - repeat split; try congruence.
    intros other. destruct (String.eqb_spec (filepath self) EmptyString);
      [contradiction|reflexivity].
Qed.

(* ===================================================================== *)
(** ** The concrete runs again *)
(* ===================================================================== *)

Lemma kanim_file_protocol_witness :
  execute (failing_host 5) walk scene_0_12 [] =
    (Raised (ExportError "RuntimeError"%string), snd failing_run) /\
  exists body,
    snd failing_run = EvOpen (filepath walk) :: body ++ [] /\
    forallb is_body_event body = true.
Proof.
  assert (H : execute (failing_host 5) walk scene_0_12 [] =
                (Raised (ExportError "RuntimeError"%string), snd failing_run))
    by (vm_compute; reflexivity).
  split; [exact H|].
  destruct (kanim_file_protocol string (failing_host 5) walk scene_0_12 _ _ H)
    as [(e & O & _)|(_ & body & B)].
  - discriminate O.
  - exists body. exact B.
Defined.

Lemma exporter_calls_match_index_witness :
  execute working_host walk scene_0_12 [] = (Done FINISHED, snd good_run) /\
  snd good_run =
    firstn 8 (snd good_run) ++ EvExportX3d (frame_x3d_args walk 5)
      :: skipn 9 (snd good_run) /\
  exists pre' f time,
    frame_time f 0 = Some time /\
    firstn 8 (snd good_run) =
      pre' ++ [EvWrite (frame_line (frame_basename walk f) time); EvFrameSet f].
Proof.
  assert (H : execute working_host walk scene_0_12 [] = (Done FINISHED, snd good_run))
    by (vm_compute; reflexivity).
  assert (E : snd good_run =
              firstn 8 (snd good_run) ++ EvExportX3d (frame_x3d_args walk 5)
                :: skipn 9 (snd good_run))
    by (vm_compute; reflexivity).
  split; [exact H|]. split; [exact E|].
  destruct (exporter_calls_match_index string working_host walk scene_0_12
              _ _ _ _ _ H E) as (pre' & f & t & T & P & _).
  exists pre', f, t. split; [exact T|exact P].
Defined.

Lemma last_frame_exported_once_witness :
  execute working_host walk scene_0_12 [] = (Done FINISHED, snd good_run) /\
  exists before,
    frames_set (snd good_run) = before ++ [12] /\
    Forall (fun f => f < 12) before.
Proof.
  assert (H : execute working_host walk scene_0_12 [] = (Done FINISHED, snd good_run))
    by (vm_compute; reflexivity).
  split; [exact H|].
  destruct (last_frame_exported_once string working_host walk scene_0_12 _ H)
    as (before & text & F & B & _).
  exists before. split; [exact F|exact B].
Defined.

Lemma first_entry_at_time_zero_witness :
  frame_start scene_0_12 <= frame_end scene_0_12 /\
  execute working_host walk scene_0_12 [] = (Done FINISHED, snd good_run) /\
  exists later, frames_set (snd good_run) = 0 :: later.
Proof.
  assert (L : frame_start scene_0_12 <= frame_end scene_0_12) by (cbn; lia).
  assert (H : execute working_host walk scene_0_12 [] = (Done FINISHED, snd good_run))
    by (vm_compute; reflexivity).
  split; [exact L|]. split; [exact H|].
  destruct (first_entry_at_time_zero string working_host walk scene_0_12 _ L H)
    as (later & rest & F & _).
  exists later. exact F.
Defined.

Lemma execute_finishes_witness :
  0 <= frame_skip walk /\
  Z.abs (frame_end scene_0_12 - frame_start scene_0_12) < 2 ^ 32 /\
  open_raises working_host (filepath walk) = None /\
  file_works working_host /\ cursor_works working_host /\
  exporter_works working_host /\
  exists frames,
    execute working_host walk scene_0_12 [] =
      (Done FINISHED, complete_trace walk 0 frames).
Proof.
  assert (Hs : 0 <= frame_skip walk) by (cbn; lia).
  assert (B : Z.abs (frame_end scene_0_12 - frame_start scene_0_12) < 2 ^ 32)
    by (cbn; lia).
  assert (O : open_raises working_host (filepath walk) = None) by reflexivity.
  assert (W : file_works working_host) by (split; reflexivity).
  assert (Cu : cursor_works working_host) by (intros tr f; reflexivity).
  assert (X : exporter_works working_host) by (intros tr a; reflexivity).
  split; [exact Hs|]. split; [exact B|]. split; [exact O|].
  split; [exact W|]. split; [exact Cu|]. split; [exact X|].
  destruct (execute_finishes string working_host walk scene_0_12 Hs B O W Cu X)
    as (frames & _ & R & _).
  exists frames. exact R.
Defined.

Lemma no_model_file_exported_twice_witness :
  0 <= frame_skip walk /\
  execute (failing_host 5) walk scene_0_12 [] =
    (Raised (ExportError "RuntimeError"%string), snd failing_run) /\
  NoDup (exported_paths (snd failing_run)).
Proof.
  assert (Hs : 0 <= frame_skip walk) by (cbn; lia).
  assert (H : execute (failing_host 5) walk scene_0_12 [] =
                (Raised (ExportError "RuntimeError"%string), snd failing_run))
    by (vm_compute; reflexivity).
  split; [exact Hs|]. split; [exact H|].
  exact (no_model_file_exported_twice string (failing_host 5)
           walk scene_0_12 _ _ Hs H).
Defined.

Lemma aborted_index_is_prefix_witness :
  0 <= frame_skip walk /\
  Z.abs (frame_end scene_0_12 - frame_start scene_0_12) < 2 ^ 32 /\
  execute (failing_host 5) walk scene_0_12 [] =
    (Raised (ExportError "RuntimeError"%string), snd failing_run) /\
  open_raises working_host (filepath walk) = None /\
  file_works working_host /\ cursor_works working_host /\
  exporter_works working_host /\
  exists tr' later,
    execute working_host walk scene_0_12 [] = (Done FINISHED, tr') /\
    file_text tr' = (file_text (snd failing_run) ++ later ++ animation_close)%string.
Proof.
  assert (Hs : 0 <= frame_skip walk) by (cbn; lia).
  assert (B : Z.abs (frame_end scene_0_12 - frame_start scene_0_12) < 2 ^ 32)
    by (cbn; lia).
  assert (H : execute (failing_host 5) walk scene_0_12 [] =
                (Raised (ExportError "RuntimeError"%string), snd failing_run))
    by (vm_compute; reflexivity).
  assert (O : open_raises working_host (filepath walk) = None) by reflexivity.
  assert (W : file_works working_host) by (split; reflexivity).
  assert (Cu : cursor_works working_host) by (intros tr f; reflexivity).
  assert (X : exporter_works working_host) by (intros tr a; reflexivity).
  split; [exact Hs|]. split; [exact B|]. split; [exact H|]. split; [exact O|].
  split; [exact W|]. split; [exact Cu|]. split; [exact X|].
  exact (aborted_index_is_prefix string (failing_host 5) walk scene_0_12
           _ _ working_host Hs B H O W Cu X).
Defined.

(** Names and paths at the edges: an index file whose name is only an
    extension, one in the root directory, one without directory. *)
Example frame_basename_edge_cases :
  frame_basename {| filepath := "/tmp/.kanim"; frame_skip := 4 |} 3
    = ".kanim0003.x3d"%string /\
  frame_basename {| filepath := "/tmp/a.b.kanim"; frame_skip := 4 |} 3
    = "a.b0003.x3d"%string /\
  x3d_filepath (frame_x3d_args {| filepath := "/walk.kanim"; frame_skip := 4 |} 3)
    = "/walk0003.x3d"%string /\
  x3d_filepath (frame_x3d_args {| filepath := "walk.kanim"; frame_skip := 4 |} 3)
    = "walk0003.x3d"%string /\
  x3d_filepath (frame_x3d_args {| filepath := "a//b/walk.kanim"; frame_skip := 4 |} 3)
    = "a//b/walk0003.x3d"%string.
Proof. repeat split; vm_compute; reflexivity. Qed.

(** [invoke] from a saved and from an unsaved blend file. *)
Example invoke_examples :
  filepath (fst (fst (invoke {| filepath := EmptyString; frame_skip := 4 |}
                             "/home/me/walk.blend")))
    = "/home/me/walk.kanim"%string /\
  filepath (fst (fst (invoke {| filepath := EmptyString; frame_skip := 4 |}
                             EmptyString)))
    = "untitled.kanim"%string /\
  filepath (fst (fst (invoke {| filepath := "/tmp/run.kanim"; frame_skip := 4 |}
                             "/home/me/walk.blend")))
    = "/tmp/run.kanim"%string.
Proof. repeat split; vm_compute; reflexivity. Qed.
